(** * TechFlow AI Recruiter: turn orchestration and interview scheduling

    A shallow embedding of the recruiter bot's orchestrator
    ([app/modules/agents.py]), its exit advisor
    ([app/modules/exit_agent/exit_agent.py]), the scheduling advisor's
    date/time parser ([app/modules/advisors/scheduling_advisor.py]) and the two
    slot stores ([app/modules/database.py], [app/modules/schedule/db_manager.py]).

    Python [str] values are modelled as [string] (ASCII text), Python [int] as
    [Z].  Every call to an external capability (a language model, the vector
    store, MongoDB) is modelled by its outcome: the value it returned or the
    exception it raised. *)

From Stdlib Require Import ZArith List String Ascii Bool Lia.
From Stdlib Require Import DecimalString.
From Stdlib Require Import Sorting.Sorted Sorting.Permutation.
Import ListNotations.

Local Open Scope string_scope.
Local Open Scope Z_scope.

(** ** Outcomes of calls that may raise *)

Inductive Outcome (A : Type) : Type :=
| Returns (a : A)
| Raises (msg : string).
Arguments Returns {A} a.
Arguments Raises {A} msg.

Definition bind {A B : Type} (o : Outcome A) (f : A -> Outcome B) : Outcome B :=
  match o with
  | Returns a => f a
  | Raises e => Raises e
  end.

Notation "x <- c1 ;; c2" := (bind c1 (fun x => c2))
  (at level 61, c1 at next level, right associativity).

(** ** Python string operations *)

Module PyStr.

Definition nl : string := String (ascii_of_nat 10) EmptyString.

Definition code (c : ascii) : Z := Z.of_nat (nat_of_ascii c).

Definition is_upper (c : ascii) : bool := (65 <=? code c) && (code c <=? 90).
Definition is_lower (c : ascii) : bool := (97 <=? code c) && (code c <=? 122).

(** [\d] on ASCII text. *)
Definition is_digit (c : ascii) : bool := (48 <=? code c) && (code c <=? 57).

(** [str.isspace] and the regex class [\s] on ASCII text: tab, LF, VT, FF, CR,
    the separators 0x1c-0x1f and the blank. *)
Definition is_space (c : ascii) : bool :=
  ((9 <=? code c) && (code c <=? 13)) || ((28 <=? code c) && (code c <=? 32)).

Definition lower_char (c : ascii) : ascii :=
  if is_upper c then ascii_of_nat (nat_of_ascii c + 32)%nat else c.
Definition upper_char (c : ascii) : ascii :=
  if is_lower c then ascii_of_nat (nat_of_ascii c - 32)%nat else c.

Fixpoint map_chars (f : ascii -> ascii) (s : string) : string :=
  match s with
  | EmptyString => EmptyString
  | String c t => String (f c) (map_chars f t)
  end.

Definition lower : string -> string := map_chars lower_char.
Definition upper : string -> string := map_chars upper_char.

(** [s.replace(" ", "_")]. *)
Definition replace_blank_underscore : string -> string :=
  map_chars (fun c => if Ascii.eqb c " "%char then "_"%char else c).

Fixpoint lstrip (s : string) : string :=
  match s with
  | EmptyString => EmptyString
  | String c t => if is_space c then lstrip t else s
  end.

Fixpoint rstrip (s : string) : string :=
  match s with
  | EmptyString => EmptyString
  | String c t =>
      match rstrip t with
      | EmptyString => if is_space c then EmptyString else String c EmptyString
      | t' => String c t'
      end
  end.

Definition strip (s : string) : string := rstrip (lstrip s).

(** [needle in hay]. *)
Fixpoint contains (needle hay : string) : bool :=
  if prefix needle hay then true
  else match hay with
       | EmptyString => false
       | String _ t => contains needle t
       end.

(** [any(kw in text for kw in kws)]. *)
Definition any_in (kws : list string) (text : string) : bool :=
  existsb (fun kw => contains kw text) kws.

(** [hay.count(needle)] for a non-empty needle: occurrences are counted left to
    right without overlap; [skip] characters of a counted occurrence are still
    to be passed over. *)
Fixpoint count_from (needle hay : string) (skip : nat) : Z :=
  match hay with
  | EmptyString => 0
  | String _ t =>
      match skip with
      | S k => count_from needle t k
      | O => if prefix needle hay
             then 1 + count_from needle t (Nat.pred (String.length needle))
             else count_from needle t O
      end
  end.

Definition count (needle hay : string) : Z := count_from needle hay O.

(** Whether every character of [s] satisfies [f]. *)
Fixpoint all_chars (f : ascii -> bool) (s : string) : bool :=
  match s with
  | EmptyString => true
  | String c t => f c && all_chars f t
  end.

(** Whether [s] starts with a character that satisfies [f]. *)
Definition head_is (f : ascii -> bool) (s : string) : bool :=
  match s with
  | EmptyString => false
  | String c _ => f c
  end.

(** [re.search(r'\d+', s)] finds a match exactly when [s] holds a digit. *)
Fixpoint has_digit (s : string) : bool :=
  match s with
  | EmptyString => false
  | String c t => is_digit c || has_digit t
  end.

Definition in_list (s : string) (l : list string) : bool :=
  existsb (String.eqb s) l.

(** [int(s)] for a string of ASCII digits. *)
Fixpoint int_of_digits_acc (acc : Z) (s : string) : Z :=
  match s with
  | EmptyString => acc
  | String c t => int_of_digits_acc (10 * acc + (code c - 48)) t
  end.
Definition int_of_digits : string -> Z := int_of_digits_acc 0.

(** [str(n)] for [n >= 0]. *)
Definition decimal (n : Z) : string :=
  NilZero.string_of_uint (N.to_uint (Z.to_N n)).

Fixpoint zeros (k : nat) : string :=
  match k with
  | O => EmptyString
  | S k' => String "0"%char (zeros k')
  end.

(** [f"{n:0wd}"] for [n >= 0]: decimal digits, zero-padded on the left to the
    width [w]. *)
Definition zero_pad (w : nat) (n : Z) : string :=
  let d := decimal n in
  (zeros (w - String.length d)%nat ++ d)%string.

End PyStr.


Import PyStr.

(** ** The calendar of Python's [datetime]

    The proleptic Gregorian calendar as the [datetime] module computes it:
    day 1 is 0001-01-01, [weekday()] counts Monday as 0, and a date outside
    years 1..9999 does not exist ([OverflowError]). *)

Module Calendar.

Record date : Type := mkdate { year : Z; month : Z; day : Z }.

Definition _MAXORDINAL : Z := 3652059.
Definition _DI400Y : Z := 146097.
Definition _DI100Y : Z := 36524.
Definition _DI4Y : Z := 1461.

Definition _DAYS_IN_MONTH : list Z :=
  [-1; 31; 28; 31; 30; 31; 30; 31; 31; 30; 31; 30; 31].
Definition _DAYS_BEFORE_MONTH : list Z :=
  [-1; 0; 31; 59; 90; 120; 151; 181; 212; 243; 273; 304; 334].

Definition _is_leap (y : Z) : bool :=
  (y mod 4 =? 0) && (negb (y mod 100 =? 0) || (y mod 400 =? 0)).

Definition _days_before_year (y : Z) : Z :=
  let y := y - 1 in y * 365 + y / 4 - y / 100 + y / 400.

Definition _days_in_month (y m : Z) : Z :=
  if (m =? 2) && _is_leap y then 29 else nth (Z.to_nat m) _DAYS_IN_MONTH 0.

Definition _days_before_month (y m : Z) : Z :=
  nth (Z.to_nat m) _DAYS_BEFORE_MONTH 0 + (if (m >? 2) && _is_leap y then 1 else 0).

Definition _ymd2ord (y m d : Z) : Z :=
  _days_before_year y + _days_before_month y m + d.

Definition _ord2ymd (n : Z) : date :=
  let n := n - 1 in
  let n400 := n / _DI400Y in
  let n := n mod _DI400Y in
  let y := n400 * 400 + 1 in
  let n100 := n / _DI100Y in
  let n := n mod _DI100Y in
  let n4 := n / _DI4Y in
  let n := n mod _DI4Y in
  let n1 := n / 365 in
  let n := n mod 365 in
  let y := y + n100 * 100 + n4 * 4 + n1 in
  if (n1 =? 4) || (n100 =? 4) then mkdate (y - 1) 12 31
  else
    let leapyear := (n1 =? 3) && (negb (n4 =? 24) || (n100 =? 3)) in
    let m := (n + 50) / 32 in
    let preceding :=
      nth (Z.to_nat m) _DAYS_BEFORE_MONTH 0 + (if (m >? 2) && leapyear then 1 else 0) in
    if preceding >? n then
      let m := m - 1 in
      let preceding :=
        preceding - (nth (Z.to_nat m) _DAYS_IN_MONTH 0
                     + (if (m =? 2) && leapyear then 1 else 0)) in
      mkdate y m (n - preceding + 1)
    else mkdate y m (n - preceding + 1).

Definition toordinal (d : date) : Z := _ymd2ord (year d) (month d) (day d).
Definition fromordinal (n : Z) : date := _ord2ymd n.

(** [d.weekday()]: Monday is 0, Sunday is 6. *)
Definition weekday (d : date) : Z := (toordinal d + 6) mod 7.

(** [d + timedelta(days=k)]. *)
Definition add_days (d : date) (k : Z) : Outcome date :=
  let o := toordinal d + k in
  if (0 <? o) && (o <=? _MAXORDINAL) then Returns (fromordinal o)
  else Raises "date value out of range".

(** The reference dates from which every target date of the parser exists:
    a date of the calendar with two weeks left before its last day. *)
Definition has_two_weeks (d : date) : Prop :=
  0 < toordinal d /\ toordinal d + 14 <= _MAXORDINAL.

(** [d.strftime('%Y-%m-%d')]. *)
Definition strftime_ymd (d : date) : string :=
  (zero_pad 4 (year d) ++ "-" ++ zero_pad 2 (month d) ++ "-" ++ zero_pad 2 (day d))%string.

(** The day number of a schema date ["YYYY-MM-DD"]; [None] for any other
    string.  On schema dates SQLite's [julianday] and Python's
    [strptime(_, "%Y-%m-%d")] both denote this day, up to a constant offset
    that cancels in differences. *)
Definition parse_ymd (s : string) : option Z :=
  match s with
  | String y1 (String y2 (String y3 (String y4 (String "-"
      (String m1 (String m2 (String "-" (String d1 (String d2 EmptyString))))))))) =>
      if forallb is_digit [y1; y2; y3; y4; m1; m2; d1; d2] then
        let y := int_of_digits (String y1 (String y2 (String y3 (String y4 EmptyString)))) in
        let m := int_of_digits (String m1 (String m2 EmptyString)) in
        let d := int_of_digits (String d1 (String d2 EmptyString)) in
        if (1 <=? y) && (1 <=? m) && (m <=? 12) && (1 <=? d) && (d <=? _days_in_month y m)
        then Some (_ymd2ord y m d)
        else None
      else None
  | _ => None
  end.

End Calendar.

(** ** The slot stores *)

(** A row of the [Schedule] table, a document of the [Availability]
    collection, an entry of the mock data.  [available] is the SQLite column
    [available = 1], the document field [available]. *)
Record Slot : Type := mkSlot {
  id : Z;
  date : string;
  time : string;
  position : string;
  available : bool
}.

(** The record [book_slot] returns: [success], [message] and, on success, the
    booked [date], [time] and [position]. *)
Record BookingResult : Type := mkBookingResult {
  success : bool;
  message : string;
  booked_slot : option (string * string * string)
}.

Definition slot_is (d t p : string) (s : Slot) : bool :=
  (date s =? d)%string && (time s =? t)%string && (position s =? p)%string.

(** What identifies a bookable unit: its date, time and position. *)
Definition slot_key (s : Slot) : string * string * string :=
  (date s, time s, position s).

(** A store in which no two slots share date, time and position.  Neither
    the table schema nor the collection enforces it. *)
Definition unique_keys (slots : list Slot) : Prop := NoDup (map slot_key slots).

(** How a slot may differ after a booking of the key [k]: it keeps its id and
    its date, time and position; it is not re-opened; and a slot of another
    key is untouched. *)
Definition closed_only (k : string * string * string) (s s' : Slot) : Prop :=
  id s' = id s
  /\ slot_key s' = slot_key s
  /\ (available s' = true -> available s = true)
  /\ (slot_key s <> k -> s' = s).

Definition set_unavailable (s : Slot) : Slot :=
  mkSlot (id s) (date s) (time s) (position s) false.

Definition not_available_result (d t : string) : BookingResult :=
  mkBookingResult false ("Slot " ++ d ++ " at " ++ t ++ " is not available")%string None.

Definition booked_result (d t p : string) : BookingResult :=
  mkBookingResult true ("Successfully booked interview for " ++ d ++ " at " ++ t)%string
    (Some (d, t, p)).

(** [l.sort(key=...)], [ORDER BY]: a stable insertion sort for the order [leb]. *)
Section Sorting.
Context {A : Type} (leb : A -> A -> bool).

Fixpoint insert_sorted (x : A) (l : list A) : list A :=
  match l with
  | [] => [x]
  | y :: l' => if leb x y then x :: l else y :: insert_sorted x l'
  end.

Fixpoint sort_by (l : list A) : list A :=
  match l with
  | [] => []
  | x :: l' => insert_sorted x (sort_by l')
  end.

End Sorting.

(** [app/modules/database.py]: the SQLite table as the list of its rows, in
    rowid order. *)
Module DatabaseManager.

Definition Table : Type := list Slot.

(** [SELECT available ... WHERE date = ? AND time = ? AND position = ?], then
    [fetchone()]. *)
Definition check_slot_availability (db : Table) (d t p : string) : bool :=
  match find (slot_is d t p) db with
  | Some row => available row
  | None => false
  end.

(** [UPDATE Schedule SET available = 0 WHERE date = ? AND time = ? AND position = ?]. *)
Definition update_available_0 (db : Table) (d t p : string) : Table :=
  map (fun row => if slot_is d t p row then set_unavailable row else row) db.

Definition book_slot (db : Table) (d t p : string) : Table * BookingResult :=
  if negb (check_slot_availability db d t p) then (db, not_available_result d t)
  else (update_available_0 db d t p, booked_result d t p).

(** [ABS(julianday(date) - julianday(?))]; [None] is SQL [NULL]. *)
Definition date_diff (target_date : string) (row : Slot) : option Z :=
  match Calendar.parse_ymd (date row), Calendar.parse_ymd target_date with
  | Some a, Some b => Some (Z.abs (a - b))
  | _, _ => None
  end.

(** The order of [ORDER BY date_diff, time]: [NULL] sorts first, the [time]
    column is compared as text. *)
Definition diff_leb (a b : option Z) : bool :=
  match a, b with
  | None, _ => true
  | Some _, None => false
  | Some x, Some y => x <=? y
  end.

Definition diff_eqb (a b : option Z) : bool :=
  match a, b with
  | None, None => true
  | Some x, Some y => x =? y
  | _, _ => false
  end.

Definition near_leb (target_date : string) (r1 r2 : Slot) : bool :=
  let k1 := date_diff target_date r1 in
  let k2 := date_diff target_date r2 in
  if diff_eqb k1 k2 then (time r1 <=? time r2)%string else diff_leb k1 k2.

(** [LIMIT ?]: a negative limit is no limit. *)
Definition sql_limit {A : Type} (limit : Z) (rows : list A) : list A :=
  if limit <? 0 then rows else firstn (Z.to_nat limit) rows.

Definition get_slots_near_date (db : Table) (target_date p : string) (limit : Z)
  : list Slot :=
  sql_limit limit
    (sort_by (near_leb target_date)
       (filter (fun row => available row && (position row =? p)%string) db)).

(** The order of [ORDER BY date, time], both columns compared as text. *)
Definition date_time_leb (r1 r2 : Slot) : bool :=
  if (date r1 =? date r2)%string then (time r1 <=? time r2)%string
  else (date r1 <=? date r2)%string.

(** [get_available_slots(date, position, limit)]; [today] is
    [datetime.now().strftime('%Y-%m-%d')].  A [date] that is [None] or empty
    takes the second query. *)
Definition get_available_slots (db : Table) (today : string) (d : option string)
  (p : string) (limit : Z) : list Slot :=
  match d with
  | Some d0 =>
      if (d0 =? "")%string then
        sql_limit limit
          (sort_by date_time_leb
             (filter (fun row => available row && (position row =? p)%string
                                 && (today <=? date row)%string) db))
      else
        sql_limit limit
          (sort_by (fun r1 r2 => (time r1 <=? time r2)%string)
             (filter (fun row => available row && (position row =? p)%string
                                 && (date row =? d0)%string) db))
  | None =>
      sql_limit limit
        (sort_by date_time_leb
           (filter (fun row => available row && (position row =? p)%string
                               && (today <=? date row)%string) db))
  end.

End DatabaseManager.

(** [app/modules/schedule/db_manager.py]: the MongoDB collection when the
    manager is connected, and the mock data it falls back to. *)
Module MongoDBManager.

Record Manager : Type := mkManager {
  collection : option (list Slot);
  _mock_data : list Slot
}.

(** Which MongoDB operations of a call raise. *)
Record Faults : Type := mkFaults {
  find_one_raises : bool;
  update_one_raises : bool;
  find_raises : bool
}.

Definition no_faults : Faults := mkFaults false false false.

(** The slots the manager works on when no MongoDB operation raises: the
    collection when it is connected, the mock data otherwise. *)
Definition store (self : Manager) : list Slot :=
  match collection self with
  | Some docs => docs
  | None => _mock_data self
  end.

(** The manager with the slots it works on replaced. *)
Definition with_store (self : Manager) (slots : list Slot) : Manager :=
  match collection self with
  | Some _ => mkManager (Some slots) (_mock_data self)
  | None => mkManager None slots
  end.

(** [for slot in self._mock_data: if ...: return slot["available"]], then
    [return False]. *)
Definition check_mock (mock : list Slot) (d t p : string) : bool :=
  match find (slot_is d t p) mock with
  | Some slot => available slot
  | None => false
  end.

Definition check_slot_availability (self : Manager) (f : Faults) (d t p : string)
  : bool :=
  match collection self with
  | Some docs =>
      if find_one_raises f then check_mock (_mock_data self) d t p
      else match find (slot_is d t p) docs with
           | Some doc => available doc
           | None => false
           end
  | None => check_mock (_mock_data self) d t p
  end.

(** [update_one] and the loop over the mock data: the first matching slot is
    set unavailable; [None] when no slot matches. *)
Fixpoint update_first (slots : list Slot) (d t p : string) : option (list Slot) :=
  match slots with
  | [] => None
  | s :: rest =>
      if slot_is d t p s then Some (set_unavailable s :: rest)
      else option_map (cons s) (update_first rest d t p)
  end.

Definition book_mock (self : Manager) (d t p : string) : Manager * BookingResult :=
  match update_first (_mock_data self) d t p with
  | Some mock' => (mkManager (collection self) mock', booked_result d t p)
  | None => (self, mkBookingResult false "Slot not found" None)
  end.

Definition book_slot (self : Manager) (f : Faults) (d t p : string)
  : Manager * BookingResult :=
  if negb (check_slot_availability self f d t p) then (self, not_available_result d t)
  else
    match collection self with
    | Some docs =>
        if update_one_raises f then book_mock self d t p
        else
          let docs' := match update_first docs d t p with
                       | Some docs' => docs'
                       | None => docs
                       end in
          (mkManager (Some docs') (_mock_data self), booked_result d t p)
    | None => book_mock self d t p
    end.

(** [abs((strptime(x["date"]) - strptime(target_date)).days)]; [strptime]
    raises [ValueError] on a string it cannot parse. *)
Definition days_apart (target_date : string) (x : Slot) : Outcome Z :=
  match Calendar.parse_ymd (date x), Calendar.parse_ymd target_date with
  | Some a, Some b => Returns (Z.abs (a - b))
  | _, _ => Raises "time data does not match format '%Y-%m-%d'"
  end.

(** The sort keys of a list, computed before sorting as [list.sort] does. *)
Fixpoint keyed (target_date : string) (slots : list Slot) : Outcome (list (Z * Slot)) :=
  match slots with
  | [] => Returns []
  | x :: rest =>
      k <- days_apart target_date x ;;
      ks <- keyed target_date rest ;;
      Returns ((k, x) :: ks)
  end.

Definition sort_by_proximity (target_date : string) (slots : list Slot)
  : Outcome (list Slot) :=
  ks <- keyed target_date slots ;;
  Returns (map snd (sort_by (fun a b => fst a <=? fst b) ks)).

(** [l[:n]]: a negative [n] counts from the end. *)
Definition py_prefix {A : Type} (n : Z) (l : list A) : list A :=
  if n <? 0 then firstn (List.length l - Z.to_nat (- n))%nat l
  else firstn (Z.to_nat n) l.

(** [cursor.limit(n)]: 0 is no limit, a negative [n] limits to [-n]. *)
Definition cursor_limit {A : Type} (n : Z) (l : list A) : list A :=
  if n =? 0 then l else firstn (Z.to_nat (Z.abs n)) l.

Definition near_mock (self : Manager) (target_date p : string) (limit : Z)
  : Outcome (list Slot) :=
  let slots :=
    filter (fun s => available s && (position s =? p)%string) (_mock_data self) in
  sorted <- sort_by_proximity target_date slots ;;
  Returns (py_prefix limit sorted).

Definition get_slots_near_date (self : Manager) (f : Faults)
  (target_date p : string) (limit : Z) : Outcome (list Slot) :=
  match collection self with
  | Some docs =>
      if find_raises f then near_mock self target_date p limit
      else
        let cursor :=
          cursor_limit (limit * 3)
            (sort_by (fun a b => (date a <=? date b)%string)
               (filter (fun s => available s && (position s =? p)%string) docs)) in
        match sort_by_proximity target_date cursor with
        | Returns sorted => Returns (py_prefix limit sorted)
        | Raises _ => near_mock self target_date p limit
        end
  | None => near_mock self target_date p limit
  end.

(** The fallback of [get_available_slots] on the mock data, which keeps the
    order of the list. *)
Definition available_mock (self : Manager) (today : string) (d : option string)
  (p : string) (limit : Z) : list Slot :=
  let slots :=
    filter (fun s => available s && (position s =? p)%string
                     && (today <=? date s)%string) (_mock_data self) in
  let slots :=
    match d with
    | Some d0 =>
        if (d0 =? "")%string then slots
        else filter (fun s => (date s =? d0)%string) slots
    | None => slots
    end in
  py_prefix limit slots.

(** [get_available_slots(date, position, limit)]; [today] is
    [datetime.now().strftime("%Y-%m-%d")]. *)
Definition get_available_slots (self : Manager) (f : Faults) (today : string)
  (d : option string) (p : string) (limit : Z) : list Slot :=
  match collection self with
  | Some docs =>
      if find_raises f then available_mock self today d p limit
      else
        let wanted (s : Slot) :=
          match d with
          | Some d0 =>
              if (d0 =? "")%string then (today <=? date s)%string
              else (date s =? d0)%string
          | None => (today <=? date s)%string
          end in
        cursor_limit limit
          (sort_by (fun a b => (date a <=? date b)%string)
             (filter (fun s => available s && (position s =? p)%string && wanted s)
                docs))
  | None => available_mock self today d p limit
  end.

End MongoDBManager.

(** ** The scheduling advisor *)

Module SchedulingAdvisor.

(** [day_names], in the order the dict is written and iterated. *)
Definition day_names : list (string * Z) :=
  [("sunday", 6); ("monday", 0); ("tuesday", 1); ("wednesday", 2);
   ("thursday", 3); ("friday", 4); ("saturday", 5)].

(** The loop [for day_name, weekday in day_names.items()] with its [break] at
    the first day name found in the text.  [next_week] tells the loop of the
    ["next"] branch, which adds 7 more days, from the loop of the last branch. *)
Fixpoint scan_day_names (names : list (string * Z)) (next_week : bool)
  (text : string) (ref : Calendar.date) : Outcome (option Calendar.date) :=
  match names with
  | [] => Returns None
  | (day_name, weekday) :: rest =>
      if contains day_name text then
        let days_ahead := weekday - Calendar.weekday ref in
        let days_ahead := if days_ahead <=? 0 then days_ahead + 7 else days_ahead in
        let days_ahead := if next_week then days_ahead + 7 else days_ahead in
        target_date <- Calendar.add_days ref days_ahead ;;
        Returns (Some target_date)
      else scan_day_names rest next_week text ref
  end.

(** The groups of a match of
    [(\d{1,2})(?::(\d{2}))?\s*(am|pm|AM|PM)?]. *)
Record TimeMatch : Type := mkTimeMatch {
  group1 : string;
  group2 : option string;
  group3 : option string
}.

(** [(?::(\d{2}))?] at the head of [s]: the two digits after a colon and the
    text after them, when [s] starts with a colon and two digits. *)
Definition minute_follows (s : string) : option (string * string) :=
  match s with
  | String x (String m1 (String m2 r)) =>
      if Ascii.eqb x ":"%char && is_digit m1 && is_digit m2
      then Some (String m1 (String m2 EmptyString), r)
      else None
  | _ => None
  end.

(** [(am|pm|AM|PM)?] at the head of [s]: the first alternative that matches. *)
Definition marker_follows (s : string) : option string :=
  if prefix "am" s then Some "am"
  else if prefix "pm" s then Some "pm"
  else if prefix "AM" s then Some "AM"
  else if prefix "PM" s then Some "PM"
  else None.

(** The match that starts at the head of [s], if [s] starts with a digit.
    Every part after the first digit is optional and greedy, so the match is
    found without backtracking: a second digit is taken when there is one,
    [":dd"] when it follows, then all white space, then a period marker when
    one follows. *)
Definition match_time_at (s : string) : option TimeMatch :=
  match s with
  | EmptyString => None
  | String d1 r1 =>
      if is_digit d1 then
        let '(g1, r2) :=
          match r1 with
          | String d2 r =>
              if is_digit d2 then (String d1 (String d2 EmptyString), r)
              else (String d1 EmptyString, r1)
          | EmptyString => (String d1 EmptyString, r1)
          end in
        let '(g2, r3) :=
          match minute_follows r2 with
          | Some (mm, r) => (Some mm, r)
          | None => (None, r2)
          end in
        let r4 := lstrip r3 in
        Some (mkTimeMatch g1 g2 (marker_follows r4))
      else None
  end.

(** [re.search(time_pattern, text)]: the match at the leftmost position that
    has one. *)
Fixpoint search_time (text : string) : option TimeMatch :=
  match match_time_at text with
  | Some m => Some m
  | None =>
      match text with
      | EmptyString => None
      | String _ rest => search_time rest
      end
  end.

(** The hour after the period marker is applied. *)
Definition adjust_hour (hour : Z) (period : option string) : Z :=
  match period with
  | Some p =>
      if (lower p =? "pm")%string && (hour <? 12) then hour + 12
      else if (lower p =? "am")%string && (hour =? 12) then 0
      else hour
  | None => hour
  end.

Definition format_time (m : TimeMatch) : string :=
  let hour := int_of_digits (group1 m) in
  let minute := match group2 m with Some mm => mm | None => "00" end in
  let hour := adjust_hour hour (group3 m) in
  (zero_pad 2 hour ++ ":" ++ minute)%string.

(** [_parse_datetime(text, reference_date)], with [ref] the datetime the
    source resolves [reference_date] to ([fromisoformat], or [datetime.now()]
    when the string is absent or malformed).  Returns [(date_str, target_time)];
    raises only when the target date is past the last date of the calendar. *)
Definition _parse_datetime (text : string) (ref : Calendar.date)
  : Outcome (option string * option string) :=
  let text := lower text in
  target_date <-
    (if contains "tomorrow" text then
       d <- Calendar.add_days ref 1 ;; Returns (Some d)
     else if contains "next" text then
       scan_day_names day_names true text ref
     else
       scan_day_names day_names false text ref) ;;
  let target_time := option_map format_time (search_time text) in
  let date_str := option_map Calendar.strftime_ymd target_date in
  Returns (date_str, target_time).

(** [_classify_intent], given the outcome of the classifier call. *)
Definition _classify_intent (llm : Outcome string) : string :=
  match llm with
  | Returns result => replace_blank_underscore (upper (strip result))
  | Raises _ => "OTHER"
  end.

(** What the calls of one [handle_scheduling] meet: the classifier's outcome
    and the outcome of each handler, had it been called. *)
Record World : Type := mkWorld {
  intent_llm : Outcome string;
  availability_request : Outcome (string * bool);
  time_proposal : Outcome (string * bool);
  booking_confirmation : Outcome (string * bool);
  general_inquiry : Outcome (string * bool)
}.

Definition handle_scheduling (w : World) : Outcome (string * bool) :=
  let intent := _classify_intent (intent_llm w) in
  if (intent =? "REQUEST_AVAILABILITY")%string then availability_request w
  else if (intent =? "PROPOSE_TIME")%string then time_proposal w
  else if (intent =? "CONFIRM_BOOKING")%string then booking_confirmation w
  else general_inquiry w.

(** *** Recovering the proposed slot *)

Definition and_then {A B : Type} (o : option A) (f : A -> option B) : option B :=
  match o with
  | Some a => f a
  | None => None
  end.

(** [\d{n}] at the head of [s]: the digits and the text after them. *)
Fixpoint take_digits (n : nat) (s : string) : option (string * string) :=
  match n with
  | O => Some (EmptyString, s)
  | S k =>
      match s with
      | EmptyString => None
      | String c t =>
          if is_digit c
          then and_then (take_digits k t) (fun '(ds, r) => Some (String c ds, r))
          else None
      end
  end.

(** A literal character at the head of [s]: the text after it. *)
Definition take_char (x : ascii) (s : string) : option string :=
  match s with
  | EmptyString => None
  | String c t => if Ascii.eqb c x then Some t else None
  end.

(** [\s+] at the head of [s], before a part that starts with no white space:
    all the white space is taken. *)
Definition take_spaces (s : string) : option string :=
  match s with
  | EmptyString => None
  | String c t => if is_space c then Some (lstrip t) else None
  end.

(** The match of [(\d{4}-\d{2}-\d{2})\s+at\s+(\d{2}:\d{2})] that starts at the
    head of [s]: its two groups and the text after the match. *)
Definition match_slot_at (s : string) : option (string * string * string) :=
  and_then (take_digits 4 s) (fun '(y, r) =>
  and_then (take_char "-" r) (fun r =>
  and_then (take_digits 2 r) (fun '(m, r) =>
  and_then (take_char "-" r) (fun r =>
  and_then (take_digits 2 r) (fun '(d, r) =>
  and_then (take_spaces r) (fun r =>
  and_then (take_char "a" r) (fun r =>
  and_then (take_char "t" r) (fun r =>
  and_then (take_spaces r) (fun r =>
  and_then (take_digits 2 r) (fun '(hh, r) =>
  and_then (take_char ":" r) (fun r =>
  and_then (take_digits 2 r) (fun '(mm, r) =>
  Some ((y ++ "-" ++ m ++ "-" ++ d)%string, (hh ++ ":" ++ mm)%string, r))))))))))))).

(** [re.findall(date_pattern, s)]: the matches from left to right, each
    search starting where the match before ended; [skip] characters of the
    last match are still to be passed over. *)
Fixpoint find_slots (s : string) (skip : nat) : list (string * string) :=
  match s with
  | EmptyString => []
  | String _ t =>
      match skip with
      | S k => find_slots t k
      | O =>
          match match_slot_at s with
          | Some (d, tm, rest) =>
              (d, tm) :: find_slots t (String.length t - String.length rest)
          | None => find_slots t O
          end
      end
  end.

(** [matches[-1]], or [None] when there is no match. *)
Definition _extract_last_proposed_slot (history : string)
  : option (string * string) :=
  match find_slots history O with
  | [] => None
  | m :: ms => Some (last ms m)
  end.

(** The texts the two groups of the pattern can hold: [dddd-dd-dd] and
    [dd:dd]. *)
Definition date_text (s : string) : bool :=
  match s with
  | String y1 (String y2 (String y3 (String y4 (String h1
      (String m1 (String m2 (String h2 (String d1 (String d2 EmptyString))))))))) =>
      forallb is_digit [y1; y2; y3; y4; m1; m2; d1; d2]
      && Ascii.eqb h1 "-" && Ascii.eqb h2 "-"
  | _ => false
  end.

Definition time_text (s : string) : bool :=
  match s with
  | String h1 (String h2 (String x (String m1 (String m2 EmptyString)))) =>
      forallb is_digit [h1; h2; m1; m2] && Ascii.eqb x ":"
  | _ => false
  end.

(** The characters a match of the pattern can hold: digits, white space and
    the literals of the pattern. *)
Definition is_pattern_char (c : ascii) : bool :=
  is_digit c || is_space c || Ascii.eqb c "-" || Ascii.eqb c "a"
  || Ascii.eqb c "t" || Ascii.eqb c ":".

(** *** The handlers that work on the table *)

(** ["\n".join(f"- {s['date']} at {s['time']}" for s in slots)]. *)
Definition slot_list (slots : list Slot) : string :=
  String.concat nl (map (fun s => ("- " ++ date s ++ " at " ++ time s)%string) slots).

(** [_handle_general_inquiry]; [today] is the date [get_available_slots]
    reads from the clock. *)
Definition _handle_general_inquiry (db : DatabaseManager.Table) (today : string)
  : string * bool :=
  match DatabaseManager.get_available_slots db today None "Python Dev" 3 with
  | [] =>
      ("I'd be happy to help schedule an interview. What days and times generally work for you?",
       false)
  | slots =>
      (("I'd love to schedule an interview with you. Here are some available times:"
        ++ nl ++ slot_list slots ++ nl ++ nl ++ "Which works best?")%string,
       false)
  end.

Definition clarification : string :=
  "Could you specify the exact date and time you're thinking of? For example, 'Tuesday at 10 AM'.".

(** [_handle_time_proposal]; [ref] is the reference date of the parser and
    [client] the outcome of the chat completion call: whether the response
    carries tool calls, or the exception raised. *)
Definition _handle_time_proposal (db : DatabaseManager.Table) (message : string)
  (ref : Calendar.date) (client : Outcome bool) : Outcome (string * bool) :=
  parsed <- _parse_datetime message ref ;;
  match parsed with
  | (Some parsed_date, Some parsed_time) =>
      if (parsed_date =? "")%string || (parsed_time =? "")%string
      then Returns (clarification, false)
      else
        match client with
        | Returns true =>
            if DatabaseManager.check_slot_availability db parsed_date parsed_time
                 "Python Dev"
            then Returns (("Let me check... Yes, " ++ parsed_date ++ " at " ++ parsed_time
                           ++ " is available! Shall I book that for you?")%string, false)
            else
              match DatabaseManager.get_slots_near_date db parsed_date "Python Dev" 3 with
              | [] => Returns ("That time isn't available. Could you suggest another day or time?",
                               false)
              | alt_slots =>
                  Returns (("Sorry, that slot isn't available. Here are some nearby times:"
                            ++ nl ++ slot_list alt_slots ++ nl ++ nl
                            ++ "Would any of these work?")%string, false)
              end
        | Returns false => Returns (clarification, false)
        | Raises _ => Returns (clarification, false)
        end
  | _ => Returns (clarification, false)
  end.

(** [_handle_booking_confirmation]: the table after the call and what the
    handler returns. *)
Definition _handle_booking_confirmation (db : DatabaseManager.Table) (history : string)
  : DatabaseManager.Table * (string * bool) :=
  match _extract_last_proposed_slot history with
  | Some (d, t) =>
      let '(db', booking_result) := DatabaseManager.book_slot db d t "Python Dev" in
      if success booking_result then
        (db', (("Excellent! I've confirmed your interview for " ++ d ++ " at " ++ t
                ++ ". You'll receive a calendar invitation shortly via email.")%string,
               true))
      else
        (db', ("I apologize, but that slot was just taken. Let me find another time for you.",
               false))
  | None =>
      (db, ("Great! Just to confirm - which time slot would you like me to book?", false))
  end.

End SchedulingAdvisor.

(** ** The exit advisor *)

Module ExitAdvisor.

(** [evaluate], given the outcome of the classifier call. *)
Definition evaluate (llm : Outcome string) : string :=
  match llm with
  | Returns response =>
      let decision := upper (strip response) in
      if contains "END" decision then "END" else "CONTINUE"
  | Raises _ => "CONTINUE"
  end.

Definition should_exit (llm : Outcome string) : bool :=
  (evaluate llm =? "END")%string.

Definition get_exit_message (llm : Outcome string) (is_interview_booked : bool)
  : string :=
  match llm with
  | Returns text => text
  | Raises _ =>
      if is_interview_booked
      then "Great! Your interview is confirmed. You'll receive a calendar invite shortly. Good luck!"
      else "Thank you for your time. We'll keep your information on file for future opportunities."
  end.

End ExitAdvisor.

(** ** The info advisor *)

Module InfoAdvisor.

Definition question_indicators : list string :=
  ["?"; "what"; "how"; "which"; "when"; "where"; "who"; "why";
   "tell me"; "explain"; "describe"; "requirements"; "salary";
   "benefits"; "stack"; "technology"; "company"; "team";
   "responsibilities"; "experience needed"].

Definition needs_info_retrieval (user_message : string) : bool :=
  any_in question_indicators (lower user_message).

Definition _get_fallback_response (question : string) : string :=
  let question_lower := lower question in
  if any_in ["requirement"; "experience"; "need"] question_lower then
    "We're looking for 3+ years of Python experience with web frameworks like Django or Flask. Does that match your background? I'd be happy to discuss more details in a quick call."
  else if any_in ["salary"; "compensation"; "pay"; "benefit"] question_lower then
    "We offer competitive compensation packages. I'd be happy to discuss specifics during an interview. Would you like to schedule a time to chat?"
  else if any_in ["stack"; "technology"; "tools"] question_lower then
    "We use Python, Django/Flask, AWS, and Docker primarily. Does that align with your experience? I'd love to tell you more in an interview."
  else if any_in ["remote"; "location"; "office"; "hybrid"] question_lower then
    "We're based in Tel Aviv with a hybrid work model. Is that arrangement something that works for you?"
  else
    "That's a great question! I'd be happy to discuss that and more in an interview. What times work best for your schedule?".

(** [generate_response]: [context] is the outcome of [_get_relevant_context],
    whose fallback [query_info] is called outside any [try]; [llm] is the
    outcome of the generation call. *)
Definition generate_response (user_message : string)
  (context llm : Outcome string) : Outcome string :=
  _ <- context ;;
  match llm with
  | Returns response => Returns (strip response)
  | Raises _ => Returns (_get_fallback_response user_message)
  end.

End InfoAdvisor.

(** ** The main agent *)

Module MainAgent.

(** [decide_action], given the outcome of the classifier call. *)
Definition decide_action (llm : Outcome string) : string :=
  match llm with
  | Returns response =>
      let action := upper (strip response) in
      if in_list action ["CONTINUE"; "SCHEDULE"; "END"] then action
      else if contains "CONTINUE" action then "CONTINUE"
      else if contains "SCHEDULE" action then "SCHEDULE"
      else if contains "END" action then "END"
      else "CONTINUE"
  | Raises e => ("ERROR: " ++ e)%string
  end.

End MainAgent.

(** ** The recruitment bot *)

Module RecruitmentBot.

(** The attributes [__init__] calls state tracking. *)
Record Bot : Type := mkBot {
  is_interview_booked : bool;
  conversation_start : string;
  screening_details_collected : Z;
  screening_complete : bool
}.

(** [__init__]; [now] is [datetime.now().isoformat()]. *)
Definition init (now : string) : Bot := mkBot false now 0 false.

(** [reset]. *)
Definition reset (self : Bot) (now : string) : Bot := mkBot false now 0 false.

Definition exp_keywords : list string :=
  ["year"; "experience"; "worked for"; "been working"].

Definition tech_keywords : list string :=
  ["python"; "django"; "flask"; "aws"; "docker"; "sql";
   "fastapi"; "react"; "kubernetes"; "cloud"].

Definition _update_screening_progress (self : Bot) (user_input : string) : Bot :=
  let user_lower := lower user_input in
  let n := screening_details_collected self in
  let n := if any_in exp_keywords user_lower && has_digit user_input then n + 1 else n in
  let n := if any_in tech_keywords user_lower then n + 1 else n in
  mkBot (is_interview_booked self) (conversation_start self) n
    (if n >=? 2 then true else screening_complete self).

Definition disengaged : list string :=
  ["nope"; "no"; "nah"; "not interested"; "stop";
   "leave me alone"; "go away"; "don't want"].

Definition refusals : list string :=
  ["don't want to tell"; "won't tell"; "not interested"; "leave me alone"].

Definition _is_disengaged (user_input history : string) : bool :=
  let user_lower := strip (lower user_input) in
  if any_in disengaged user_lower
     && (count "candidate: no" (lower history)
         + count "candidate: nope" (lower history) >=? 2)
  then true
  else any_in refusals user_lower.

Definition _generate_screening_response (llm : Outcome string) : string :=
  match llm with
  | Returns text => text
  | Raises e => ("Error generating response: " ++ e)%string
  end.

(** What the calls of one turn meet, one outcome per call site of
    [process_turn]: the two [should_exit] calls are separate calls and may
    answer differently. *)
Record World : Type := mkWorld {
  main_llm : Outcome string;
  exit_llm_validate : Outcome string;
  exit_llm_disengaged : Outcome string;
  info_context : Outcome string;
  info_llm : Outcome string;
  screening_llm : Outcome string;
  scheduling : SchedulingAdvisor.World;
  exit_message_llm : Outcome string
}.

(** The world [w] with the main agent's call answered by [main]. *)
Definition with_main_llm (w : World) (main : Outcome string) : World :=
  mkWorld main (exit_llm_validate w) (exit_llm_disengaged w) (info_context w)
    (info_llm w) (screening_llm w) (scheduling w) (exit_message_llm w).

(** The advisor calls a turn makes, with their arguments, in order. *)
Inductive Call : Type :=
| decide_action_call (history : string)
| should_exit_call (user_message history : string)
| info_response_call (user_message history : string)
| screening_response_call (user_input history : string)
| handle_scheduling_call (user_message history start_time : string)
| exit_message_call (history : string) (is_interview_booked : bool).

(** [conversation_timestamp or self.conversation_start]. *)
Definition timestamp_or (conversation_timestamp : option string) (start : string)
  : string :=
  match conversation_timestamp with
  | Some ts => if (ts =? "")%string then start else ts
  | None => start
  end.

Definition set_booked (self : Bot) (b : bool) : Bot :=
  mkBot b (conversation_start self) (screening_details_collected self)
    (screening_complete self).

(** The validation layer of [process_turn], the statements between its
    comments "VALIDATION LAYER" and "RESPONSE GENERATION": the END
    confirmation, the disengagement check and the screening gate, applied to
    the main agent's action.  [self] is the bot after the screening update.
    Returns the action and the exit advisor calls made. *)
Definition validate (self : Bot) (user_input current_history : string) (w : World)
  (action : string) : string * list Call :=
  let '(action, calls) :=
    if (action =? "END")%string then
      if negb (ExitAdvisor.should_exit (exit_llm_validate w)) then
        if negb (is_interview_booked self)
        then ("CONTINUE", [should_exit_call user_input current_history])
        else (action, [should_exit_call user_input current_history])
      else (action, [should_exit_call user_input current_history])
    else (action, []) in
  let '(action, calls) :=
    if (action =? "CONTINUE")%string && _is_disengaged user_input current_history then
      if ExitAdvisor.should_exit (exit_llm_disengaged w)
      then ("END", (calls ++ [should_exit_call user_input current_history])%list)
      else (action, (calls ++ [should_exit_call user_input current_history])%list)
    else (action, calls) in
  let action :=
    if (action =? "SCHEDULE")%string && negb (screening_complete self)
    then "CONTINUE" else action in
  (action, calls).

(** [process_turn]: the bot after the turn, the advisor calls made, and the
    [(response, action)] returned or the exception that left the method. *)
Definition process_turn (self : Bot) (user_input history : string)
  (conversation_timestamp : option string) (w : World)
  : Bot * list Call * Outcome (string * string) :=
  let current_history := (history ++ nl ++ "Candidate: " ++ user_input)%string in
  let self := _update_screening_progress self user_input in
  let action := MainAgent.decide_action (main_llm w) in
  let '(action, vcalls) := validate self user_input current_history w action in
  let calls := decide_action_call current_history :: vcalls in
  if (action =? "CONTINUE")%string then
    if InfoAdvisor.needs_info_retrieval user_input then
      (self, (calls ++ [info_response_call user_input current_history])%list,
       response <- InfoAdvisor.generate_response user_input (info_context w) (info_llm w) ;;
       Returns (response, action))
    else
      (self, (calls ++ [screening_response_call user_input current_history])%list,
       Returns (_generate_screening_response (screening_llm w), action))
  else if (action =? "SCHEDULE")%string then
    let start := timestamp_or conversation_timestamp (conversation_start self) in
    let calls := (calls ++ [handle_scheduling_call user_input current_history start])%list in
    match SchedulingAdvisor.handle_scheduling (scheduling w) with
    | Returns (response, booked) =>
        (set_booked self booked, calls,
         Returns (response, if booked then "END" else action))
    | Raises e => (self, calls, Raises e)
    end
  else if (action =? "END")%string then
    (self, (calls ++ [exit_message_call current_history (is_interview_booked self)])%list,
     Returns (ExitAdvisor.get_exit_message (exit_message_llm w) (is_interview_booked self),
              action))
  else
    (self, calls, Returns ("I'm sorry, I encountered an error. Please try again.", action)).

(** One step of a conversation as the callers drive it: a turn, or [reset]. *)
Inductive Step : Type :=
| Turn (user_input history : string) (conversation_timestamp : option string) (w : World)
| Reset (now : string).

Definition step (self : Bot) (s : Step) : Bot :=
  match s with
  | Turn user_input history ts w => fst (fst (process_turn self user_input history ts w))
  | Reset now => reset self now
  end.

Definition run (self : Bot) (steps : list Step) : Bot := fold_left step steps self.

(** The states a bot can be in: those a new bot reaches by turns and resets. *)
Inductive reachable : Bot -> Prop :=
| reachable_init : forall now, reachable (init now)
| reachable_step : forall self s, reachable self -> reachable (step self s).

Definition is_turn (s : Step) : bool :=
  match s with
  | Turn _ _ _ _ => true
  | Reset _ => false
  end.

Definition vocabulary : list string := ["CONTINUE"; "SCHEDULE"; "END"].

End RecruitmentBot.

(** ** The console chat

    [run_console_chat] of [main.py] and of [app/main.py]: the two loops hold
    the same state and treat a line the same way. *)

Module ConsoleChat.

Definition greeting : string :=
  "Hi! I'm Alex from TechFlow Solutions. Thanks for your interest in our Python Developer position. Can you tell me about your experience with Python?".

(** The variables of the loop, and whether it still runs. *)
Record Session : Type := mkSession {
  bot : RecruitmentBot.Bot;
  history : string;
  running : bool
}.

Definition start (now : string) : Session :=
  mkSession (RecruitmentBot.init now) ("Recruiter: " ++ greeting)%string true.

(** One pass of the loop body on a line read by [input]: [now] is the clock
    [reset] reads, [w] what the advisor calls of a turn meet. *)
Definition step (s : Session) (line now : string) (w : RecruitmentBot.World)
  : Session :=
  let user_input := strip line in
  if (user_input =? "")%string then s
  else if in_list (lower user_input) ["quit"; "exit"] then
    mkSession (bot s) (history s) false
  else if (lower user_input =? "reset")%string then
    mkSession (RecruitmentBot.reset (bot s) now) ("Recruiter: " ++ greeting)%string true
  else
    match RecruitmentBot.process_turn (bot s) user_input (history s) None w with
    | (bot', _, Returns (response, _)) =>
        mkSession bot'
          (history s ++ nl ++ "Candidate: " ++ user_input
           ++ nl ++ "Recruiter: " ++ response)%string
          true
    | (bot', _, Raises _) => mkSession bot' (history s) true
    end.

(** The loop over the lines typed, until it breaks or the input ends. *)
Fixpoint run (s : Session) (lines : list (string * string * RecruitmentBot.World))
  : Session :=
  match lines with
  | [] => s
  | (line, now, w) :: rest =>
      if running s then run (step s line now w) rest else s
  end.

(** The exchanges of a history, as the loop appends them. *)
Fixpoint render (exchanges : list (string * string)) : string :=
  match exchanges with
  | [] => EmptyString
  | (user_input, response) :: rest =>
      (nl ++ "Candidate: " ++ user_input ++ nl ++ "Recruiter: " ++ response
       ++ render rest)%string
  end.

End ConsoleChat.

(** ** The Streamlit chat

    The input handler of [streamlit_app/streamlit_main.py]. *)

Module StreamlitApp.

Record Message : Type := mkMessage { role : string; content : string }.

Definition speaker_line (m : Message) : string :=
  ((if (role m =? "assistant")%string then "Recruiter" else "Candidate")
   ++ ": " ++ content m)%string.

(** The history string built from the messages; [format_history] of
    [streamlit_app/utils.py] builds the same. *)
Definition format_history (messages : list Message) : string :=
  String.concat nl (map speaker_line messages).

Record Session : Type := mkSession {
  bot : RecruitmentBot.Bot;
  messages : list Message
}.

Definition greeting : string :=
  "Hello! I'm Alex from TechFlow Solutions. Thanks for your application! I'd love to chat about your experience with Python. How many years have you been working in the field?".

Definition start (now : string) : Session :=
  mkSession (RecruitmentBot.init now) [mkMessage "assistant" greeting].

(** The "Clear Conversation" button. *)
Definition clear (now : string) : Session :=
  mkSession (RecruitmentBot.init now) [].

(** A prompt entered in the chat input: the user message is appended, the
    history is built from all messages, the bot processes the turn, and its
    response is appended unless the turn raised.  Returns the session and the
    advisor calls of the turn. *)
Definition submit (s : Session) (prompt : string) (w : RecruitmentBot.World)
  : Session * list RecruitmentBot.Call :=
  if (prompt =? "")%string then (s, [])
  else
    let messages := (messages s ++ [mkMessage "user" prompt])%list in
    let history := format_history messages in
    match RecruitmentBot.process_turn (bot s) prompt history None w with
    | (bot', calls, Returns (response, _)) =>
        (mkSession bot' (messages ++ [mkMessage "assistant" response])%list, calls)
    | (bot', calls, Raises _) => (mkSession bot' messages, calls)
    end.

End StreamlitApp.

(** What every pass of the console loop keeps: the bot is in a state a bot
    can reach, and the history is the greeting line followed by the exchanges
    appended since the last reset. *)
Definition console_invariant (s : ConsoleChat.Session) : Prop :=
  RecruitmentBot.reachable (ConsoleChat.bot s)
  /\ exists exchanges,
       ConsoleChat.history s
       = ("Recruiter: " ++ ConsoleChat.greeting ++ ConsoleChat.render exchanges)%string.

(** ** Scenarios

    Concrete conversations and stores on which the properties below are
    evaluated. *)

Module Scenario.

Definition greeting : string :=
  "Recruiter: Hi! I'm Alex from TechFlow Solutions. Can you tell me about your experience with Python?".

Definition new_bot : RecruitmentBot.Bot := RecruitmentBot.init "2024-06-10T09:00:00".

Definition slots_offer : string * bool :=
  ("I'd love to schedule an interview with you. Here are some available times:", false).

Definition booking_made : string * bool :=
  ("Excellent! I've confirmed your interview for 2024-06-11 at 10:00. You'll receive a calendar invitation shortly via email.", true).

(** A scheduling advisor whose classifier answers [intent] and whose booking
    confirmation books. *)
Definition scheduling_world (intent : Outcome string) : SchedulingAdvisor.World :=
  SchedulingAdvisor.mkWorld intent
    (Returns slots_offer) (Returns slots_offer) (Returns booking_made) (Returns slots_offer).

Definition screening_reply : string :=
  "Thanks! How many years have you worked with Python?".

Definition closing : string :=
  "Thank you for your time, and best of luck.".

(** A turn's world in which the main agent's call has the outcome [main] and
    the exit advisor's classifier answers [exit]. *)
Definition world (main : Outcome string) (exit : string) : RecruitmentBot.World :=
  RecruitmentBot.mkWorld main (Returns exit) (Returns exit)
    (Returns "TechFlow Solutions builds developer tools.")
    (Returns "We use Python, Django and AWS. Does that match your experience?")
    (Returns screening_reply)
    (scheduling_world (Returns "CONFIRM_BOOKING"))
    (Returns closing).

(** A store with two slots of the same date, time and position, the first
    one taken. *)
Definition doubled_slots : list Slot :=
  [mkSlot 1 "2024-06-11" "10:00" "Python Dev" false;
   mkSlot 2 "2024-06-11" "10:00" "Python Dev" true].

(** The same two slots, both free. *)
Definition doubled_free_slots : list Slot :=
  [mkSlot 1 "2024-06-11" "10:00" "Python Dev" true;
   mkSlot 2 "2024-06-11" "10:00" "Python Dev" true].

(** Free slots in date and time order, around 2024-06-11. *)
Definition june_slots : list Slot :=
  [mkSlot 1 "2024-06-10" "09:00" "Python Dev" true;
   mkSlot 2 "2024-06-10" "10:00" "Python Dev" true;
   mkSlot 3 "2024-06-12" "09:00" "Python Dev" true].

(** Four free slots, the last one nine days after the others. *)
Definition spread_slots : list Slot :=
  [mkSlot 1 "2024-06-10" "09:00" "Python Dev" true;
   mkSlot 2 "2024-06-11" "09:00" "Python Dev" true;
   mkSlot 3 "2024-06-12" "09:00" "Python Dev" true;
   mkSlot 4 "2024-06-20" "09:00" "Python Dev" true].

(** The world of a turn in which the main agent answers CONTINUE and the
    generation call of the screening reply raises. *)
Definition screening_down_world : RecruitmentBot.World :=
  RecruitmentBot.mkWorld (Returns "CONTINUE") (Returns "CONTINUE") (Returns "CONTINUE")
    (Returns "TechFlow Solutions builds developer tools.")
    (Returns "We use Python, Django and AWS. Does that match your experience?")
    (Raises "Request timed out.")
    (scheduling_world (Returns "OTHER"))
    (Returns closing).

(** The world of a turn in which the main agent answers CONTINUE and the
    retrieval of context for the info advisor raises. *)
Definition retrieval_down_world : RecruitmentBot.World :=
  RecruitmentBot.mkWorld (Returns "CONTINUE") (Returns "CONTINUE") (Returns "CONTINUE")
    (Raises "Connection error.")
    (Returns "We use Python, Django and AWS. Does that match your experience?")
    (Returns screening_reply)
    (scheduling_world (Returns "OTHER"))
    (Returns closing).

(** A candidate who passes screening in the first turn and confirms a slot in
    the second. *)
Definition booked_conversation : list RecruitmentBot.Step :=
  [RecruitmentBot.Turn "I have 5 years with Django" greeting None
     (world (Returns "CONTINUE") "CONTINUE");
   RecruitmentBot.Turn "Yes, that works for me" greeting None
     (world (Returns "SCHEDULE") "CONTINUE")].

End Scenario.

(** * Properties *)

Import RecruitmentBot.

(** ** Strings *)

(** Case analysis on a string comparison, with the equation it decides. *)
Ltac case_eqb a b :=
  let E := fresh "E" in
  destruct (String.eqb a b) eqn:E;
  [ apply String.eqb_eq in E | apply String.eqb_neq in E ].

(** ** The validation layer *)

(** The validation layer calls no advisor but the exit advisor. *)
Lemma validate_calls self u h w a c :
  In c (snd (validate self u h w a)) -> c = should_exit_call u h.
Proof.
  unfold validate.
  destruct (a =? "END")%string;
    [ destruct (negb (ExitAdvisor.should_exit (exit_llm_validate w)));
      [ destruct (negb (is_interview_booked self)) | ] | ];
    match goal with
    | |- context [(?x =? "CONTINUE")%string && ?d] =>
        destruct ((x =? "CONTINUE")%string && d);
        [ destruct (ExitAdvisor.should_exit (exit_llm_disengaged w)) | ]
    end;
    cbn; intuition congruence.
Qed.

(** The screening gate: while screening is incomplete the validated action is
    never SCHEDULE. *)
Lemma validate_gate self u h w a :
  screening_complete self = false -> fst (validate self u h w a) <> "SCHEDULE".
Proof.
  intros Hsc. unfold validate. rewrite Hsc.
  destruct (a =? "END")%string;
    [ destruct (negb (ExitAdvisor.should_exit (exit_llm_validate w)));
      [ destruct (negb (is_interview_booked self)) | ] | ];
    match goal with
    | |- context [(?x =? "CONTINUE")%string && ?d] =>
        destruct ((x =? "CONTINUE")%string && d);
        [ destruct (ExitAdvisor.should_exit (exit_llm_disengaged w)) | ]
    end;
    cbn [fst negb andb];
    match goal with
    | |- context [(?x =? "SCHEDULE")%string] => case_eqb x "SCHEDULE"
    end; cbn; congruence.
Qed.

(** A tentative SCHEDULE passes the first two rules untouched, so the gate
    alone decides it. *)
Lemma validate_schedule self u h w :
  validate self u h w "SCHEDULE"
  = (if screening_complete self then "SCHEDULE" else "CONTINUE", []).
Proof.
  unfold validate. cbn. destruct (screening_complete self); reflexivity.
Qed.

(** ** The screening tracker *)

Lemma update_keeps_booked self u :
  is_interview_booked (_update_screening_progress self u) = is_interview_booked self.
Proof. reflexivity. Qed.

Lemma update_counter_grows self u :
  screening_details_collected self
  <= screening_details_collected (_update_screening_progress self u).
Proof.
  unfold _update_screening_progress; cbn [screening_details_collected].
  destruct (any_in exp_keywords (lower u) && has_digit u);
    destruct (any_in tech_keywords (lower u)); lia.
Qed.

Lemma update_keeps_complete self u :
  screening_complete self = true ->
  screening_complete (_update_screening_progress self u) = true.
Proof.
  intros H. unfold _update_screening_progress; cbn [screening_complete]. rewrite H.
  match goal with |- (if ?c then _ else _) = _ => destruct c end; reflexivity.
Qed.

(** ** One turn *)

(** What a turn does to the bot: the screening update, and on the SCHEDULE
    branch, which needs screening complete, the booked flag is overwritten
    with what the scheduling advisor reports. *)
Lemma process_turn_bot self u hist ts w :
  let self1 := _update_screening_progress self u in
  let self' := fst (fst (process_turn self u hist ts w)) in
  self' = self1
  \/ (screening_complete self1 = true /\ exists b, self' = set_booked self1 b).
Proof.
  cbv zeta. unfold process_turn.
  pose proof (validate_gate (_update_screening_progress self u) u
                (hist ++ nl ++ "Candidate: " ++ u)%string w
                (MainAgent.decide_action (main_llm w))) as Hgate.
  destruct (validate _ _ _ _ _) as [action vcalls]. cbn [fst] in Hgate.
  case_eqb action "CONTINUE".
  - destruct (InfoAdvisor.needs_info_retrieval u); left; reflexivity.
  - case_eqb action "SCHEDULE".
    + destruct (SchedulingAdvisor.handle_scheduling (scheduling w)) as [[response booked]|e].
      * right. split.
        -- destruct (screening_complete (_update_screening_progress self u)); [reflexivity|].
           exfalso. now apply Hgate.
        -- exists booked. reflexivity.
      * left. reflexivity.
    + case_eqb action "END"; left; reflexivity.
Qed.

Lemma process_turn_keeps_complete self u hist ts w :
  screening_complete self = true ->
  screening_complete (fst (fst (process_turn self u hist ts w))) = true.
Proof.
  intros H.
  destruct (process_turn_bot self u hist ts w) as [-> | [_ [b ->]]];
    cbn [set_booked screening_complete]; now apply update_keeps_complete.
Qed.

Lemma process_turn_counter_grows self u hist ts w :
  screening_details_collected self
  <= screening_details_collected (fst (fst (process_turn self u hist ts w))).
Proof.
  destruct (process_turn_bot self u hist ts w) as [-> | [_ [b ->]]];
    cbn [set_booked screening_details_collected]; apply update_counter_grows.
Qed.

(** Booked implies screened is kept by every step. *)
Lemma step_keeps_invariant self s :
  (is_interview_booked self = true -> screening_complete self = true) ->
  is_interview_booked (step self s) = true -> screening_complete (step self s) = true.
Proof.
  intros Inv. destruct s as [u hist ts w | now]; cbn [step].
  - destruct (process_turn_bot self u hist ts w) as [-> | [Hsc [b ->]]].
    + rewrite update_keeps_booked. intros Hb. apply update_keeps_complete. auto.
    + intros _. exact Hsc.
  - cbn. discriminate.
Qed.

(** ** The screening gate and the END confirmation *)

(** C1. If the main agent's tentative action is SCHEDULE while the bot's
    [screening_complete] flag, as the gate reads it (after the turn's own
    screening update), is false, [process_turn] resolves the action to
    CONTINUE and answers as the CONTINUE branch does; and in any turn run
    with the flag false the scheduling advisor is not called and the booked
    flag is left as it was. *)
Theorem C1_schedule_blocked_until_screened :
  forall self user_input history ts w,
    screening_complete (_update_screening_progress self user_input) = false ->
    let r := process_turn self user_input history ts w in
    (forall m h t, ~ In (handle_scheduling_call m h t) (snd (fst r)))
    /\ is_interview_booked (fst (fst r)) = is_interview_booked self
    /\ (forall response action, snd r = Returns (response, action) -> action <> "SCHEDULE")
    /\ (MainAgent.decide_action (main_llm w) = "SCHEDULE" ->
        snd r =
          (if InfoAdvisor.needs_info_retrieval user_input then
             response <- InfoAdvisor.generate_response user_input
                           (info_context w) (info_llm w) ;;
             Returns (response, "CONTINUE")
           else Returns (_generate_screening_response (screening_llm w), "CONTINUE"))).
Proof.
  intros self u hist ts w Hsc. cbv zeta.
  repeat split.
  - (* no scheduling call *)
    intros m h t. unfold process_turn.
    pose proof (validate_gate _ u (hist ++ nl ++ "Candidate: " ++ u)%string w
                  (MainAgent.decide_action (main_llm w)) Hsc) as Hgate.
    pose proof (fun c => validate_calls (_update_screening_progress self u) u
                  (hist ++ nl ++ "Candidate: " ++ u)%string w
                  (MainAgent.decide_action (main_llm w)) c) as Hcalls.
    destruct (validate _ _ _ _ _) as [action vcalls]. cbn [fst snd] in Hgate, Hcalls.
    assert (Hv : ~ In (handle_scheduling_call m h t) vcalls).
    { intros Hin. apply Hcalls in Hin. discriminate. }
    case_eqb action "CONTINUE";
      [ destruct (InfoAdvisor.needs_info_retrieval u)
      | case_eqb action "SCHEDULE"; [ contradiction | case_eqb action "END" ] ];
      cbn [fst snd]; rewrite ?in_app_iff; cbn [In];
      intuition (try discriminate; eauto).
  - (* the booked flag *)
    destruct (process_turn_bot self u hist ts w) as [-> | [Hc _]].
    + reflexivity.
    + congruence.
  - (* no SCHEDULE action is returned *)
    intros response action. unfold process_turn.
    pose proof (validate_gate _ u (hist ++ nl ++ "Candidate: " ++ u)%string w
                  (MainAgent.decide_action (main_llm w)) Hsc) as Hgate.
    destruct (validate _ _ _ _ _) as [a vcalls]. cbn [fst] in Hgate.
    case_eqb a "CONTINUE";
      [ destruct (InfoAdvisor.needs_info_retrieval u);
        [ destruct (InfoAdvisor.generate_response _ _ _) | ]
      | case_eqb a "SCHEDULE"; [ contradiction | case_eqb a "END" ] ];
      cbn; intros [= <- <-]; congruence || discriminate.
  - (* a tentative SCHEDULE is answered as CONTINUE *)
    intros Hten. unfold process_turn. rewrite Hten, validate_schedule, Hsc.
    cbn [String.eqb Ascii.eqb Bool.eqb].
    destruct (InfoAdvisor.needs_info_retrieval u); reflexivity.
Qed.

Lemma C1_witness :
  screening_complete (_update_screening_progress Scenario.new_bot "I like coding") = false
  /\ snd (process_turn Scenario.new_bot "I like coding" Scenario.greeting None
            (Scenario.world (Returns "SCHEDULE") "CONTINUE"))
     = Returns (Scenario.screening_reply, "CONTINUE").
Proof.
  split; [reflexivity|].
  destruct (C1_schedule_blocked_until_screened Scenario.new_bot "I like coding"
              Scenario.greeting None (Scenario.world (Returns "SCHEDULE") "CONTINUE")
              eq_refl) as (_ & _ & _ & H).
  exact (H eq_refl).
Defined.

(** The gate reads the flag after the turn's own screening update: a turn
    that starts with screening incomplete and brings the second signal can
    itself go to scheduling. *)
Remark gate_reads_updated_flag :
  screening_complete Scenario.new_bot = false
  /\ screening_details_collected
       (_update_screening_progress Scenario.new_bot "I have 5 years with Django") = 2
  /\ snd (fst (process_turn Scenario.new_bot "I have 5 years with Django"
                 Scenario.greeting None (Scenario.world (Returns "SCHEDULE") "CONTINUE")))
     = [decide_action_call
          (Scenario.greeting ++ nl ++ "Candidate: I have 5 years with Django")%string;
        handle_scheduling_call "I have 5 years with Django"
          (Scenario.greeting ++ nl ++ "Candidate: I have 5 years with Django")%string
          "2024-06-10T09:00:00"].
Proof. repeat split. Qed.

(** The validated action, rule by rule. *)
Lemma validate_action self u h w a :
  fst (validate self u h w a) =
    let a1 :=
      if (a =? "END")%string
         && negb (ExitAdvisor.should_exit (exit_llm_validate w))
         && negb (is_interview_booked self)
      then "CONTINUE" else a in
    let a2 :=
      if (a1 =? "CONTINUE")%string && _is_disengaged u h
         && ExitAdvisor.should_exit (exit_llm_disengaged w)
      then "END" else a1 in
    if (a2 =? "SCHEDULE")%string && negb (screening_complete self)
    then "CONTINUE" else a2.
Proof.
  unfold validate.
  destruct (a =? "END")%string;
    [ destruct (ExitAdvisor.should_exit (exit_llm_validate w));
      [ | destruct (is_interview_booked self) ] | ];
    cbn [negb andb];
    match goal with
    | |- context [(?x =? "CONTINUE")%string && ?d] =>
        destruct ((x =? "CONTINUE")%string && d);
        [ destruct (ExitAdvisor.should_exit (exit_llm_disengaged w)) | ]
    end; reflexivity.
Qed.

(** The action a turn returns is the validated action, unless the turn went
    to scheduling and a booking was made, which makes it END. *)
Lemma process_turn_action self u hist ts w response action :
  snd (process_turn self u hist ts w) = Returns (response, action) ->
  let self1 := _update_screening_progress self u in
  let h := (hist ++ nl ++ "Candidate: " ++ u)%string in
  let v := fst (validate self1 u h w (MainAgent.decide_action (main_llm w))) in
  action = v
  \/ (v = "SCHEDULE" /\ action = "END"
      /\ is_interview_booked (fst (fst (process_turn self u hist ts w))) = true).
Proof.
  cbv zeta. unfold process_turn.
  destruct (validate _ _ _ _ _) as [a vcalls]. cbn [fst].
  case_eqb a "CONTINUE".
  - destruct (InfoAdvisor.needs_info_retrieval u).
    + destruct (InfoAdvisor.generate_response _ _ _); cbn; [intros [= <- <-]; now left | discriminate].
    + cbn. intros [= <- <-]. now left.
  - case_eqb a "SCHEDULE".
    + destruct (SchedulingAdvisor.handle_scheduling (scheduling w)) as [[resp booked]|e];
        cbn; [|discriminate].
      destruct booked; intros [= <- <-]; [right | left]; auto.
    + case_eqb a "END"; cbn; intros [= <- <-]; now left.
Qed.

(** C2, amended. [process_turn] returns END only when the tentative action
    is END and the exit advisor agrees, or the tentative action is END and an
    interview is already booked, or the disengagement heuristic matches and
    the exit advisor agrees (rule 2, which escalates a CONTINUE), or the turn
    went to scheduling and a booking was made in it.  A tentative END that
    the exit advisor rejects while no interview is booked is downgraded to
    CONTINUE, which only rule 2 can turn into END again. *)
Theorem C2_end_needs_confirmation :
  forall self user_input history ts w,
    let self1 := _update_screening_progress self user_input in
    let h := (history ++ nl ++ "Candidate: " ++ user_input)%string in
    let tentative := MainAgent.decide_action (main_llm w) in
    let r := process_turn self user_input history ts w in
    (forall response, snd r = Returns (response, "END") ->
       (tentative = "END" /\ ExitAdvisor.should_exit (exit_llm_validate w) = true)
       \/ (tentative = "END" /\ is_interview_booked self = true)
       \/ ((tentative = "CONTINUE" \/ tentative = "END")
           /\ _is_disengaged user_input h = true
           /\ ExitAdvisor.should_exit (exit_llm_disengaged w) = true)
       \/ (tentative = "SCHEDULE" /\ screening_complete self1 = true
           /\ is_interview_booked (fst (fst r)) = true))
    /\ (tentative = "END" ->
        ExitAdvisor.should_exit (exit_llm_validate w) = false ->
        is_interview_booked self = false ->
        fst (validate self1 user_input h w tentative)
        = if _is_disengaged user_input h
             && ExitAdvisor.should_exit (exit_llm_disengaged w)
          then "END" else "CONTINUE").
Proof.
  intros self u hist ts w. cbv zeta. split.
  - intros response Hr.
    apply process_turn_action in Hr. cbv zeta in Hr.
    rewrite validate_action in Hr. cbv zeta in Hr.
    rewrite update_keeps_booked in Hr.
    remember (MainAgent.decide_action (main_llm w)) as a eqn:Ha. clear Ha.
    remember (_is_disengaged u (hist ++ nl ++ "Candidate: " ++ u)%string) as dis.
    remember (ExitAdvisor.should_exit (exit_llm_validate w)) as ag1.
    remember (ExitAdvisor.should_exit (exit_llm_disengaged w)) as ag2.
    remember (screening_complete (_update_screening_progress self u)) as sc.
    remember (is_interview_booked self) as bk.
    clear Heqdis Heqag1 Heqag2 Heqsc Heqbk.
    case_eqb a "END".
    + (* tentative END *)
      subst a. destruct ag1; [left; auto|].
      destruct bk; [right; left; auto|].
      cbn in Hr.
      destruct dis; [|cbn in Hr; destruct Hr as [Hr | (Hr & _)]; discriminate].
      destruct ag2; [right; right; left; auto|].
      cbn in Hr. destruct Hr as [Hr | (Hr & _)]; discriminate.
    + (* the first rule leaves any other action alone *)
      cbn [andb] in Hr.
      case_eqb a "CONTINUE".
      * subst a. destruct dis, ag2; cbn in Hr;
          try (destruct Hr as [Hr | (Hr & _)]; discriminate).
        right; right; left; auto.
      * cbn [andb] in Hr.
        case_eqb a "SCHEDULE".
        -- subst a. destruct sc; cbn in Hr.
           ++ destruct Hr as [Hr | (_ & _ & Hb)]; [discriminate|].
              right; right; right; auto.
           ++ destruct Hr as [Hr | (Hr & _)]; discriminate.
        -- cbn [andb] in Hr. destruct Hr as [Hr | (Hr & _)]; congruence.
  - intros Hten Hag Hbk. rewrite validate_action. cbv zeta.
    rewrite Hten, Hag, update_keeps_booked, Hbk. cbn.
    destruct (_is_disengaged u _ && ExitAdvisor.should_exit (exit_llm_disengaged w));
      reflexivity.
Qed.

(** The claim as stated fails on rule 2: the main agent answers CONTINUE, the
    candidate says "I'm not interested", the exit advisor agrees to end, and
    the turn returns END although the tentative action was not END and no
    interview is booked before or after the turn. *)
Lemma C2_counterexample :
  let w := Scenario.world (Returns "CONTINUE") "END" in
  let r := process_turn Scenario.new_bot "I'm not interested" Scenario.greeting None w in
  snd r = Returns (Scenario.closing, "END")
  /\ MainAgent.decide_action (main_llm w) = "CONTINUE"
  /\ MainAgent.decide_action (main_llm w) <> "END"
  /\ is_interview_booked Scenario.new_bot = false
  /\ is_interview_booked (fst (fst r)) = false.
Proof.
  cbv zeta. repeat split; try reflexivity. vm_compute. discriminate.
Qed.

Lemma C2_witness :
  let w := Scenario.world (Returns "END") "CONTINUE" in
  fst (validate (_update_screening_progress Scenario.new_bot "Tell me more")
         "Tell me more"
         (Scenario.greeting ++ nl ++ "Candidate: " ++ "Tell me more")%string w
         (MainAgent.decide_action (main_llm w)))
  = "CONTINUE".
Proof.
  cbv zeta.
  exact (proj2 (C2_end_needs_confirmation Scenario.new_bot "Tell me more"
                  Scenario.greeting None (Scenario.world (Returns "END") "CONTINUE"))
           eq_refl eq_refl eq_refl).
Defined.

(** ** Conversations *)

Lemma reachable_run self steps : reachable self -> reachable (run self steps).
Proof.
  revert self. induction steps as [|s steps IH]; intros self H; cbn.
  - exact H.
  - apply IH. now constructor.
Qed.

(** C4. In every state a bot reaches from its initial state by turns and
    resets, a booked interview implies completed screening. *)
Theorem C4_booked_implies_screened :
  forall self,
    reachable self ->
    is_interview_booked self = true -> screening_complete self = true.
Proof.
  intros self H. induction H as [now | self s _ IH].
  - cbn. discriminate.
  - now apply step_keeps_invariant.
Qed.

Lemma C4_witness :
  is_interview_booked (run Scenario.new_bot Scenario.booked_conversation) = true
  /\ screening_complete (run Scenario.new_bot Scenario.booked_conversation) = true.
Proof.
  split; [reflexivity|].
  apply C4_booked_implies_screened.
  - apply reachable_run. apply reachable_init.
  - reflexivity.
Defined.

(** C5. Once [screening_complete] is true, it is true after every further
    turn, whatever the candidate says and whatever the advisors answer, and
    the signal counter never goes down; so it stays true along any sequence
    of turns, and only [reset] makes it false. *)
Theorem C5_screening_complete_monotonic :
  forall self,
    screening_complete self = true ->
    (forall user_input history ts w,
       let self' := fst (fst (process_turn self user_input history ts w)) in
       screening_complete self' = true
       /\ screening_details_collected self <= screening_details_collected self')
    /\ (forall steps, forallb is_turn steps = true ->
                      screening_complete (run self steps) = true)
    /\ (forall now, screening_complete (reset self now) = false).
Proof.
  intros self H. repeat split.
  - now apply process_turn_keeps_complete.
  - apply process_turn_counter_grows.
  - intros steps. revert self H.
    induction steps as [|s steps IH]; intros self H Hturns; cbn.
    + exact H.
    + cbn in Hturns. apply andb_prop in Hturns as [Hs Hturns].
      apply IH; [|exact Hturns].
      destruct s; [|discriminate]. cbn. now apply process_turn_keeps_complete.
Qed.

Lemma C5_witness :
  let self := run Scenario.new_bot Scenario.booked_conversation in
  screening_complete self = true
  /\ screening_complete
       (fst (fst (process_turn self "no" Scenario.greeting None
                    (Scenario.world (Returns "END") "END")))) = true
  /\ screening_complete (reset self "2024-06-11T09:00:00") = false.
Proof.
  cbv zeta.
  pose (C5_screening_complete_monotonic
          (run Scenario.new_bot Scenario.booked_conversation) eq_refl) as H.
  split; [reflexivity|]. split.
  - exact (proj1 (proj1 H "no" Scenario.greeting None
                    (Scenario.world (Returns "END") "END"))).
  - exact (proj2 (proj2 H) "2024-06-11T09:00:00").
Defined.

(** ** Failures of the external capabilities *)

(** The exit advisor answers END or CONTINUE whatever its classifier does, and
    CONTINUE when the call raises. *)
Lemma exit_advisor_recovers llm :
  (ExitAdvisor.evaluate llm = "END" \/ ExitAdvisor.evaluate llm = "CONTINUE")
  /\ (forall e, ExitAdvisor.evaluate (Raises e) = "CONTINUE"
                /\ ExitAdvisor.should_exit (Raises e) = false).
Proof.
  split.
  - destruct llm as [response|e]; cbn; [|now right].
    destruct (contains "END" (upper (strip response))); auto.
  - intros e. split; reflexivity.
Qed.


(** A failed intent classification is the intent OTHER, which
    [handle_scheduling] answers with the general inquiry, as it answers any
    label that is not one of the three it names. *)
Lemma classify_intent_recovers w e :
  SchedulingAdvisor.intent_llm w = Raises e ->
  SchedulingAdvisor._classify_intent (SchedulingAdvisor.intent_llm w) = "OTHER"
  /\ SchedulingAdvisor.handle_scheduling w = SchedulingAdvisor.general_inquiry w.
Proof.
  intros H. unfold SchedulingAdvisor.handle_scheduling. rewrite H. split; reflexivity.
Qed.

(** An action that is none of the three passes the validation layer as it
    is, and no advisor is asked. *)
Lemma validate_other self u h w a :
  a <> "END" -> a <> "CONTINUE" -> a <> "SCHEDULE" ->
  validate self u h w a = (a, []).
Proof.
  intros H1 H2 H3. unfold validate.
  apply String.eqb_neq in H1, H2, H3. rewrite H1. cbn [andb]. rewrite H2. cbn [andb].
  rewrite H3. reflexivity.
Qed.

Lemma error_action_not_in_vocabulary e : ~ In ("ERROR: " ++ e)%string vocabulary.
Proof. cbn. intros [H | [H | [H | []]]]; discriminate. Qed.

(** C9, on the main agent and the screening reply.  When the classifier
    call of [decide_action] raises, the action is not the safe default
    CONTINUE: it is the text ["ERROR: "] followed by the exception's message,
    which [process_turn] answers with its error reply and returns as the
    turn's action, a value outside CONTINUE, SCHEDULE and END.  When the
    generation call of the screening reply raises, the reply given to the
    candidate is the text ["Error generating response: "] followed by the
    exception's message. *)
Theorem C9_main_agent_exception_surfaces :
  forall self user_input history ts w e,
    MainAgent.decide_action (Raises e) = ("ERROR: " ++ e)%string
    /\ process_turn self user_input history ts (with_main_llm w (Raises e))
       = (_update_screening_progress self user_input,
          [decide_action_call (history ++ nl ++ "Candidate: " ++ user_input)%string],
          Returns ("I'm sorry, I encountered an error. Please try again.",
                   ("ERROR: " ++ e)%string))
    /\ ~ In ("ERROR: " ++ e)%string vocabulary
    /\ _generate_screening_response (Raises e) = ("Error generating response: " ++ e)%string
    /\ snd (process_turn Scenario.new_bot "I like coding" Scenario.greeting None
              Scenario.screening_down_world)
       = Returns ("Error generating response: Request timed out.", "CONTINUE").
Proof.
  intros self u hist ts w e. split; [reflexivity|]. split; [|split; [|split]].
  - unfold process_turn. cbn [with_main_llm main_llm MainAgent.decide_action].
    rewrite validate_other by (cbn; discriminate).
    reflexivity.
  - apply error_action_not_in_vocabulary.
  - reflexivity.
  - reflexivity.
Qed.

(** ** Characters and searches *)

Lemma is_digit_lower_char c : is_digit (lower_char c) = is_digit c.
Proof. destruct c as [[] [] [] [] [] [] [] []]; reflexivity. Qed.

Lemma is_upper_lower_char c : is_upper (lower_char c) = false.
Proof. destruct c as [[] [] [] [] [] [] [] []]; reflexivity. Qed.

Lemma has_digit_lower s : has_digit (lower s) = has_digit s.
Proof.
  induction s as [|c s IH]; cbn; [reflexivity|].
  now rewrite is_digit_lower_char, <- IH.
Qed.

Lemma has_digit_app s t : has_digit (s ++ t) = has_digit s || has_digit t.
Proof.
  induction s as [|c s IH]; cbn; [reflexivity|].
  now rewrite IH, orb_assoc.
Qed.

(** A match starts exactly at a digit. *)
Lemma match_time_at_nondigit c r :
  is_digit c = false -> SchedulingAdvisor.match_time_at (String c r) = None.
Proof. intros H. unfold SchedulingAdvisor.match_time_at. now rewrite H. Qed.

Lemma match_time_at_digit c r :
  is_digit c = true -> exists m, SchedulingAdvisor.match_time_at (String c r) = Some m.
Proof.
  intros H. unfold SchedulingAdvisor.match_time_at. rewrite H.
  repeat match goal with
         | |- context [let '(_, _) := ?x in _] => destruct x
         end.
  eexists; reflexivity.
Qed.

(** The search skips the text before the first digit. *)
Lemma search_time_skips pre s :
  has_digit pre = false ->
  SchedulingAdvisor.search_time (pre ++ s) = SchedulingAdvisor.search_time s.
Proof.
  induction pre as [|c pre IH]; cbn [append has_digit]; intros H; [reflexivity|].
  apply orb_false_elim in H as [Hc Hpre].
  cbn [SchedulingAdvisor.search_time].
  rewrite (match_time_at_nondigit c (pre ++ s) Hc). now apply IH.
Qed.

Lemma search_time_at_digit c r :
  is_digit c = true ->
  SchedulingAdvisor.search_time (String c r)
  = SchedulingAdvisor.match_time_at (String c r).
Proof.
  intros H. destruct (match_time_at_digit c r H) as [m Hm].
  cbn [SchedulingAdvisor.search_time]. now rewrite Hm.
Qed.

(** No match exactly when the text has no digit. *)
Lemma search_time_none_iff s :
  SchedulingAdvisor.search_time s = None <-> has_digit s = false.
Proof.
  induction s as [|c s IH].
  - cbn. tauto.
  - cbn [has_digit]. destruct (is_digit c) eqn:Hc.
    + rewrite (search_time_at_digit c s Hc).
      destruct (match_time_at_digit c s Hc) as [m ->]. cbn. split; discriminate.
    + cbn [SchedulingAdvisor.search_time].
      rewrite (match_time_at_nondigit c s Hc). cbn. exact IH.
Qed.

(** A text with a digit splits at its first digit. *)
Lemma first_digit_split s :
  has_digit s = true ->
  exists pre d rest,
    s = (pre ++ String d rest)%string /\ has_digit pre = false /\ is_digit d = true.
Proof.
  induction s as [|c s IH]; cbn; [discriminate|].
  destruct (is_digit c) eqn:Hc.
  - intros _. exists EmptyString, c, s. auto.
  - cbn. intros H. destruct (IH H) as (pre & d & rest & -> & Hpre & Hd).
    exists (String c pre), d, rest. cbn. rewrite Hc. auto.
Qed.

Lemma all_chars_app f s t : all_chars f (s ++ t) = all_chars f s && all_chars f t.
Proof.
  induction s as [|c s IH]; cbn; [reflexivity|].
  now rewrite IH, andb_assoc.
Qed.

Lemma all_chars_lower s : all_chars (fun c => negb (is_upper c)) (lower s) = true.
Proof.
  induction s as [|c s IH]; cbn; [reflexivity|].
  now rewrite is_upper_lower_char, IH.
Qed.

(** [lstrip] removes a run of white space, and all of it. *)
Lemma lstrip_split s :
  exists ws,
    s = (ws ++ lstrip s)%string
    /\ all_chars is_space ws = true
    /\ head_is is_space (lstrip s) = false.
Proof.
  induction s as [|c s (ws & Hs & Hws & Hhd)].
  - exists EmptyString. auto.
  - cbn [lstrip]. destruct (is_space c) eqn:Hc.
    + exists (String c ws). cbn. rewrite Hc, Hws, <- Hs. auto.
    + exists EmptyString. cbn. auto.
Qed.

Lemma prefix_split p s : prefix p s = true -> exists rest, s = (p ++ rest)%string.
Proof.
  revert s. induction p as [|a p IH]; intros s H.
  - exists s. reflexivity.
  - destruct s as [|b s]; [discriminate|]. cbn in H.
    destruct (ascii_dec a b) as [->|]; [|discriminate].
    destruct (IH s H) as [rest ->]. exists rest. reflexivity.
Qed.

(** What [minute_follows] finds. *)
Lemma minute_follows_some s mm r :
  SchedulingAdvisor.minute_follows s = Some (mm, r) ->
  exists m1 m2,
    is_digit m1 = true /\ is_digit m2 = true
    /\ mm = String m1 (String m2 EmptyString)
    /\ s = (":" ++ mm ++ r)%string.
Proof.
  unfold SchedulingAdvisor.minute_follows.
  destruct s as [|x [|m1 [|m2 r']]]; try discriminate.
  destruct (Ascii.eqb x ":") eqn:Hx; [|discriminate].
  destruct (is_digit m1) eqn:H1; [|discriminate].
  destruct (is_digit m2) eqn:H2; [|discriminate].
  cbn. intros [= <- <-]. apply Ascii.eqb_eq in Hx. subst x.
  exists m1, m2. auto.
Qed.

(** What [marker_follows] finds. *)
Lemma marker_follows_cases s :
  (SchedulingAdvisor.marker_follows s = None
   /\ prefix "am" s = false /\ prefix "pm" s = false)
  \/ (exists marker rest,
        SchedulingAdvisor.marker_follows s = Some marker
        /\ s = (marker ++ rest)%string
        /\ In marker ["am"; "pm"; "AM"; "PM"]).
Proof.
  unfold SchedulingAdvisor.marker_follows.
  destruct (prefix "am" s) eqn:H1.
  { right. destruct (prefix_split _ _ H1) as [rest ->]. exists "am", rest. cbn; tauto. }
  destruct (prefix "pm" s) eqn:H2.
  { right. destruct (prefix_split _ _ H2) as [rest ->]. exists "pm", rest. cbn; tauto. }
  destruct (prefix "AM" s) eqn:H3.
  { right. destruct (prefix_split _ _ H3) as [rest ->]. exists "AM", rest. cbn; tauto. }
  destruct (prefix "PM" s) eqn:H4.
  { right. destruct (prefix_split _ _ H4) as [rest ->]. exists "PM", rest. cbn; tauto. }
  left. auto.
Qed.

(** The match at a digit, read off the text: the digit and a second one when
    it follows, [":dd"] when it follows, all the white space that follows,
    and a period marker when one follows. *)
Lemma match_time_at_shape c r m :
  is_digit c = true ->
  SchedulingAdvisor.match_time_at (String c r) = Some m ->
  exists d2s mins ws marker rest,
    r = (d2s ++ mins ++ ws ++ marker ++ rest)%string
    /\ SchedulingAdvisor.group1 m = String c d2s
    /\ ((d2s = EmptyString /\ head_is is_digit r = false)
        \/ (exists d2, is_digit d2 = true /\ d2s = String d2 EmptyString))
    /\ ((mins = EmptyString /\ SchedulingAdvisor.group2 m = None
         /\ SchedulingAdvisor.minute_follows (ws ++ marker ++ rest) = None)
        \/ (exists m1 m2,
              is_digit m1 = true /\ is_digit m2 = true
              /\ mins = String ":" (String m1 (String m2 EmptyString))
              /\ SchedulingAdvisor.group2 m = Some (String m1 (String m2 EmptyString))))
    /\ all_chars is_space ws = true
    /\ head_is is_space (marker ++ rest) = false
    /\ ((marker = EmptyString /\ SchedulingAdvisor.group3 m = None
         /\ prefix "am" rest = false /\ prefix "pm" rest = false)
        \/ (SchedulingAdvisor.group3 m = Some marker
            /\ In marker ["am"; "pm"; "AM"; "PM"])).
Proof.
  intros Hc. unfold SchedulingAdvisor.match_time_at. rewrite Hc.
  assert (Hhour : exists d2s r2,
             match r with
             | EmptyString => (String c EmptyString, r)
             | String d2 r' =>
                 if is_digit d2 then (String c (String d2 EmptyString), r')
                 else (String c EmptyString, r)
             end = (String c d2s, r2)
             /\ r = (d2s ++ r2)%string
             /\ ((d2s = EmptyString /\ head_is is_digit r = false)
                 \/ (exists d2, is_digit d2 = true /\ d2s = String d2 EmptyString))).
  { destruct r as [|d2 r'].
    - exists EmptyString, EmptyString. auto.
    - destruct (is_digit d2) eqn:Hd2.
      + exists (String d2 EmptyString), r'. repeat split; eauto.
      + exists EmptyString, (String d2 r'). cbn. rewrite Hd2. auto. }
  destruct Hhour as (d2s & r2 & -> & Hr & Hd2s).
  destruct (SchedulingAdvisor.minute_follows r2) as [[mm r3]|] eqn:Hmin.
  - (* minutes follow *)
    apply minute_follows_some in Hmin as (m1 & m2 & H1 & H2 & -> & Hr2).
    destruct (lstrip_split r3) as (ws & Hws & Hall & Hhd).
    intros [= <-]. cbn [SchedulingAdvisor.group1 SchedulingAdvisor.group2
                        SchedulingAdvisor.group3].
    destruct (marker_follows_cases (lstrip r3))
      as [(Hnone & Ham & Hpm) | (marker & rest & Hsome & Hsplit & Hin)].
    + exists d2s, (String ":" (String m1 (String m2 EmptyString))), ws,
             EmptyString, (lstrip r3).
      repeat split; auto.
      * rewrite Hr, Hr2. cbn. now rewrite <- Hws.
      * right. exists m1, m2. auto.
    + exists d2s, (String ":" (String m1 (String m2 EmptyString))), ws, marker, rest.
      repeat split; auto.
      * rewrite Hr, Hr2. cbn. now rewrite <- Hsplit, <- Hws.
      * right. exists m1, m2. auto.
      * now rewrite <- Hsplit.
  - (* no minutes *)
    destruct (lstrip_split r2) as (ws & Hws & Hall & Hhd).
    intros [= <-]. cbn [SchedulingAdvisor.group1 SchedulingAdvisor.group2
                        SchedulingAdvisor.group3].
    destruct (marker_follows_cases (lstrip r2))
      as [(Hnone & Ham & Hpm) | (marker & rest & Hsome & Hsplit & Hin)].
    + exists d2s, EmptyString, ws, EmptyString, (lstrip r2).
      repeat split; auto.
      * rewrite Hr. cbn. now rewrite <- Hws.
      * left. cbn. rewrite <- Hws. auto.
    + exists d2s, EmptyString, ws, marker, rest.
      repeat split; auto.
      * rewrite Hr. cbn. now rewrite <- Hsplit, <- Hws.
      * left. rewrite <- Hsplit, <- Hws. auto.
      * now rewrite <- Hsplit.
Qed.

(** ** Dates *)

Lemma weekday_bounds d : 0 <= Calendar.weekday d <= 6.
Proof.
  unfold Calendar.weekday.
  pose proof (Z.mod_pos_bound (Calendar.toordinal d + 6) 7 ltac:(lia)). lia.
Qed.

Lemma add_days_in_range ref k :
  Calendar.has_two_weeks ref -> 0 <= k <= 14 ->
  Calendar.add_days ref k
  = Returns (Calendar.fromordinal (Calendar.toordinal ref + k)).
Proof.
  intros [Hlo Hhi] Hk. unfold Calendar.add_days.
  replace (0 <? Calendar.toordinal ref + k) with true by (symmetry; apply Z.ltb_lt; lia).
  replace (Calendar.toordinal ref + k <=? Calendar._MAXORDINAL) with true
    by (symmetry; apply Z.leb_le; lia).
  reflexivity.
Qed.

Lemma day_names_weekdays name wd :
  In (name, wd) SchedulingAdvisor.day_names -> 0 <= wd <= 6.
Proof.
  cbn. intros H.
  repeat (destruct H as [H | H]; [injection H as _ <-; lia|]). contradiction.
Qed.

(** The source's [if days_ahead <= 0: days_ahead += 7] is the difference of
    the weekdays modulo 7, with 0 replaced by 7. *)
Lemma days_ahead_mod wd wref :
  0 <= wd <= 6 -> 0 <= wref <= 6 ->
  (if wd - wref <=? 0 then wd - wref + 7 else wd - wref)
  = (if (wd - wref) mod 7 =? 0 then 7 else (wd - wref) mod 7).
Proof.
  intros Hwd Href.
  destruct (Z.leb_spec (wd - wref) 0) as [Hle | Hgt].
  - destruct (Z.eq_dec (wd - wref) 0) as [-> | Hne]; [reflexivity|].
    replace ((wd - wref) mod 7) with (wd - wref + 7).
    + destruct (Z.eqb_spec (wd - wref + 7) 0); [lia | reflexivity].
    + apply Z.mod_unique with (q := -1); lia.
  - rewrite Z.mod_small by lia.
    destruct (Z.eqb_spec (wd - wref) 0); [lia | reflexivity].
Qed.

(** The number of days the loop adds for a weekday, as the claim words it. *)
Lemma scan_day_names_first names next text ref pre name wd post :
  names = (pre ++ (name, wd) :: post)%list ->
  (forall p, In p pre -> contains (fst p) text = false) ->
  contains name text = true ->
  SchedulingAdvisor.scan_day_names names next text ref =
    (let days_ahead := wd - Calendar.weekday ref in
     let days_ahead := if days_ahead <=? 0 then days_ahead + 7 else days_ahead in
     let days_ahead := if next then days_ahead + 7 else days_ahead in
     target_date <- Calendar.add_days ref days_ahead ;;
     Returns (Some target_date)).
Proof.
  intros -> Hpre Hname. induction pre as [|[n w] pre IH]; cbn.
  - now rewrite Hname.
  - pose proof (Hpre (n, w) (or_introl eq_refl)) as Hn. cbn [fst] in Hn.
    rewrite Hn. apply IH. intros p Hp. apply Hpre. now right.
Qed.

Lemma scan_day_names_none names next text ref :
  (forall p, In p names -> contains (fst p) text = false) ->
  SchedulingAdvisor.scan_day_names names next text ref = Returns None.
Proof.
  induction names as [|[n w] names IH]; intros H; cbn; [reflexivity|].
  pose proof (H (n, w) (or_introl eq_refl)) as Hn. cbn [fst] in Hn.
  rewrite Hn. apply IH. intros p Hp. apply H. now right.
Qed.

(** Either no day name of the table is in the text, or one is the first. *)
Lemma first_day_name_split (names : list (string * Z)) text :
  (forall p, In p names -> contains (fst p) text = false)
  \/ (exists pre name wd post,
        names = (pre ++ (name, wd) :: post)%list
        /\ (forall p, In p pre -> contains (fst p) text = false)
        /\ contains name text = true).
Proof.
  induction names as [|[n w] names IH].
  - left. intros p [].
  - destruct (contains n text) eqn:Hn.
    + right. exists [], n, w, names. repeat split; auto. intros p [].
    + destruct IH as [Hnone | (pre & name & wd & post & -> & Hpre & Hname)].
      * left. intros p [<- | Hp]; auto.
      * right. exists ((n, w) :: pre), name, wd, post. repeat split; auto.
        intros p [<- | Hp]; auto.
Qed.

(** The first day name of the table found in a text is unique. *)
Lemma first_day_name_unique (names : list (string * Z)) text pre name wd post
      pre' name' wd' post' :
  names = (pre ++ (name, wd) :: post)%list ->
  (forall p, In p pre -> contains (fst p) text = false) ->
  contains name text = true ->
  names = (pre' ++ (name', wd') :: post')%list ->
  (forall p, In p pre' -> contains (fst p) text = false) ->
  contains name' text = true ->
  name = name' /\ wd = wd'.
Proof.
  intros -> Hpre Hname. revert pre' . induction pre as [|[n w] pre IH]; intros pre' Heq Hpre' Hname'.
  - destruct pre' as [|[n' w'] pre'].
    + injection Heq as -> ->. auto.
    + injection Heq as <- <- _. specialize (Hpre' (name, wd) (or_introl eq_refl)).
      cbn in Hpre'. congruence.
  - destruct pre' as [|[n' w'] pre'].
    + injection Heq as -> -> _. specialize (Hpre (name', wd') (or_introl eq_refl)).
      cbn in Hpre. congruence.
    + injection Heq as _ _ Heq. apply (IH (fun p Hp => Hpre p (or_intror Hp)) pre' Heq).
      * intros p Hp. apply Hpre'. now right.
      * exact Hname'.
Qed.

(** The target date of a weekday: between one and seven days ahead, seven
    more with ["next"], always a date of the calendar. *)
Lemma scan_day_names_found next text ref pre name wd post :
  Calendar.has_two_weeks ref ->
  SchedulingAdvisor.day_names = (pre ++ (name, wd) :: post)%list ->
  (forall p, In p pre -> contains (fst p) text = false) ->
  contains name text = true ->
  let ahead := (wd - Calendar.weekday ref) mod 7 in
  let ahead := if ahead =? 0 then 7 else ahead in
  1 <= ahead <= 7
  /\ SchedulingAdvisor.scan_day_names SchedulingAdvisor.day_names next text ref
     = Returns (Some (Calendar.fromordinal
                        (Calendar.toordinal ref + (if next then ahead + 7 else ahead)))).
Proof.
  intros Href Hnames Hpre Hname. cbv zeta.
  assert (Hwd : 0 <= wd <= 6).
  { apply (day_names_weekdays name). rewrite Hnames. apply in_elt. }
  pose proof (weekday_bounds ref) as Hwref.
  rewrite (scan_day_names_first _ next text ref pre name wd post Hnames Hpre Hname).
  cbv zeta. rewrite (days_ahead_mod wd (Calendar.weekday ref) Hwd Hwref).
  assert (Hahead : 1 <= (if (wd - Calendar.weekday ref) mod 7 =? 0 then 7
                         else (wd - Calendar.weekday ref) mod 7) <= 7).
  { pose proof (Z.mod_pos_bound (wd - Calendar.weekday ref) 7 ltac:(lia)).
    destruct (Z.eqb_spec ((wd - Calendar.weekday ref) mod 7) 0); lia. }
  split; [exact Hahead|].
  rewrite add_days_in_range by (destruct next; lia || assumption).
  reflexivity.
Qed.

(** C6. The date of [_parse_datetime], for a reference date with two weeks
    left in the calendar: with "tomorrow" in the text it is the reference
    date plus one day, whatever weekday names the text holds; otherwise, for
    the first weekday name of the table found in the text, it is the
    reference date plus [(weekday - reference weekday) mod 7] days, 7 when
    that is 0, and 7 more when the text holds "next"; with neither, there is
    no date.  "tomorrow" from 2024-06-10 is 2024-06-11, and "next Tuesday"
    from Monday 2024-06-10 is 2024-06-18. *)
Theorem C6_date_resolution :
  forall text ref,
    Calendar.has_two_weeks ref ->
    let t := lower text in
    let plus k :=
      Calendar.strftime_ymd (Calendar.fromordinal (Calendar.toordinal ref + k)) in
    (exists date time,
       SchedulingAdvisor._parse_datetime text ref = Returns (date, time)
       /\ (contains "tomorrow" t = true -> date = Some (plus 1))
       /\ (contains "tomorrow" t = false ->
           forall pre name wd post,
             SchedulingAdvisor.day_names = (pre ++ (name, wd) :: post)%list ->
             (forall p, In p pre -> contains (fst p) t = false) ->
             contains name t = true ->
             let ahead := (wd - Calendar.weekday ref) mod 7 in
             let ahead := if ahead =? 0 then 7 else ahead in
             1 <= ahead <= 7
             /\ date = Some (plus (if contains "next" t then ahead + 7 else ahead)))
       /\ (contains "tomorrow" t = false ->
           (forall p, In p SchedulingAdvisor.day_names -> contains (fst p) t = false) ->
           date = None))
    /\ SchedulingAdvisor._parse_datetime "tomorrow" (Calendar.mkdate 2024 6 10)
       = Returns (Some "2024-06-11", None)
    /\ Calendar.weekday (Calendar.mkdate 2024 6 10) = 0
    /\ SchedulingAdvisor._parse_datetime "next Tuesday" (Calendar.mkdate 2024 6 10)
       = Returns (Some "2024-06-18", None).
Proof.
  intros text ref Href. cbv zeta.
  split; [|repeat split; reflexivity].
  unfold SchedulingAdvisor._parse_datetime. cbv zeta.
  destruct (contains "tomorrow" (lower text)) eqn:Htom.
  - rewrite add_days_in_range by (assumption || lia). cbn [bind option_map].
    eexists _, _. split; [reflexivity|].
    split; [reflexivity|]. split; discriminate.
  - destruct (first_day_name_split SchedulingAdvisor.day_names (lower text))
      as [Hnone | (pre & name & wd & post & Hnames & Hpre & Hname)].
    + (* no weekday name *)
      assert (Hscan : forall next,
                 SchedulingAdvisor.scan_day_names SchedulingAdvisor.day_names next
                   (lower text) ref = Returns None)
        by (intros next; now apply scan_day_names_none).
      rewrite !Hscan. destruct (contains "next" (lower text)); cbn [bind option_map];
        (eexists _, _; split; [reflexivity|]; split; [discriminate|]; split;
         [ intros _ pre name wd post Hnames Hpre Hname;
           exfalso;
           assert (Hin : In (name, wd) SchedulingAdvisor.day_names)
             by (rewrite Hnames; apply in_elt);
           apply Hnone in Hin; cbn [fst] in Hin; congruence
         | reflexivity ]).
    + (* a first weekday name *)
      pose proof (fun next => scan_day_names_found next (lower text) ref pre name wd post
                                Href Hnames Hpre Hname) as Hfound.
      cbv zeta in Hfound.
      destruct (contains "next" (lower text)) eqn:Hnext;
        [ destruct (Hfound true) as [Hahead ->] | destruct (Hfound false) as [Hahead ->] ];
        cbn [bind option_map];
        (eexists _, _; split; [reflexivity|]; split; [discriminate|]; split;
         [ intros _ pre' name' wd' post' Hnames' Hpre' Hname';
           destruct (first_day_name_unique _ (lower text) pre name wd post
                       pre' name' wd' post' Hnames Hpre Hname Hnames' Hpre' Hname')
             as [_ <-];
           split; [exact Hahead | reflexivity]
         | intros _ Hnone; exfalso;
           assert (Hin : In (name, wd) SchedulingAdvisor.day_names)
             by (rewrite Hnames; apply in_elt);
           apply Hnone in Hin; cbn [fst] in Hin; congruence ]).
Qed.

Lemma C6_witness :
  exists time,
    SchedulingAdvisor._parse_datetime "How about next Friday at 10am?"
      (Calendar.mkdate 2024 6 12)
    = Returns (Some "2024-06-21", time).
Proof.
  assert (Href : Calendar.has_two_weeks (Calendar.mkdate 2024 6 12))
    by (split; vm_compute; [reflexivity | discriminate]).
  destruct (C6_date_resolution "How about next Friday at 10am?"
              (Calendar.mkdate 2024 6 12) Href)
    as [(date & time & Hparse & _ & Hday & _) _].
  destruct (Hday eq_refl
              [("sunday", 6); ("monday", 0); ("tuesday", 1); ("wednesday", 2);
               ("thursday", 3)]
              "friday" 4 [("saturday", 5)] eq_refl) as [_ Hdate].
  - intros p Hp. cbn in Hp.
    repeat (destruct Hp as [<- | Hp]; [reflexivity|]). contradiction.
  - reflexivity.
  - exists time. rewrite Hparse, Hdate. reflexivity.
Defined.

(** ** Times *)

(** With two weeks left in the calendar the parser returns, and its time is
    read off the first match of the pattern in the lowered text. *)
Lemma parse_datetime_returns text ref :
  Calendar.has_two_weeks ref ->
  exists date,
    SchedulingAdvisor._parse_datetime text ref
    = Returns (date, option_map SchedulingAdvisor.format_time
                       (SchedulingAdvisor.search_time (lower text))).
Proof.
  intros Href. unfold SchedulingAdvisor._parse_datetime. cbv zeta.
  destruct (contains "tomorrow" (lower text)).
  - rewrite add_days_in_range by (assumption || lia). eexists. reflexivity.
  - destruct (first_day_name_split SchedulingAdvisor.day_names (lower text))
      as [Hnone | (pre & name & wd & post & Hnames & Hpre & Hname)].
    + rewrite !(scan_day_names_none _ _ _ _ Hnone).
      destruct (contains "next" (lower text)); eexists; reflexivity.
    + pose proof (fun next => scan_day_names_found next (lower text) ref pre name wd post
                                Href Hnames Hpre Hname) as Hfound.
      cbv zeta in Hfound.
      destruct (contains "next" (lower text));
        [ destruct (Hfound true) as [_ ->] | destruct (Hfound false) as [_ ->] ];
        eexists; reflexivity.
Qed.

Lemma digit_value c : is_digit c = true -> 0 <= code c - 48 <= 9.
Proof.
  unfold is_digit. intros H. apply andb_prop in H as [H1 H2].
  apply Z.leb_le in H1, H2. lia.
Qed.

(** One or two digits read as a number between 0 and 99. *)
Lemma hour_digits_bounds c d2s :
  is_digit c = true ->
  d2s = EmptyString \/ (exists d2, is_digit d2 = true /\ d2s = String d2 EmptyString) ->
  0 <= int_of_digits (String c d2s) <= 99.
Proof.
  intros Hc [-> | (d2 & Hd2 & ->)]; unfold int_of_digits; cbn [int_of_digits_acc];
    pose proof (digit_value c Hc); [|pose proof (digit_value d2 Hd2)]; lia.
Qed.

(** The first match of the pattern in a lowered text, read off the text. *)
Lemma search_time_lowered text pre c r :
  lower text = (pre ++ String c r)%string ->
  has_digit pre = false ->
  is_digit c = true ->
  exists m d2s mins ws marker rest,
    SchedulingAdvisor.search_time (lower text) = Some m
    /\ r = (d2s ++ mins ++ ws ++ marker ++ rest)%string
    /\ SchedulingAdvisor.group1 m = String c d2s
    /\ ((d2s = EmptyString /\ head_is is_digit r = false)
        \/ (exists d2, is_digit d2 = true /\ d2s = String d2 EmptyString))
    /\ ((mins = EmptyString /\ SchedulingAdvisor.group2 m = None
         /\ SchedulingAdvisor.minute_follows (ws ++ marker ++ rest) = None)
        \/ (exists m1 m2,
              is_digit m1 = true /\ is_digit m2 = true
              /\ mins = String ":" (String m1 (String m2 EmptyString))
              /\ SchedulingAdvisor.group2 m = Some (String m1 (String m2 EmptyString))))
    /\ all_chars is_space ws = true
    /\ head_is is_space (marker ++ rest) = false
    /\ ((marker = EmptyString /\ SchedulingAdvisor.group3 m = None
         /\ prefix "am" rest = false /\ prefix "pm" rest = false)
        \/ (SchedulingAdvisor.group3 m = Some marker /\ (marker = "am" \/ marker = "pm"))).
Proof.
  intros Hsplit Hpre Hc.
  destruct (match_time_at_digit c r Hc) as [m Hm].
  destruct (match_time_at_shape c r m Hc Hm)
    as (d2s & mins & ws & marker & rest & Hr & Hg1 & Hd2s & Hmins & Hws & Hhd & Hmarker).
  exists m, d2s, mins, ws, marker, rest.
  split.
  { rewrite Hsplit, (search_time_skips pre _ Hpre), (search_time_at_digit c r Hc).
    exact Hm. }
  repeat (split; [assumption|]).
  destruct Hmarker as [Hnone | [Hsome Hin]]; [left; exact Hnone|].
  right. split; [exact Hsome|].
  (* a lowered text holds no upper-case marker *)
  pose proof (all_chars_lower text) as Hlow.
  rewrite Hsplit, Hr in Hlow.
  rewrite all_chars_app in Hlow. apply andb_prop in Hlow as [_ Hlow].
  cbn [all_chars] in Hlow. apply andb_prop in Hlow as [_ Hlow].
  rewrite !all_chars_app in Hlow.
  repeat (apply andb_prop in Hlow as [? Hlow]).
  cbn in Hin. destruct Hin as [<- | [<- | [<- | [<- | []]]]]; auto; discriminate.
Qed.

(** C7, amended.  The time of [_parse_datetime], for a reference date with
    two weeks left in the calendar.  At the first digit of the lowered text
    the pattern takes an hour of one or two digits, then [":dd"] when it
    follows, then the white space, then "am" or "pm" when it follows.  The
    minute is "00" when no [":dd"] follows.  "pm" adds 12 to an hour below 12
    and leaves an hour of 12 or more as it is; "am" turns hour 12 into 0.
    The hour is written with two digits.  "10am" gives "10:00", "2:30pm"
    gives "14:30", "12am" gives "00:00". *)
Theorem C7_time_resolution :
  forall text ref,
    Calendar.has_two_weeks ref ->
    (exists date time,
       SchedulingAdvisor._parse_datetime text ref = Returns (date, time)
       /\ (has_digit text = false -> time = None)
       /\ (forall pre c r,
             lower text = (pre ++ String c r)%string ->
             has_digit pre = false ->
             is_digit c = true ->
             exists d2s mins ws marker rest,
               r = (d2s ++ mins ++ ws ++ marker ++ rest)%string
               /\ ((d2s = EmptyString /\ head_is is_digit r = false)
                   \/ (exists d2, is_digit d2 = true /\ d2s = String d2 EmptyString))
               /\ ((mins = EmptyString
                    /\ SchedulingAdvisor.minute_follows (ws ++ marker ++ rest) = None)
                   \/ (exists m1 m2,
                         is_digit m1 = true /\ is_digit m2 = true
                         /\ mins = String ":" (String m1 (String m2 EmptyString))))
               /\ all_chars is_space ws = true
               /\ head_is is_space (marker ++ rest) = false
               /\ ((marker = EmptyString
                    /\ prefix "am" rest = false /\ prefix "pm" rest = false)
                   \/ marker = "am" \/ marker = "pm")
               /\ (let hour := int_of_digits (String c d2s) in
                   let minute :=
                     match mins with
                     | EmptyString => "00"
                     | String _ mm => mm
                     end in
                   let hour24 :=
                     if (marker =? "pm")%string && (hour <? 12) then hour + 12
                     else if (marker =? "am")%string && (hour =? 12) then 0
                     else hour in
                   0 <= hour <= 99
                   /\ time = Some (zero_pad 2 hour24 ++ ":" ++ minute)%string)))
    /\ (exists date, SchedulingAdvisor._parse_datetime "10am" ref
                     = Returns (date, Some "10:00"))
    /\ (exists date, SchedulingAdvisor._parse_datetime "2:30pm" ref
                     = Returns (date, Some "14:30"))
    /\ (exists date, SchedulingAdvisor._parse_datetime "12am" ref
                     = Returns (date, Some "00:00")).
Proof.
  intros text ref Href.
  split;
    [|split; [exact (parse_datetime_returns "10am" ref Href)|];
      split; [exact (parse_datetime_returns "2:30pm" ref Href)
             |exact (parse_datetime_returns "12am" ref Href)]].
  destruct (parse_datetime_returns text ref Href) as [date Hparse].
  exists date, (option_map SchedulingAdvisor.format_time
                  (SchedulingAdvisor.search_time (lower text))).
  split; [exact Hparse|]. split.
  - intros Hnone. rewrite <- has_digit_lower in Hnone.
    apply search_time_none_iff in Hnone. now rewrite Hnone.
  - intros pre c r Hsplit Hpre Hc.
    destruct (search_time_lowered text pre c r Hsplit Hpre Hc)
      as (m & d2s & mins & ws & marker & rest & Hm & Hr & Hg1 & Hd2s & Hmins & Hws
          & Hhd & Hmarker).
    exists d2s, mins, ws, marker, rest.
    split; [exact Hr|]. split; [exact Hd2s|].
    split.
    { destruct Hmins as [(? & _ & ?) | (m1 & m2 & ? & ? & ? & _)]; [left; auto|].
      right. exists m1, m2. auto. }
    split; [exact Hws|]. split; [exact Hhd|].
    split.
    { destruct Hmarker as [(? & _ & ? & ?) | (_ & [? | ?])]; auto. }
    cbv zeta. split.
    { apply hour_digits_bounds; [exact Hc|]. destruct Hd2s as [[? _] | ?]; auto. }
    rewrite Hm. cbn [option_map]. unfold SchedulingAdvisor.format_time. rewrite Hg1.
    f_equal. f_equal; [f_equal|].
    + (* the hour *)
      destruct Hmarker as [(-> & -> & _) | (-> & [-> | ->])]; reflexivity.
    + (* the minute *)
      f_equal.
      destruct Hmins as [(-> & -> & _) | (m1 & m2 & _ & _ & -> & ->)]; reflexivity.
Qed.

Lemma C7_witness :
  exists date,
    SchedulingAdvisor._parse_datetime "2:30pm" (Calendar.mkdate 2024 6 10)
    = Returns (date, Some "14:30").
Proof.
  assert (Href : Calendar.has_two_weeks (Calendar.mkdate 2024 6 10))
    by (split; vm_compute; [reflexivity | discriminate]).
  exact (proj1 (proj2 (proj2 (C7_time_resolution "2:30pm" (Calendar.mkdate 2024 6 10) Href)))).
Defined.

(** The claim as stated fails on an hour above 12: in "13pm" the marker is
    "pm" and the hour, 13, is not 12, yet 12 is not added: the time is
    "13:00", not "25:00". *)
Lemma C7_counterexample :
  SchedulingAdvisor.search_time (lower "13pm")
  = Some (SchedulingAdvisor.mkTimeMatch "13" None (Some "pm"))
  /\ SchedulingAdvisor._parse_datetime "13pm" (Calendar.mkdate 2024 6 10)
     = Returns (None, Some "13:00")
  /\ Some "13:00" <> Some (zero_pad 2 (13 + 12) ++ ":" ++ "00")%string.
Proof. repeat split. vm_compute. discriminate. Qed.

(** C10.  For a reference date with two weeks left in the calendar,
    [_parse_datetime] has no time exactly when the text holds no digit.
    When it holds one, the time is built from the numeral at the first
    digit, which is that digit and the next character when it is a digit
    too: with no minute and no marker after it the time is that number,
    written with two digits, and ":00", whatever the number.  "I have 5
    years" gives "05:00" and "99" gives "99:00". *)
Theorem C10_any_numeral_is_a_time :
  forall text ref,
    Calendar.has_two_weeks ref ->
    (exists date time,
       SchedulingAdvisor._parse_datetime text ref = Returns (date, time)
       /\ (time = None <-> has_digit text = false)
       /\ (forall pre c r,
             lower text = (pre ++ String c r)%string ->
             has_digit pre = false ->
             is_digit c = true ->
             exists m,
               SchedulingAdvisor.search_time (lower text) = Some m
               /\ time = Some (SchedulingAdvisor.format_time m)
               /\ SchedulingAdvisor.group1 m
                  = (match r with
                     | String d2 _ =>
                         if is_digit d2 then String c (String d2 EmptyString)
                         else String c EmptyString
                     | EmptyString => String c EmptyString
                     end)
               /\ 0 <= int_of_digits (SchedulingAdvisor.group1 m) <= 99
               /\ (SchedulingAdvisor.group2 m = None ->
                   SchedulingAdvisor.group3 m = None ->
                   time = Some (zero_pad 2 (int_of_digits (SchedulingAdvisor.group1 m))
                                ++ ":00")%string)))
    /\ (exists date, SchedulingAdvisor._parse_datetime "I have 5 years" ref
                     = Returns (date, Some "05:00"))
    /\ (exists date, SchedulingAdvisor._parse_datetime "99" ref
                     = Returns (date, Some "99:00")).
Proof.
  intros text ref Href.
  split;
    [|split; [exact (parse_datetime_returns "I have 5 years" ref Href)
             |exact (parse_datetime_returns "99" ref Href)]].
  destruct (parse_datetime_returns text ref Href) as [date Hparse].
  exists date, (option_map SchedulingAdvisor.format_time
                  (SchedulingAdvisor.search_time (lower text))).
  split; [exact Hparse|]. split.
  - rewrite <- has_digit_lower, <- search_time_none_iff.
    destruct (SchedulingAdvisor.search_time (lower text)); cbn; split; congruence.
  - intros pre c r Hsplit Hpre Hc.
    destruct (search_time_lowered text pre c r Hsplit Hpre Hc)
      as (m & d2s & mins & ws & marker & rest & Hm & Hr & Hg1 & Hd2s & _).
    exists m. split; [exact Hm|]. rewrite Hm. cbn [option_map].
    split; [reflexivity|]. split; [|split].
    + rewrite Hg1. destruct Hd2s as [(-> & Hhd) | (d2 & Hd2 & ->)].
      * destruct r as [|d2 r']; [reflexivity|]. cbn in Hhd. now rewrite Hhd.
      * rewrite Hr. cbn. now rewrite Hd2.
    + rewrite Hg1. apply hour_digits_bounds; [exact Hc|].
      destruct Hd2s as [[? _] | ?]; auto.
    + intros H2 H3. unfold SchedulingAdvisor.format_time. rewrite H2, H3. reflexivity.
Qed.

Lemma C10_witness :
  exists date,
    SchedulingAdvisor._parse_datetime "I have 5 years" (Calendar.mkdate 2024 6 10)
    = Returns (date, Some "05:00").
Proof.
  assert (Href : Calendar.has_two_weeks (Calendar.mkdate 2024 6 10))
    by (split; vm_compute; [reflexivity | discriminate]).
  exact (proj1 (proj2 (C10_any_numeral_is_a_time "I have 5 years"
                         (Calendar.mkdate 2024 6 10) Href))).
Defined.

(** ** Booking *)

Lemma slot_is_key d t p s : slot_is d t p s = true <-> slot_key s = (d, t, p).
Proof.
  unfold slot_is, slot_key. rewrite !andb_true_iff, !String.eqb_eq.
  split; [intros [[-> ->] ->]; reflexivity | intros [= -> -> ->]; auto].
Qed.

Lemma find_slot_split d t p (slots : list Slot) s :
  find (slot_is d t p) slots = Some s ->
  exists l1 l2,
    slots = (l1 ++ s :: l2)%list
    /\ slot_is d t p s = true
    /\ (forall x, In x l1 -> slot_is d t p x = false).
Proof.
  induction slots as [|x slots IH]; cbn; [discriminate|].
  destruct (slot_is d t p x) eqn:Hx.
  - intros [= ->]. exists [], slots. repeat split; auto. intros y [].
  - intros H. destruct (IH H) as (l1 & l2 & -> & Hs & Hl1).
    exists (x :: l1), l2. repeat split; auto. intros y [<- | Hy]; auto.
Qed.

Lemma find_slot_none d t p (slots : list Slot) :
  find (slot_is d t p) slots = None ->
  forall x, In x slots -> slot_is d t p x = false.
Proof. intros H x Hx. exact (find_none _ _ H x Hx). Qed.

(** With unique keys the slot found is the only slot of its key. *)
Lemma unique_keys_others d t p l1 s l2 :
  unique_keys (l1 ++ s :: l2)%list ->
  slot_is d t p s = true ->
  forall x, In x (l1 ++ l2)%list -> slot_is d t p x = false.
Proof.
  unfold unique_keys. rewrite map_app. cbn [map]. intros Hnd Hs x Hx.
  apply NoDup_remove_2 in Hnd. rewrite <- map_app in Hnd.
  destruct (slot_is d t p x) eqn:Hxk; [|reflexivity].
  exfalso. apply Hnd. apply slot_is_key in Hs, Hxk. rewrite Hs, <- Hxk.
  now apply in_map.
Qed.

Lemma map_unchanged {A} (f : A -> A) l :
  (forall x, In x l -> f x = x) -> map f l = l.
Proof.
  induction l as [|a l IH]; cbn; intros H; [reflexivity|].
  rewrite H by (now left). f_equal. apply IH. intros x Hx. apply H. now right.
Qed.

(** With unique keys the [UPDATE] changes the one row of the key. *)
Lemma update_available_0_one d t p l1 s l2 :
  unique_keys (l1 ++ s :: l2)%list ->
  slot_is d t p s = true ->
  DatabaseManager.update_available_0 (l1 ++ s :: l2)%list d t p
  = (l1 ++ set_unavailable s :: l2)%list.
Proof.
  intros Hu Hs. pose proof (unique_keys_others d t p l1 s l2 Hu Hs) as Hothers.
  unfold DatabaseManager.update_available_0. rewrite map_app. cbn [map]. rewrite Hs.
  rewrite !map_unchanged; [reflexivity| |];
    intros x Hx; rewrite Hothers; auto; apply in_or_app; auto.
Qed.

(** The first slot of the key is the one [update_first] changes. *)
Lemma update_first_one d t p l1 s l2 :
  slot_is d t p s = true ->
  (forall x, In x l1 -> slot_is d t p x = false) ->
  MongoDBManager.update_first (l1 ++ s :: l2)%list d t p
  = Some (l1 ++ set_unavailable s :: l2)%list.
Proof.
  intros Hs Hl1. induction l1 as [|x l1 IH]; cbn.
  - now rewrite Hs.
  - rewrite (Hl1 x) by (now left). rewrite IH; [reflexivity|].
    intros y Hy. apply Hl1. now right.
Qed.

(** The availability check, against the slots of a store with unique keys. *)
Lemma check_unique d t p (slots : list Slot) :
  unique_keys slots ->
  (match find (slot_is d t p) slots with
   | Some s => available s
   | None => false
   end = true
   <-> exists s, In s slots /\ slot_key s = (d, t, p) /\ available s = true).
Proof.
  intros Hu. destruct (find (slot_is d t p) slots) as [s|] eqn:Hfind.
  - destruct (find_slot_split _ _ _ _ _ Hfind) as (l1 & l2 & -> & Hs & Hl1).
    split.
    + intros Hav. exists s. repeat split; auto.
      * apply in_elt.
      * now apply slot_is_key.
    + intros (x & Hx & Hk & Hav).
      apply in_elt_inv in Hx as [-> | Hx]; [exact Hav|].
      apply slot_is_key in Hk.
      rewrite (unique_keys_others d t p l1 s l2 Hu Hs x Hx) in Hk. discriminate.
  - split; [discriminate|]. intros (x & Hx & Hk & _).
    apply slot_is_key in Hk. rewrite (find_slot_none _ _ _ _ Hfind x Hx) in Hk.
    discriminate.
Qed.

(** C3, amended.  In a store where no two slots share date, time and
    position, for both managers (the MongoDB one with no operation raising):
    [book_slot] succeeds exactly when a slot of that date, time and position
    exists and is available; on success that slot alone changes, from
    available to unavailable; on failure the result is the "not available"
    record and the store is as before. *)
Theorem C3_book_slot :
  forall (db : DatabaseManager.Table) (self : MongoDBManager.Manager) d t p,
    unique_keys db ->
    unique_keys (MongoDBManager.store self) ->
    (let r := DatabaseManager.book_slot db d t p in
     (success (snd r) = true
      <-> exists s, In s db /\ slot_key s = (d, t, p) /\ available s = true)
     /\ (success (snd r) = true ->
         snd r = booked_result d t p
         /\ exists l1 s l2,
              db = (l1 ++ s :: l2)%list
              /\ slot_key s = (d, t, p) /\ available s = true
              /\ fst r = (l1 ++ set_unavailable s :: l2)%list)
     /\ (success (snd r) = false ->
         snd r = not_available_result d t /\ fst r = db))
    /\ (let r := MongoDBManager.book_slot self MongoDBManager.no_faults d t p in
        (success (snd r) = true
         <-> exists s, In s (MongoDBManager.store self)
                       /\ slot_key s = (d, t, p) /\ available s = true)
        /\ (success (snd r) = true ->
            snd r = booked_result d t p
            /\ exists l1 s l2,
                 MongoDBManager.store self = (l1 ++ s :: l2)%list
                 /\ slot_key s = (d, t, p) /\ available s = true
                 /\ fst r = MongoDBManager.with_store self
                              (l1 ++ set_unavailable s :: l2)%list)
        /\ (success (snd r) = false ->
            snd r = not_available_result d t /\ fst r = self)).
Proof.
  intros db self d t p Hdb Hstore. split.
  - (* the SQLite table *)
    cbv zeta. unfold DatabaseManager.book_slot, DatabaseManager.check_slot_availability.
    pose proof (check_unique d t p db Hdb) as Hcheck.
    destruct (find (slot_is d t p) db) as [s|] eqn:Hfind.
    + destruct (find_slot_split _ _ _ _ _ Hfind) as (l1 & l2 & -> & Hs & Hl1).
      destruct (available s) eqn:Hav; cbn [negb fst snd success].
      * split; [tauto|]. split; [|discriminate].
        intros _. split; [reflexivity|].
        exists l1, s, l2. repeat split; auto.
        -- now apply slot_is_key.
        -- now apply update_available_0_one.
      * split; [split; [discriminate | intros H; apply Hcheck in H; discriminate]|].
        split; [discriminate|]. auto.
    + cbn [negb fst snd success].
      split; [split; [discriminate | intros H; apply Hcheck in H; discriminate]|].
      split; [discriminate|]. auto.
  - (* the MongoDB manager *)
    cbv zeta.
    unfold MongoDBManager.book_slot, MongoDBManager.check_slot_availability,
      MongoDBManager.book_mock, MongoDBManager.check_mock, MongoDBManager.with_store.
    unfold MongoDBManager.store in Hstore |- *.
    destruct self as [[docs|] mock]; cbn [MongoDBManager.collection
      MongoDBManager._mock_data MongoDBManager.no_faults
      MongoDBManager.find_one_raises MongoDBManager.update_one_raises] in *.
    + pose proof (check_unique d t p docs Hstore) as Hcheck.
      destruct (find (slot_is d t p) docs) as [s|] eqn:Hfind.
      * destruct (find_slot_split _ _ _ _ _ Hfind) as (l1 & l2 & -> & Hs & Hl1).
        destruct (available s) eqn:Hav; cbn [negb fst snd success].
        -- split; [tauto|]. split; [|discriminate].
           intros _. split; [reflexivity|].
           exists l1, s, l2. repeat split; auto.
           ++ now apply slot_is_key.
           ++ now rewrite (update_first_one d t p l1 s l2 Hs Hl1).
        -- split; [split; [discriminate | intros H; apply Hcheck in H; discriminate]|].
           split; [discriminate|]. auto.
      * cbn [negb fst snd success].
        split; [split; [discriminate | intros H; apply Hcheck in H; discriminate]|].
        split; [discriminate|]. auto.
    + pose proof (check_unique d t p mock Hstore) as Hcheck.
      destruct (find (slot_is d t p) mock) as [s|] eqn:Hfind.
      * destruct (find_slot_split _ _ _ _ _ Hfind) as (l1 & l2 & -> & Hs & Hl1).
        destruct (available s) eqn:Hav; cbn [negb fst snd success].
        -- rewrite (update_first_one d t p l1 s l2 Hs Hl1). cbn [fst snd success].
           split; [tauto|]. split; [|discriminate].
           intros _. split; [reflexivity|].
           exists l1, s, l2. repeat split; auto.
           now apply slot_is_key.
        -- split; [split; [discriminate | intros H; apply Hcheck in H; discriminate]|].
           split; [discriminate|]. auto.
      * cbn [negb fst snd success].
        split; [split; [discriminate | intros H; apply Hcheck in H; discriminate]|].
        split; [discriminate|]. auto.
Qed.

Lemma june_slots_unique : unique_keys Scenario.june_slots.
Proof.
  unfold unique_keys, Scenario.june_slots, slot_key. cbn [map date time position].
  repeat (apply NoDup_cons; [cbn [In]; intuition discriminate|]).
  apply NoDup_nil.
Qed.

Lemma C3_witness :
  success (snd (DatabaseManager.book_slot Scenario.june_slots
                  "2024-06-10" "10:00" "Python Dev")) = true.
Proof.
  apply (proj1 (C3_book_slot Scenario.june_slots
                  (MongoDBManager.mkManager None Scenario.june_slots)
                  "2024-06-10" "10:00" "Python Dev"
                  june_slots_unique june_slots_unique)).
  exists (mkSlot 2 "2024-06-10" "10:00" "Python Dev" true).
  cbn. auto.
Defined.

(** The claim as stated fails on a store with two slots of one date, time
    and position.  With the first taken and the second free, an available
    slot of the key exists, yet both managers answer "not available"; with
    both free, one booking on the SQLite table makes both unavailable.  And
    when the collection's [update_one] raises, a free slot of the collection
    is not booked and the result is "Slot not found". *)
Lemma C3_counterexample :
  (exists s, In s Scenario.doubled_slots
             /\ slot_key s = ("2024-06-11", "10:00", "Python Dev")
             /\ available s = true)
  /\ MongoDBManager.book_slot (MongoDBManager.mkManager None Scenario.doubled_slots)
       MongoDBManager.no_faults "2024-06-11" "10:00" "Python Dev"
     = (MongoDBManager.mkManager None Scenario.doubled_slots,
        not_available_result "2024-06-11" "10:00")
  /\ DatabaseManager.book_slot Scenario.doubled_slots "2024-06-11" "10:00" "Python Dev"
     = (Scenario.doubled_slots, not_available_result "2024-06-11" "10:00")
  /\ DatabaseManager.book_slot Scenario.doubled_free_slots
       "2024-06-11" "10:00" "Python Dev"
     = ([mkSlot 1 "2024-06-11" "10:00" "Python Dev" false;
         mkSlot 2 "2024-06-11" "10:00" "Python Dev" false],
        booked_result "2024-06-11" "10:00" "Python Dev")
  /\ MongoDBManager.book_slot
       (MongoDBManager.mkManager (Some Scenario.june_slots) [])
       (MongoDBManager.mkFaults false true false)
       "2024-06-10" "10:00" "Python Dev"
     = (MongoDBManager.mkManager (Some Scenario.june_slots) [],
        mkBookingResult false "Slot not found" None).
Proof.
  split.
  - exists (mkSlot 2 "2024-06-11" "10:00" "Python Dev" true). cbn. auto.
  - repeat split.
Qed.

(** ** Slots near a date *)

(** C8, on the MongoDB manager.  Its [get_slots_near_date] sorts by the day
    difference alone, so slots at the same distance keep the order of the
    store instead of the order of their times: around 2024-06-11 it returns
    10:00 of the day before and leaves out 09:00 of the day after, which the
    SQLite manager returns.  When connected it ranks only the [3 * limit]
    earliest slots, so for 2024-06-20 it returns a slot eight days away
    although a slot on the day itself is free. *)
Theorem C8_mongo_near_date_ranking :
  MongoDBManager.get_slots_near_date
    (MongoDBManager.mkManager None Scenario.june_slots) MongoDBManager.no_faults
    "2024-06-11" "Python Dev" 2
  = Returns [mkSlot 1 "2024-06-10" "09:00" "Python Dev" true;
             mkSlot 2 "2024-06-10" "10:00" "Python Dev" true]
  /\ DatabaseManager.get_slots_near_date Scenario.june_slots "2024-06-11" "Python Dev" 2
     = [mkSlot 1 "2024-06-10" "09:00" "Python Dev" true;
        mkSlot 3 "2024-06-12" "09:00" "Python Dev" true]
  /\ DatabaseManager.date_diff "2024-06-11" (mkSlot 2 "2024-06-10" "10:00" "Python Dev" true)
     = DatabaseManager.date_diff "2024-06-11" (mkSlot 3 "2024-06-12" "09:00" "Python Dev" true)
  /\ ("09:00" <? "10:00")%string = true
  /\ MongoDBManager.get_slots_near_date
       (MongoDBManager.mkManager (Some Scenario.spread_slots) [])
       MongoDBManager.no_faults "2024-06-20" "Python Dev" 1
     = Returns [mkSlot 3 "2024-06-12" "09:00" "Python Dev" true]
  /\ DatabaseManager.get_slots_near_date Scenario.spread_slots "2024-06-20" "Python Dev" 1
     = [mkSlot 4 "2024-06-20" "09:00" "Python Dev" true].
Proof. repeat split; vm_compute; reflexivity. Qed.

(** *** Sorting *)

Section SortingFacts.
Context {A : Type} (leb : A -> A -> bool).
Hypothesis leb_total : forall a b, leb a b = true \/ leb b a = true.
Hypothesis leb_trans : forall a b c, leb a b = true -> leb b c = true -> leb a c = true.

Let le (a b : A) : Prop := leb a b = true.

Lemma insert_sorted_perm x l : Permutation (insert_sorted leb x l) (x :: l).
Proof.
  induction l as [|y l IH]; cbn; [reflexivity|].
  destruct (leb x y); [reflexivity|].
  rewrite IH. apply perm_swap.
Qed.

Lemma sort_by_perm l : Permutation (sort_by leb l) l.
Proof.
  induction l as [|x l IH]; cbn; [reflexivity|].
  rewrite insert_sorted_perm. now apply perm_skip.
Qed.

Lemma insert_sorted_sorted x l :
  StronglySorted le l -> StronglySorted le (insert_sorted leb x l).
Proof.
  induction 1 as [|y l Hl IH Hy]; cbn.
  - repeat constructor.
  - destruct (leb x y) eqn:Hxy.
    + constructor; [now constructor|].
      constructor; [exact Hxy|].
      apply Forall_forall. intros z Hz. rewrite Forall_forall in Hy.
      apply (leb_trans x y z Hxy). now apply Hy.
    + constructor; [exact IH|].
      assert (Hyx : le y x) by (destruct (leb_total x y); [congruence | assumption]).
      apply Forall_forall. intros z Hz.
      apply (Permutation_in _ (insert_sorted_perm x l)) in Hz.
      destruct Hz as [<- | Hz]; [exact Hyx|].
      rewrite Forall_forall in Hy. now apply Hy.
Qed.

Lemma sort_by_sorted l : StronglySorted le (sort_by leb l).
Proof.
  induction l as [|x l IH]; cbn; [constructor|]. now apply insert_sorted_sorted.
Qed.

(** In a sorted list every element of a prefix is below every element of
    the rest. *)
Lemma sorted_prefix_below n l x y :
  StronglySorted le l -> In x (firstn n l) -> In y (skipn n l) -> le x y.
Proof.
  intros Hl. revert n. induction Hl as [|a l Hl IH Ha]; intros n Hx Hy.
  - destruct n; contradiction.
  - destruct n as [|n]; cbn in Hx, Hy; [contradiction|].
    destruct Hx as [<- | Hx].
    + rewrite Forall_forall in Ha. apply Ha.
      rewrite <- (firstn_skipn n l). apply in_or_app. now right.
    + now apply (IH n).
Qed.

Lemma sorted_prefix n l : StronglySorted le l -> StronglySorted le (firstn n l).
Proof.
  intros Hl. revert n. induction Hl as [|a l Hl IH Ha]; intros [|n]; cbn;
    try constructor; auto.
  apply Forall_forall. intros z Hz. rewrite Forall_forall in Ha. apply Ha.
  rewrite <- (firstn_skipn n l). apply in_or_app. now left.
Qed.

End SortingFacts.

(** The order of strings is transitive. *)
Lemma string_leb_trans a b c :
  (a <=? b)%string = true -> (b <=? c)%string = true -> (a <=? c)%string = true.
Proof.
  unfold String.leb. revert b c.
  induction a as [|x a IH]; intros [|y b] [|z c]; cbn; try congruence.
  unfold Ascii.compare.
  destruct (N.compare_spec (N_of_ascii x) (N_of_ascii y)) as [Hxy | Hxy | Hxy];
    destruct (N.compare_spec (N_of_ascii y) (N_of_ascii z)) as [Hyz | Hyz | Hyz];
    destruct (N.compare_spec (N_of_ascii x) (N_of_ascii z)) as [Hxz | Hxz | Hxz];
    try congruence; try lia.
  apply IH.
Qed.



(** The order of [ORDER BY date_diff, time] on rows whose day difference is
    known: a smaller difference first, and at the same difference the
    earlier time. *)
Lemma near_leb_ranks target a b x y :
  DatabaseManager.date_diff target a = Some x ->
  DatabaseManager.date_diff target b = Some y ->
  (DatabaseManager.near_leb target a b = true
   <-> x < y \/ (x = y /\ (time a <=? time b)%string = true)).
Proof.
  intros Ha Hb. unfold DatabaseManager.near_leb. rewrite Ha, Hb. cbn.
  destruct (Z.eqb_spec x y).
  - split; [auto | intros [? | [_ ?]]; [lia | assumption]].
  - rewrite Z.leb_le. split; [intros; left; lia | intros [? | [? _]]; lia].
Qed.



(** ** Listing slots *)

Lemma in_firstn {A : Type} (n : nat) (l : list A) x : In x (firstn n l) -> In x l.
Proof.
  intros H. rewrite <- (firstn_skipn n l). apply in_or_app. now left.
Qed.

(** What a query [SELECT ... WHERE wanted ORDER BY leb LIMIT limit] returns. *)
Lemma sql_select_rows {A : Type} (leb : A -> A -> bool) (wanted : A -> bool)
      (rows_in : list A) (limit : Z) :
  (forall a b, leb a b = true \/ leb b a = true) ->
  (forall a b c, leb a b = true -> leb b c = true -> leb a c = true) ->
  let rows := DatabaseManager.sql_limit limit (sort_by leb (filter wanted rows_in)) in
  (forall s, In s rows -> In s rows_in /\ wanted s = true)
  /\ StronglySorted (fun a b => leb a b = true) rows
  /\ (0 <= limit -> Z.of_nat (List.length rows) <= limit)
  /\ exists left_out,
       Permutation (rows ++ left_out)%list (filter wanted rows_in)
       /\ (forall a b, In a rows -> In b left_out -> leb a b = true).
Proof.
  intros Htotal Htrans. cbv zeta.
  pose proof (sort_by_sorted leb Htotal Htrans (filter wanted rows_in)) as Hsorted.
  pose proof (sort_by_perm leb (filter wanted rows_in)) as Hperm.
  unfold DatabaseManager.sql_limit.
  destruct (Z.ltb_spec limit 0) as [Hneg | Hpos].
  - split; [|split; [exact Hsorted|split; [lia|]]].
    + intros s Hs. apply (Permutation_in _ Hperm) in Hs. now apply filter_In in Hs.
    + exists []. rewrite app_nil_r. split; [exact Hperm|]. intros a b _ [].
  - split; [|split; [now apply sorted_prefix|split]].
    + intros s Hs. apply in_firstn in Hs.
      apply (Permutation_in _ Hperm) in Hs. now apply filter_In in Hs.
    + intros _. rewrite length_firstn. lia.
    + exists (skipn (Z.to_nat limit) (sort_by leb (filter wanted rows_in))).
      split; [now rewrite firstn_skipn|].
      intros a b Ha Hb. exact (sorted_prefix_below leb _ _ a b Hsorted Ha Hb).
Qed.

Lemma time_leb_total (a b : Slot) :
  (time a <=? time b)%string = true \/ (time b <=? time a)%string = true.
Proof. apply String.leb_total. Qed.

Lemma time_leb_trans (a b c : Slot) :
  (time a <=? time b)%string = true -> (time b <=? time c)%string = true ->
  (time a <=? time c)%string = true.
Proof. apply string_leb_trans. Qed.

Lemma date_time_leb_total a b :
  DatabaseManager.date_time_leb a b = true \/ DatabaseManager.date_time_leb b a = true.
Proof.
  unfold DatabaseManager.date_time_leb. rewrite (String.eqb_sym (date b) (date a)).
  destruct (date a =? date b)%string; apply String.leb_total.
Qed.

Lemma date_time_leb_trans a b c :
  DatabaseManager.date_time_leb a b = true ->
  DatabaseManager.date_time_leb b c = true ->
  DatabaseManager.date_time_leb a c = true.
Proof.
  unfold DatabaseManager.date_time_leb.
  destruct (String.eqb_spec (date a) (date b)) as [Hab | Hab];
    destruct (String.eqb_spec (date b) (date c)) as [Hbc | Hbc];
    destruct (String.eqb_spec (date a) (date c)) as [Hac | Hac];
    try congruence; intros H1 H2.
  - exact (string_leb_trans _ _ _ H1 H2).
  - exfalso. apply Hab. apply String.leb_antisym; [exact H1|]. now rewrite Hac.
  - exact (string_leb_trans _ _ _ H1 H2).
Qed.

(** The SQLite manager's [get_available_slots]: every row returned is a row
    of the table that is available, of the position asked, and on the date
    asked or, with no date, not before today; the rows come by date and then
    time; a limit that is not negative bounds their number; and every row
    left out that qualifies ranks after every row returned. *)
Theorem sqlite_available_slots_listed :
  forall (db : DatabaseManager.Table) today d p limit,
    let rows := DatabaseManager.get_available_slots db today d p limit in
    let dated (s : Slot) :=
      match d with
      | Some d0 => if (d0 =? "")%string then (today <=? date s)%string
                   else (date s =? d0)%string
      | None => (today <=? date s)%string
      end in
    (forall s, In s rows ->
       In s db /\ available s = true /\ position s = p /\ dated s = true)
    /\ StronglySorted (fun a b => DatabaseManager.date_time_leb a b = true) rows
    /\ (0 <= limit -> Z.of_nat (List.length rows) <= limit)
    /\ (forall s, In s db -> available s = true -> position s = p -> dated s = true ->
          In s rows
          \/ (Z.of_nat (List.length rows) = limit
              /\ forall a, In a rows -> DatabaseManager.date_time_leb a s = true)).
Proof.
  intros db today d p limit. cbv zeta.
  assert (Hby_date :
    let wanted := fun row => available row && (position row =? p)%string
                             && (today <=? date row)%string in
    let rows := DatabaseManager.sql_limit limit
                  (sort_by DatabaseManager.date_time_leb (filter wanted db)) in
    (forall s, In s rows ->
       In s db /\ available s = true /\ position s = p
       /\ (today <=? date s)%string = true)
    /\ StronglySorted (fun a b => DatabaseManager.date_time_leb a b = true) rows
    /\ (0 <= limit -> Z.of_nat (List.length rows) <= limit)
    /\ (forall s, In s db -> available s = true -> position s = p ->
                  (today <=? date s)%string = true ->
          In s rows
          \/ (Z.of_nat (List.length rows) = limit
              /\ forall a, In a rows -> DatabaseManager.date_time_leb a s = true))).
  { cbv zeta.
    destruct (sql_select_rows DatabaseManager.date_time_leb
                (fun row => available row && (position row =? p)%string
                            && (today <=? date row)%string) db limit
                date_time_leb_total date_time_leb_trans)
      as (Hsound & Hsorted & Hlen & left_out & Hperm & Hbelow).
    split; [|split; [exact Hsorted|split; [exact Hlen|]]].
    - intros s Hs. destruct (Hsound s Hs) as [Hin Hw].
      apply andb_prop in Hw as [Hw Hd]. apply andb_prop in Hw as [Ha Hp].
      apply String.eqb_eq in Hp. auto.
    - intros s Hin Ha Hp Hd.
      assert (Hcand : In s (filter (fun row => available row && (position row =? p)%string
                                               && (today <=? date row)%string) db)).
      { apply filter_In. split; [exact Hin|].
        rewrite Ha, Hd. apply String.eqb_eq in Hp. now rewrite Hp. }
      apply (Permutation_in _ (Permutation_sym Hperm)) in Hcand.
      apply in_app_or in Hcand as [Hrow | Hout]; [now left|right].
      split; [|intros a Ha'; now apply Hbelow].
      (* a candidate was left out, so the limit was reached *)
      revert Hout Hperm. unfold DatabaseManager.sql_limit.
      destruct (Z.ltb_spec limit 0) as [Hneg | Hpos].
      + intros Hout Hperm. exfalso.
        pose proof (sort_by_perm DatabaseManager.date_time_leb
                      (filter (fun row => available row && (position row =? p)%string
                                          && (today <=? date row)%string) db)) as Hp2.
        pose proof (Permutation_length Hperm) as Hl1.
        pose proof (Permutation_length Hp2) as Hl2.
        rewrite length_app in Hl1. destruct left_out; [contradiction|]. cbn in Hl1. lia.
      + intros Hout Hperm.
        pose proof (sort_by_perm DatabaseManager.date_time_leb
                      (filter (fun row => available row && (position row =? p)%string
                                          && (today <=? date row)%string) db)) as Hp2.
        pose proof (Permutation_length Hperm) as Hl1.
        pose proof (Permutation_length Hp2) as Hl2.
        rewrite length_app in Hl1. rewrite length_firstn in Hl1 |- *.
        destruct left_out; [contradiction|]. cbn in Hl1. lia. }
  unfold DatabaseManager.get_available_slots.
  destruct d as [d0|]; [|exact Hby_date].
  destruct (String.eqb_spec d0 "") as [-> | Hd0]; [exact Hby_date|].
  (* one date: ordered by time *)
  destruct (sql_select_rows (fun r1 r2 => (time r1 <=? time r2)%string)
              (fun row => available row && (position row =? p)%string
                          && (date row =? d0)%string) db limit
              time_leb_total time_leb_trans)
    as (Hsound & Hsorted & Hlen & left_out & Hperm & Hbelow).
  assert (Hdate : forall s,
             In s (DatabaseManager.sql_limit limit
                     (sort_by (fun r1 r2 => (time r1 <=? time r2)%string)
                        (filter (fun row => available row && (position row =? p)%string
                                            && (date row =? d0)%string) db))) ->
             In s db /\ available s = true /\ position s = p
             /\ (date s =? d0)%string = true).
  { intros s Hs. destruct (Hsound s Hs) as [Hin Hw].
    apply andb_prop in Hw as [Hw Hd]. apply andb_prop in Hw as [Ha Hp].
    apply String.eqb_eq in Hp. auto. }
  split; [exact Hdate|]. split; [|split; [exact Hlen|]].
  - (* on one date the order by time is the order by date and time *)
    revert Hdate Hsorted.
    generalize (DatabaseManager.sql_limit limit
                  (sort_by (fun r1 r2 => (time r1 <=? time r2)%string)
                     (filter (fun row => available row && (position row =? p)%string
                                         && (date row =? d0)%string) db))).
    intros rows Hdate Hsorted. induction Hsorted as [|a rows Hs IH Ha]; constructor.
    + apply IH. intros s Hs'. apply Hdate. now right.
    + apply Forall_forall. intros b Hb. rewrite Forall_forall in Ha.
      unfold DatabaseManager.date_time_leb.
      destruct (Hdate a (or_introl eq_refl)) as (_ & _ & _ & Hda).
      destruct (Hdate b (or_intror Hb)) as (_ & _ & _ & Hdb).
      apply String.eqb_eq in Hda, Hdb. rewrite Hda, Hdb, String.eqb_refl.
      now apply Ha.
  - intros s Hin Ha Hp Hd.
    assert (Hcand : In s (filter (fun row => available row && (position row =? p)%string
                                             && (date row =? d0)%string) db)).
    { apply filter_In. split; [exact Hin|].
      rewrite Ha, Hd. apply String.eqb_eq in Hp. now rewrite Hp. }
    apply (Permutation_in _ (Permutation_sym Hperm)) in Hcand.
    apply in_app_or in Hcand as [Hrow | Hout]; [now left|right].
    split.
    + revert Hout Hperm. unfold DatabaseManager.sql_limit.
      pose proof (sort_by_perm (fun r1 r2 => (time r1 <=? time r2)%string)
                    (filter (fun row => available row && (position row =? p)%string
                                        && (date row =? d0)%string) db)) as Hp2.
      pose proof (Permutation_length Hp2) as Hl2.
      destruct (Z.ltb_spec limit 0) as [Hneg | Hpos]; intros Hout Hperm;
        pose proof (Permutation_length Hperm) as Hl1;
        rewrite length_app in Hl1; rewrite ?length_firstn in Hl1 |- *;
        (destruct left_out; [contradiction|]); cbn in Hl1; lia.
    + intros a Ha'. unfold DatabaseManager.date_time_leb.
      destruct (Hdate a Ha') as (_ & _ & _ & Hda).
      apply String.eqb_eq in Hda, Hd. rewrite Hda, Hd, String.eqb_refl.
      now apply Hbelow.
Qed.

(** ** Booking, again *)

Lemma find_update_available_0 (db : DatabaseManager.Table) d t p :
  find (slot_is d t p) (DatabaseManager.update_available_0 db d t p)
  = option_map set_unavailable (find (slot_is d t p) db).
Proof.
  unfold DatabaseManager.update_available_0.
  induction db as [|row db IH]; cbn; [reflexivity|].
  destruct (slot_is d t p row) eqn:Hrow.
  - unfold slot_is in *. cbn. now rewrite Hrow.
  - now rewrite Hrow.
Qed.

Lemma find_update_first (slots slots' : list Slot) d t p :
  MongoDBManager.update_first slots d t p = Some slots' ->
  find (slot_is d t p) slots'
  = option_map set_unavailable (find (slot_is d t p) slots).
Proof.
  revert slots'. induction slots as [|s slots IH]; cbn; intros slots'; [discriminate|].
  destruct (slot_is d t p s) eqn:Hs.
  - intros [= <-]. cbn. unfold slot_is in *. cbn. now rewrite Hs.
  - destruct (MongoDBManager.update_first slots d t p) as [rest|]; [|discriminate].
    cbn. intros [= <-]. cbn. rewrite Hs. now apply IH.
Qed.

Lemma update_first_found (slots : list Slot) d t p s :
  find (slot_is d t p) slots = Some s ->
  exists slots', MongoDBManager.update_first slots d t p = Some slots'.
Proof.
  induction slots as [|x slots IH]; cbn; [discriminate|].
  destruct (slot_is d t p x); [eauto|].
  intros H. destruct (IH H) as [slots' ->]. cbn. eauto.
Qed.

(** A second [book_slot] for the same date, time and position never succeeds
    and changes nothing, in either manager: a booked slot cannot be booked
    again. *)
Theorem book_slot_twice_fails :
  forall (db : DatabaseManager.Table) (self : MongoDBManager.Manager) d t p,
    (let r1 := DatabaseManager.book_slot db d t p in
     DatabaseManager.book_slot (fst r1) d t p = (fst r1, not_available_result d t))
    /\ (let r1 := MongoDBManager.book_slot self MongoDBManager.no_faults d t p in
        MongoDBManager.book_slot (fst r1) MongoDBManager.no_faults d t p
        = (fst r1, not_available_result d t)).
Proof.
  intros db self d t p. split; cbv zeta.
  - unfold DatabaseManager.book_slot at 2 3.
    destruct (DatabaseManager.check_slot_availability db d t p) eqn:Hcheck;
      cbn [negb fst snd].
    + unfold DatabaseManager.book_slot, DatabaseManager.check_slot_availability.
      rewrite find_update_available_0.
      destruct (find (slot_is d t p) db); reflexivity.
    + unfold DatabaseManager.book_slot. now rewrite Hcheck.
  - destruct self as [[docs|] mock];
      unfold MongoDBManager.book_slot, MongoDBManager.check_slot_availability,
        MongoDBManager.book_mock, MongoDBManager.check_mock;
      cbn [MongoDBManager.collection MongoDBManager._mock_data
           MongoDBManager.no_faults MongoDBManager.find_one_raises
           MongoDBManager.update_one_raises].
    + destruct (find (slot_is d t p) docs) as [s|] eqn:Hfind.
      * destruct (available s) eqn:Hav; cbn [negb fst snd MongoDBManager.collection].
        -- destruct (update_first_found docs d t p s Hfind) as [docs' Hup].
           rewrite Hup. rewrite (find_update_first docs docs' d t p Hup), Hfind.
           reflexivity.
        -- now rewrite Hfind, Hav.
      * cbn [negb fst snd MongoDBManager.collection]. now rewrite Hfind.
    + destruct (find (slot_is d t p) mock) as [s|] eqn:Hfind.
      * destruct (available s) eqn:Hav; cbn [negb fst snd].
        -- destruct (update_first_found mock d t p s Hfind) as [mock' Hup].
           rewrite Hup. cbn [fst MongoDBManager.collection MongoDBManager._mock_data].
           rewrite (find_update_first mock mock' d t p Hup), Hfind. reflexivity.
        -- cbn [MongoDBManager.collection MongoDBManager._mock_data].
           now rewrite Hfind, Hav.
      * cbn [negb fst snd MongoDBManager.collection MongoDBManager._mock_data].
        now rewrite Hfind.
Qed.

Lemma closed_only_refl k s : closed_only k s s.
Proof. unfold closed_only. auto. Qed.

Lemma closed_only_all_refl k (slots : list Slot) : Forall2 (closed_only k) slots slots.
Proof. induction slots; constructor; auto using closed_only_refl. Qed.

Lemma closed_only_set_unavailable d t p s :
  slot_is d t p s = true -> closed_only (d, t, p) s (set_unavailable s).
Proof.
  intros Hs. apply slot_is_key in Hs. unfold closed_only. cbn.
  repeat split; try discriminate. intros Hk. contradiction.
Qed.

Lemma update_available_0_closes (db : DatabaseManager.Table) d t p :
  Forall2 (closed_only (d, t, p)) db (DatabaseManager.update_available_0 db d t p).
Proof.
  unfold DatabaseManager.update_available_0.
  induction db as [|row db IH]; cbn; constructor; [|exact IH].
  destruct (slot_is d t p row) eqn:Hrow.
  - now apply closed_only_set_unavailable.
  - apply closed_only_refl.
Qed.

Lemma update_first_closes (slots slots' : list Slot) d t p :
  MongoDBManager.update_first slots d t p = Some slots' ->
  Forall2 (closed_only (d, t, p)) slots slots'.
Proof.
  revert slots'. induction slots as [|s slots IH]; cbn; intros slots'; [discriminate|].
  destruct (slot_is d t p s) eqn:Hs.
  - intros [= <-]. constructor.
    + now apply closed_only_set_unavailable.
    + apply closed_only_all_refl.
  - destruct (MongoDBManager.update_first slots d t p) as [rest|]; [|discriminate].
    cbn. intros [= <-]. constructor; [apply closed_only_refl | now apply IH].
Qed.

(** The first slot of another key is the same before and after. *)
Lemma find_other_key k (slots slots' : list Slot) d t p :
  Forall2 (closed_only k) slots slots' ->
  (d, t, p) <> k ->
  find (slot_is d t p) slots' = find (slot_is d t p) slots.
Proof.
  intros H Hk. induction H as [|s s' slots slots' (Hid & Hkey & _ & Hsame) _ IH];
    cbn; [reflexivity|].
  assert (Hmatch : slot_is d t p s' = slot_is d t p s).
  { unfold slot_is. unfold slot_key in Hkey. injection Hkey as -> -> ->. reflexivity. }
  rewrite Hmatch. destruct (slot_is d t p s) eqn:Hs; [|exact IH].
  f_equal. apply Hsame. apply slot_is_key in Hs. congruence.
Qed.

(** [book_slot] never adds, removes or re-opens a slot, and never touches a
    slot of another date, time or position, in either manager; so whether
    another date, time and position is available is as before. *)
Theorem book_slot_only_closes :
  forall (db : DatabaseManager.Table) (self : MongoDBManager.Manager) d t p,
    (let db' := fst (DatabaseManager.book_slot db d t p) in
     Forall2 (closed_only (d, t, p)) db db'
     /\ forall d' t' p',
          (d', t', p') <> (d, t, p) ->
          DatabaseManager.check_slot_availability db' d' t' p'
          = DatabaseManager.check_slot_availability db d' t' p')
    /\ (let self' :=
          fst (MongoDBManager.book_slot self MongoDBManager.no_faults d t p) in
        Forall2 (closed_only (d, t, p))
          (MongoDBManager.store self) (MongoDBManager.store self')
        /\ (MongoDBManager.collection self <> None ->
            MongoDBManager._mock_data self' = MongoDBManager._mock_data self)
        /\ forall d' t' p',
             (d', t', p') <> (d, t, p) ->
             MongoDBManager.check_slot_availability self' MongoDBManager.no_faults
               d' t' p'
             = MongoDBManager.check_slot_availability self MongoDBManager.no_faults
                 d' t' p').
Proof.
  intros db self d t p. split; cbv zeta.
  - assert (H : Forall2 (closed_only (d, t, p)) db
                  (fst (DatabaseManager.book_slot db d t p))).
    { unfold DatabaseManager.book_slot.
      destruct (negb (DatabaseManager.check_slot_availability db d t p)); cbn [fst].
      - apply closed_only_all_refl.
      - apply update_available_0_closes. }
    split; [exact H|].
    intros d' t' p' Hk. unfold DatabaseManager.check_slot_availability.
    now rewrite (find_other_key _ _ _ d' t' p' H Hk).
  - assert (H : Forall2 (closed_only (d, t, p)) (MongoDBManager.store self)
                  (MongoDBManager.store
                     (fst (MongoDBManager.book_slot self MongoDBManager.no_faults d t p)))
                /\ (MongoDBManager.collection self <> None ->
                    MongoDBManager._mock_data
                      (fst (MongoDBManager.book_slot self MongoDBManager.no_faults d t p))
                    = MongoDBManager._mock_data self)
                /\ (MongoDBManager.collection
                      (fst (MongoDBManager.book_slot self MongoDBManager.no_faults d t p))
                    = None <-> MongoDBManager.collection self = None)).
    { unfold MongoDBManager.book_slot, MongoDBManager.book_mock, MongoDBManager.store.
      destruct (negb (MongoDBManager.check_slot_availability self
                        MongoDBManager.no_faults d t p)); cbn [fst].
      { split; [apply closed_only_all_refl|]. split; [reflexivity|tauto]. }
      destruct self as [[docs|] mock];
        cbn [MongoDBManager.collection MongoDBManager._mock_data
             MongoDBManager.no_faults MongoDBManager.update_one_raises fst].
      - split; [|split; [reflexivity | split; discriminate]].
        destruct (MongoDBManager.update_first docs d t p) as [docs'|] eqn:Hup.
        + now apply update_first_closes.
        + apply closed_only_all_refl.
      - destruct (MongoDBManager.update_first mock d t p) as [mock'|] eqn:Hup;
          cbn [fst MongoDBManager.collection MongoDBManager._mock_data].
        + split; [now apply update_first_closes|]. split; [congruence | tauto].
        + split; [apply closed_only_all_refl|]. split; [congruence | tauto]. }
    destruct H as (Hall & Hmock & Hcoll).
    split; [exact Hall|]. split; [exact Hmock|].
    intros d' t' p' Hk.
    unfold MongoDBManager.check_slot_availability, MongoDBManager.check_mock.
    unfold MongoDBManager.store in Hall.
    destruct (MongoDBManager.collection self) as [docs|] eqn:Hc;
      destruct (MongoDBManager.collection
                  (fst (MongoDBManager.book_slot self MongoDBManager.no_faults d t p)))
        as [docs'|] eqn:Hc';
      cbn [MongoDBManager.no_faults MongoDBManager.find_one_raises].
    + now rewrite (find_other_key _ _ _ d' t' p' Hall Hk).
    + exfalso. destruct Hcoll as [Hcoll _]. specialize (Hcoll eq_refl). discriminate.
    + exfalso. destruct Hcoll as [_ Hcoll]. specialize (Hcoll eq_refl). discriminate.
    + now rewrite (find_other_key _ _ _ d' t' p' Hall Hk).
Qed.

(** ** What the listings offer *)

Lemma keyed_slots target (slots : list Slot) ks :
  MongoDBManager.keyed target slots = Returns ks -> map snd ks = slots.
Proof.
  revert ks. induction slots as [|x slots IH]; cbn; intros ks.
  - intros [= <-]. reflexivity.
  - destruct (MongoDBManager.days_apart target x) as [k|e]; cbn; [|discriminate].
    destruct (MongoDBManager.keyed target slots) as [ks'|e]; cbn; [|discriminate].
    intros [= <-]. cbn. f_equal. now apply IH.
Qed.

(** Sorting by proximity reorders the slots and nothing else. *)
Lemma sort_by_proximity_perm target (slots sorted : list Slot) :
  MongoDBManager.sort_by_proximity target slots = Returns sorted ->
  Permutation sorted slots.
Proof.
  unfold MongoDBManager.sort_by_proximity.
  destruct (MongoDBManager.keyed target slots) as [ks|e] eqn:Hks; cbn; [|discriminate].
  intros [= <-]. rewrite <- (keyed_slots target slots ks Hks).
  apply Permutation_map. apply sort_by_perm.
Qed.

Lemma in_py_prefix {A : Type} (n : Z) (l : list A) x :
  In x (MongoDBManager.py_prefix n l) -> In x l.
Proof.
  unfold MongoDBManager.py_prefix. destruct (n <? 0); apply in_firstn.
Qed.

Lemma in_cursor_limit {A : Type} (n : Z) (l : list A) x :
  In x (MongoDBManager.cursor_limit n l) -> In x l.
Proof.
  unfold MongoDBManager.cursor_limit. destruct (n =? 0); [auto | apply in_firstn].
Qed.

Lemma in_sql_limit {A : Type} (n : Z) (l : list A) x :
  In x (DatabaseManager.sql_limit n l) -> In x l.
Proof.
  unfold DatabaseManager.sql_limit. destruct (n <? 0); [auto | apply in_firstn].
Qed.

(** The MongoDB manager's two listings, whichever operations raise: every
    slot returned is available and of the position asked, and is a slot of
    the collection or, when the manager fell back, of the mock data,
    whatever the limit. *)
Theorem mongo_listings_offer_available :
  forall (self : MongoDBManager.Manager) f today d target p limit s,
    (In s (MongoDBManager.get_available_slots self f today d p limit) ->
     (In s (MongoDBManager.store self) \/ In s (MongoDBManager._mock_data self))
     /\ available s = true /\ position s = p)
    /\ (forall slots,
          MongoDBManager.get_slots_near_date self f target p limit = Returns slots ->
          In s slots ->
          (In s (MongoDBManager.store self) \/ In s (MongoDBManager._mock_data self))
          /\ available s = true /\ position s = p).
Proof.
  intros self f today d target p limit s.
  assert (Hfilter : forall (l : list Slot),
             In s (filter (fun s => available s && (position s =? p)%string) l) ->
             In s l /\ available s = true /\ position s = p).
  { intros l H. apply filter_In in H as [Hin Hw]. apply andb_prop in Hw as [Ha Hp].
    apply String.eqb_eq in Hp. auto. }
  assert (Hmock_near : forall slots,
             MongoDBManager.near_mock self target p limit = Returns slots ->
             In s slots ->
             In s (MongoDBManager._mock_data self) /\ available s = true /\ position s = p).
  { intros slots. unfold MongoDBManager.near_mock.
    destruct (MongoDBManager.sort_by_proximity target _) as [sorted|e] eqn:Hsort;
      cbn; [|discriminate].
    intros [= <-] Hin. apply in_py_prefix in Hin.
    apply (Permutation_in _ (sort_by_proximity_perm _ _ _ Hsort)) in Hin.
    now apply Hfilter. }
  assert (Hmock_avail :
             In s (MongoDBManager.available_mock self today d p limit) ->
             In s (MongoDBManager._mock_data self) /\ available s = true /\ position s = p).
  { unfold MongoDBManager.available_mock. intros Hin. apply in_py_prefix in Hin.
    assert (Hbase : In s (filter (fun s => available s && (position s =? p)%string
                                           && (today <=? date s)%string)
                            (MongoDBManager._mock_data self))).
    { destruct d as [d0|]; [|exact Hin].
      destruct (d0 =? "")%string; [exact Hin|]. now apply filter_In in Hin. }
    apply filter_In in Hbase as [Hin' Hw]. apply andb_prop in Hw as [Hw _].
    apply andb_prop in Hw as [Ha Hp]. apply String.eqb_eq in Hp. auto. }
  unfold MongoDBManager.store, MongoDBManager.get_available_slots,
    MongoDBManager.get_slots_near_date.
  destruct (MongoDBManager.collection self) as [docs|].
  - split.
    + destruct (MongoDBManager.find_raises f).
      * intros Hin. destruct (Hmock_avail Hin) as (? & ? & ?). auto.
      * intros Hin. apply in_cursor_limit in Hin.
        apply (Permutation_in _ (sort_by_perm _ _)) in Hin.
        apply filter_In in Hin as [Hin Hw]. apply andb_prop in Hw as [Hw _].
        apply andb_prop in Hw as [Ha Hp]. apply String.eqb_eq in Hp. auto.
    + intros slots. destruct (MongoDBManager.find_raises f).
      * intros Hnear Hin. destruct (Hmock_near slots Hnear Hin) as (? & ? & ?). auto.
      * destruct (MongoDBManager.sort_by_proximity target _) as [sorted|e] eqn:Hsort.
        -- intros [= <-] Hin. apply in_py_prefix in Hin.
           apply (Permutation_in _ (sort_by_proximity_perm _ _ _ Hsort)) in Hin.
           apply in_cursor_limit in Hin.
           apply (Permutation_in _ (sort_by_perm _ _)) in Hin.
           destruct (Hfilter _ Hin) as (? & ? & ?). auto.
        -- intros Hnear Hin. destruct (Hmock_near slots Hnear Hin) as (? & ? & ?). auto.
  - split.
    + intros Hin. destruct (Hmock_avail Hin) as (? & ? & ?). auto.
    + intros slots Hnear Hin. destruct (Hmock_near slots Hnear Hin) as (? & ? & ?). auto.
Qed.

(** The rows the SQLite listings return are available rows of the table, of
    the position asked. *)
Lemma sqlite_listing_members (db : DatabaseManager.Table) today d target p limit s :
  In s (DatabaseManager.get_available_slots db today d p limit)
  \/ In s (DatabaseManager.get_slots_near_date db target p limit) ->
  In s db /\ available s = true /\ position s = p.
Proof.
  assert (Hfilter : forall (extra : Slot -> bool),
             In s (filter (fun row => available row && (position row =? p)%string
                                      && extra row) db) ->
             In s db /\ available s = true /\ position s = p).
  { intros extra H. apply filter_In in H as [Hin Hw]. apply andb_prop in Hw as [Hw _].
    apply andb_prop in Hw as [Ha Hp]. apply String.eqb_eq in Hp. auto. }
  intros [Hin | Hin].
  - unfold DatabaseManager.get_available_slots in Hin.
    destruct d as [d0|]; [destruct (d0 =? "")%string|];
      apply in_sql_limit in Hin;
      apply (Permutation_in _ (sort_by_perm _ _)) in Hin;
      exact (Hfilter _ Hin).
  - unfold DatabaseManager.get_slots_near_date in Hin.
    apply in_sql_limit in Hin.
    apply (Permutation_in _ (sort_by_perm _ _)) in Hin.
    apply filter_In in Hin as [Hin Hw]. apply andb_prop in Hw as [Ha Hp].
    apply String.eqb_eq in Hp. auto.
Qed.

Lemma update_available_0_closed (db : DatabaseManager.Table) d t p s :
  In s (DatabaseManager.update_available_0 db d t p) ->
  slot_key s = (d, t, p) -> available s = false.
Proof.
  unfold DatabaseManager.update_available_0. intros Hin Hk.
  apply in_map_iff in Hin as (row & Hrow & _).
  destruct (slot_is d t p row) eqn:Hmatch.
  - subst s. reflexivity.
  - subst s. apply slot_is_key in Hk. congruence.
Qed.

(** After a successful [book_slot] on the SQLite table no row of that date,
    time and position is available: the availability check fails and neither
    listing returns such a row, for any date, position or limit asked. *)
Theorem sqlite_booked_slot_not_offered :
  forall (db : DatabaseManager.Table) d t p,
    success (snd (DatabaseManager.book_slot db d t p)) = true ->
    let db' := fst (DatabaseManager.book_slot db d t p) in
    DatabaseManager.check_slot_availability db' d t p = false
    /\ (forall s, In s db' -> slot_key s = (d, t, p) -> available s = false)
    /\ (forall today d' p' limit s,
          In s (DatabaseManager.get_available_slots db' today d' p' limit) ->
          slot_key s <> (d, t, p))
    /\ (forall target p' limit s,
          In s (DatabaseManager.get_slots_near_date db' target p' limit) ->
          slot_key s <> (d, t, p)).
Proof.
  intros db d t p. unfold DatabaseManager.book_slot.
  destruct (DatabaseManager.check_slot_availability db d t p) eqn:Hcheck;
    cbn [negb fst snd success]; [intros _|discriminate].
  assert (Hclosed : forall s, In s (DatabaseManager.update_available_0 db d t p) ->
                              slot_key s = (d, t, p) -> available s = false)
    by (intros s; apply update_available_0_closed).
  split; [|split; [exact Hclosed|split]].
  - unfold DatabaseManager.check_slot_availability. rewrite find_update_available_0.
    destruct (find (slot_is d t p) db); reflexivity.
  - intros today d' p' limit s Hin Hk.
    destruct (sqlite_listing_members _ today d' "" p' limit s (or_introl Hin))
      as (Hdb & Hav & _).
    rewrite (Hclosed s Hdb Hk) in Hav. discriminate.
  - intros target p' limit s Hin Hk.
    destruct (sqlite_listing_members _ "" None target p' limit s (or_intror Hin))
      as (Hdb & Hav & _).
    rewrite (Hclosed s Hdb Hk) in Hav. discriminate.
Qed.

Lemma sqlite_booked_slot_not_offered_witness :
  DatabaseManager.check_slot_availability
    (fst (DatabaseManager.book_slot Scenario.june_slots "2024-06-10" "10:00" "Python Dev"))
    "2024-06-10" "10:00" "Python Dev" = false.
Proof.
  exact (proj1 (sqlite_booked_slot_not_offered Scenario.june_slots
                  "2024-06-10" "10:00" "Python Dev" eq_refl)).
Defined.

(** In a table where no two rows share date, time and position, every row
    either SQLite listing returns passes the availability check and can be
    booked for the position asked. *)
Theorem sqlite_listed_slot_bookable :
  forall (db : DatabaseManager.Table) today d target p limit s,
    unique_keys db ->
    In s (DatabaseManager.get_available_slots db today d p limit)
    \/ In s (DatabaseManager.get_slots_near_date db target p limit) ->
    DatabaseManager.check_slot_availability db (date s) (time s) p = true
    /\ DatabaseManager.book_slot db (date s) (time s) p
       = (DatabaseManager.update_available_0 db (date s) (time s) p,
          booked_result (date s) (time s) p).
Proof.
  intros db today d target p limit s Hu Hin.
  destruct (sqlite_listing_members db today d target p limit s Hin) as (Hdb & Hav & Hp).
  assert (Hcheck : DatabaseManager.check_slot_availability db (date s) (time s) p = true).
  { unfold DatabaseManager.check_slot_availability.
    apply (check_unique (date s) (time s) p db Hu).
    exists s. repeat split; auto. unfold slot_key. now rewrite Hp. }
  split; [exact Hcheck|]. unfold DatabaseManager.book_slot. now rewrite Hcheck.
Qed.

Lemma sqlite_listed_slot_bookable_witness :
  DatabaseManager.check_slot_availability Scenario.june_slots
    "2024-06-12" "09:00" "Python Dev" = true.
Proof.
  refine (proj1 (sqlite_listed_slot_bookable Scenario.june_slots "2024-06-01" None
                   "2024-06-11" "Python Dev" 3
                   (mkSlot 3 "2024-06-12" "09:00" "Python Dev" true)
                   june_slots_unique _)).
  left. vm_compute. auto.
Defined.

(** Without that, a listed slot may fail the check: with two rows of one
    date, time and position, the first taken, the second is listed as
    available and cannot be booked. *)
Remark listed_slot_not_bookable_with_doubles :
  In (mkSlot 2 "2024-06-11" "10:00" "Python Dev" true)
    (DatabaseManager.get_available_slots Scenario.doubled_slots "2024-06-01" None
       "Python Dev" 3)
  /\ DatabaseManager.check_slot_availability Scenario.doubled_slots
       "2024-06-11" "10:00" "Python Dev" = false.
Proof. split; vm_compute; auto. Qed.

(** ** More on strings *)

Lemma map_chars_app f s t : map_chars f (s ++ t) = (map_chars f s ++ map_chars f t)%string.
Proof. induction s as [|c s IH]; cbn; [reflexivity|]. now rewrite IH. Qed.

Lemma lower_app s t : lower (s ++ t) = (lower s ++ lower t)%string.
Proof. apply map_chars_app. Qed.

Lemma append_assoc (s t u : string) : ((s ++ t) ++ u = s ++ (t ++ u))%string.
Proof. induction s as [|c s IH]; cbn; [reflexivity|]. now rewrite IH. Qed.

Lemma prefix_nil s : prefix EmptyString s = true.
Proof. now destruct s. Qed.

Lemma prefix_refl_app p rest : prefix p (p ++ rest) = true.
Proof.
  induction p as [|a p IH]; cbn [append]; [apply prefix_nil|].
  cbn. destruct (ascii_dec a a); [exact IH | contradiction].
Qed.

Lemma prefix_app p s t : prefix p s = true -> prefix p (s ++ t) = true.
Proof.
  intros H. destruct (prefix_split p s H) as [rest ->]. rewrite append_assoc.
  apply prefix_refl_app.
Qed.

Lemma prefix_contains p s : prefix p s = true -> contains p s = true.
Proof. intros H. destruct s; cbn [contains]; now rewrite H. Qed.

Lemma contains_cons p c s : contains p s = true -> contains p (String c s) = true.
Proof.
  intros H. cbn [contains]. destruct (prefix p (String c s)); [reflexivity | exact H].
Qed.

Lemma contains_app_r p s t : contains p t = true -> contains p (s ++ t) = true.
Proof.
  intros H. induction s as [|c s IH]; [exact H|]. cbn [append].
  now apply contains_cons.
Qed.

Lemma contains_app_l p s t : contains p s = true -> contains p (s ++ t) = true.
Proof.
  induction s as [|c s IH]; cbn [append].
  - destruct p as [|a p]; [|cbn; discriminate].
    intros _. apply prefix_contains, prefix_nil.
  - cbn [contains]. destruct (prefix p (String c s)) eqn:Hp.
    + intros _. change (String c (s ++ t)) with (String c s ++ t)%string.
      now rewrite (prefix_app _ _ t Hp).
    + intros H. destruct (prefix p (String c (s ++ t))); [reflexivity | now apply IH].
Qed.

Lemma prefix_length p s : prefix p s = true -> (String.length p <= String.length s)%nat.
Proof.
  intros H. destruct (prefix_split p s H) as [rest ->]. clear H.
  induction p; cbn; lia.
Qed.

Lemma contains_length p s : contains p s = true -> (String.length p <= String.length s)%nat.
Proof.
  induction s as [|c s IH]; cbn [contains].
  - destruct p; [cbn; lia | cbn; discriminate].
  - destruct (prefix p (String c s)) eqn:Hp.
    + intros _. apply (prefix_length _ _ Hp).
    + intros H. specialize (IH H). cbn [String.length]. lia.
Qed.

Lemma count_from_nonneg needle hay skip : 0 <= count_from needle hay skip.
Proof.
  revert skip. induction hay as [|c hay IH]; intros skip; cbn [count_from]; [lia|].
  destruct skip; [|apply IH].
  destruct (prefix needle (String c hay));
    [specialize (IH (Nat.pred (String.length needle))) | specialize (IH O)]; lia.
Qed.

(** A text that holds the needle counts at least one occurrence. *)
Lemma count_contains needle hay :
  contains needle hay = true -> needle <> EmptyString -> 1 <= count needle hay.
Proof.
  unfold count. intros H Hne. induction hay as [|c hay IH].
  - destruct needle; [contradiction | discriminate].
  - cbn [contains count_from] in H |- *. destruct (prefix needle (String c hay)).
    + pose proof (count_from_nonneg needle hay (Nat.pred (String.length needle))). lia.
    + now apply IH.
Qed.

(** Occurrences in the text after a counted one still count. *)
Lemma count_from_after needle w v skip :
  (skip <= String.length w)%nat ->
  contains needle v = true -> needle <> EmptyString ->
  1 <= count_from needle (w ++ v) skip.
Proof.
  intros Hskip Hv Hne. revert skip Hskip.
  induction w as [|c w IH]; intros skip Hskip;
    cbn [String.length append count_from] in Hskip |- *.
  - replace skip with O by lia. now apply count_contains.
  - destruct skip as [|k].
    + destruct (prefix needle (String c (w ++ v))).
      * pose proof (count_from_nonneg needle (w ++ v) (Nat.pred (String.length needle))).
        lia.
      * apply IH. lia.
    + apply IH. lia.
Qed.

(** A text that holds the needle in each of two parts counts two. *)
Lemma count_two needle u v :
  contains needle u = true -> contains needle v = true -> needle <> EmptyString ->
  2 <= count needle (u ++ v).
Proof.
  unfold count. intros Hu Hv Hne. induction u as [|c u IH].
  - destruct needle; [contradiction | discriminate].
  - cbn [append count_from].
    destruct (prefix needle (String c (u ++ v))) eqn:Hp.
    + pose proof (contains_length _ _ Hu) as Hlen. cbn in Hlen.
      assert (1 <= count_from needle (u ++ v) (Nat.pred (String.length needle))).
      { apply count_from_after; auto.
        destruct needle; [contradiction|]. cbn in Hlen |- *. lia. }
      lia.
    + apply IH. cbn [contains] in Hu.
      destruct (prefix needle (String c u)) eqn:Hpu; [|exact Hu].
      change (String c (u ++ v)) with (String c u ++ v)%string in Hp.
      rewrite (prefix_app _ _ v Hpu) in Hp. discriminate.
Qed.

Lemma rstrip_cons c s :
  is_space c = false -> rstrip (String c s) = String c (rstrip s).
Proof. intros H. cbn. rewrite H. now destruct (rstrip s). Qed.

(** Stripping keeps a prefix that holds no white space. *)
Lemma strip_keeps_prefix p s :
  all_chars (fun c => negb (is_space c)) p = true -> p <> EmptyString ->
  prefix p s = true -> prefix p (strip s) = true.
Proof.
  intros Hp Hne H. destruct (prefix_split p s H) as [rest ->]. clear H.
  unfold strip. destruct p as [|a p]; [contradiction|].
  cbn in Hp. apply andb_prop in Hp as [Ha Hp]. apply negb_true_iff in Ha.
  cbn [append lstrip]. rewrite Ha.
  change (String a (p ++ rest)) with (String a p ++ rest)%string.
  assert (Hr : forall q, all_chars (fun c => negb (is_space c)) q = true ->
                         rstrip (q ++ rest) = (q ++ rstrip rest)%string).
  { induction q as [|b q IH]; cbn; [reflexivity|]. intros Hq.
    apply andb_prop in Hq as [Hb Hq]. apply negb_true_iff in Hb.
    rewrite Hb. rewrite (IH Hq). now destruct (q ++ rstrip rest)%string. }
  rewrite (Hr (String a p)) by (cbn; now rewrite Ha, Hp).
  apply prefix_refl_app.
Qed.

(** ** More on turns *)

Lemma decide_action_in_vocabulary response :
  In (MainAgent.decide_action (Returns response)) vocabulary.
Proof.
  unfold MainAgent.decide_action, vocabulary.
  destruct (in_list (upper (strip response)) ["CONTINUE"; "SCHEDULE"; "END"]) eqn:E.
  - unfold in_list in E. apply existsb_exists in E as (x & Hx & Heq).
    apply String.eqb_eq in Heq. now subst x.
  - destruct (contains "CONTINUE" _); [cbn; auto|].
    destruct (contains "SCHEDULE" _); [cbn; auto|].
    destruct (contains "END" _); cbn; auto.
Qed.

Lemma validate_in_vocabulary self u h w a :
  In a vocabulary -> In (fst (validate self u h w a)) vocabulary.
Proof.
  intros Ha. rewrite validate_action. cbv zeta.
  repeat match goal with
         | |- context [if ?c then _ else _] => destruct c
         end; cbn; auto.
Qed.

(** When the main agent's call returns, whatever text it returns, the action
    a turn returns is CONTINUE, SCHEDULE or END. *)
Theorem process_turn_action_in_vocabulary :
  forall self user_input history ts w text response action,
    main_llm w = Returns text ->
    snd (process_turn self user_input history ts w) = Returns (response, action) ->
    In action vocabulary.
Proof.
  intros self u hist ts w text response action Hmain Hr.
  apply process_turn_action in Hr. cbv zeta in Hr. rewrite Hmain in Hr.
  destruct Hr as [-> | (_ & -> & _)].
  - apply validate_in_vocabulary, decide_action_in_vocabulary.
  - cbn. auto.
Qed.

Lemma process_turn_action_in_vocabulary_witness :
  In "CONTINUE" vocabulary.
Proof.
  exact (process_turn_action_in_vocabulary Scenario.new_bot "I like coding"
           Scenario.greeting None (Scenario.world (Returns "I think continue") "CONTINUE")
           "I think continue" Scenario.screening_reply "CONTINUE" eq_refl eq_refl).
Defined.

(** A turn raises exactly when its validated action is CONTINUE, the message
    asks for information and the retrieval of context raises, or when its
    validated action is SCHEDULE and the scheduling advisor raises.  The bot
    then keeps the turn's screening update: nothing is rolled back. *)
Theorem process_turn_raises_exactly :
  forall self user_input history ts w,
    let self1 := _update_screening_progress self user_input in
    let h := (history ++ nl ++ "Candidate: " ++ user_input)%string in
    let action := fst (validate self1 user_input h w (MainAgent.decide_action (main_llm w))) in
    let r := process_turn self user_input history ts w in
    (forall e,
       snd r = Raises e
       <-> (action = "CONTINUE" /\ InfoAdvisor.needs_info_retrieval user_input = true
            /\ info_context w = Raises e)
           \/ (action = "SCHEDULE"
               /\ SchedulingAdvisor.handle_scheduling (scheduling w) = Raises e))
    /\ (forall e, snd r = Raises e -> fst (fst r) = self1).
Proof.
  intros self u hist ts w. cbv zeta. unfold process_turn.
  destruct (validate _ _ _ _ _) as [a vcalls]. cbn [fst].
  case_eqb a "CONTINUE".
  - subst a. destruct (InfoAdvisor.needs_info_retrieval u).
    + unfold InfoAdvisor.generate_response.
      destruct (info_context w) as [c|e0]; cbn [bind fst snd].
      * destruct (info_llm w); cbn [bind snd];
          (split; [|intros e H; discriminate H]); intros e;
          (split; [intros H; discriminate H|]);
          intros [(_ & _ & H) | (H & _)]; discriminate H.
      * split; [|reflexivity]. intros e. split.
        -- intros [= ->]. left. auto.
        -- intros [(_ & _ & [= ->]) | (H & _)]; [reflexivity | discriminate H].
    + cbn [fst snd]. split; [|intros e H; discriminate H].
      intros e. split; [intros H; discriminate H|].
      intros [(_ & H & _) | (H & _)]; discriminate H.
  - case_eqb a "SCHEDULE".
    + subst a.
      destruct (SchedulingAdvisor.handle_scheduling (scheduling w)) as [[resp booked]|e0];
        cbn [fst snd].
      * split; [|intros e H; discriminate H]. intros e.
        split; [intros H; discriminate H|].
        intros [(H & _) | (_ & H)]; discriminate H.
      * split; [|reflexivity]. intros e. split.
        -- intros [= ->]. right. auto.
        -- intros [(H & _) | (_ & [= ->])]; [discriminate H | reflexivity].
    + case_eqb a "END"; cbn [fst snd];
        (split; [|intros e H; discriminate H]); intros e;
        (split; [intros H; discriminate H|]);
        intros [(H & _) | (H & _)]; congruence.
Qed.

(** The counter and the flag agree in every state a bot can be in: screening
    is complete exactly when at least two signals were counted, and the count
    is never negative. *)
Theorem screening_complete_iff_two_signals :
  forall self,
    reachable self ->
    0 <= screening_details_collected self
    /\ (screening_complete self = true <-> 2 <= screening_details_collected self).
Proof.
  intros self H. induction H as [now | self s _ IH].
  - cbn. split; [lia|]. split; [discriminate | lia].
  - destruct s as [u hist ts w | now]; cbn [step].
    + assert (Hupd : 0 <= screening_details_collected (_update_screening_progress self u)
                     /\ (screening_complete (_update_screening_progress self u) = true
                         <-> 2 <= screening_details_collected
                                   (_update_screening_progress self u))).
      { pose proof (update_counter_grows self u) as Hgrow.
        destruct IH as [Hpos Hiff]. split; [lia|].
        revert Hgrow. unfold _update_screening_progress.
        cbn [screening_details_collected screening_complete].
        generalize (if any_in tech_keywords (lower u)
                    then (if any_in exp_keywords (lower u) && has_digit u
                          then screening_details_collected self + 1
                          else screening_details_collected self) + 1
                    else (if any_in exp_keywords (lower u) && has_digit u
                          then screening_details_collected self + 1
                          else screening_details_collected self)).
        intros n Hgrow. destruct (Z.geb_spec n 2) as [Hge | Hlt].
        - split; [lia | reflexivity].
        - split; [|lia]. intros Hc. apply Hiff in Hc. lia. }
      destruct (process_turn_bot self u hist ts w) as [-> | [_ [b ->]]]; exact Hupd.
    + cbn. split; [lia|]. split; [discriminate | lia].
Qed.

Lemma screening_complete_iff_two_signals_witness :
  2 <= screening_details_collected (run Scenario.new_bot Scenario.booked_conversation).
Proof.
  apply (screening_complete_iff_two_signals
           (run Scenario.new_bot Scenario.booked_conversation)).
  - apply reachable_run. apply reachable_init.
  - reflexivity.
Defined.

(** On a turn the main agent labels SCHEDULE while screening is complete, the
    exit advisor is not asked, the scheduling advisor is called once, and the
    bot's booked flag becomes what the advisor reports, also when it was true
    before: a scheduling turn that books nothing un-books.  A booking makes
    the turn's action END. *)
Theorem scheduling_turn_sets_booked :
  forall self user_input history ts w response booked,
    MainAgent.decide_action (main_llm w) = "SCHEDULE" ->
    screening_complete (_update_screening_progress self user_input) = true ->
    SchedulingAdvisor.handle_scheduling (scheduling w) = Returns (response, booked) ->
    let h := (history ++ nl ++ "Candidate: " ++ user_input)%string in
    process_turn self user_input history ts w
    = (set_booked (_update_screening_progress self user_input) booked,
       [decide_action_call h;
        handle_scheduling_call user_input h
          (timestamp_or ts (conversation_start self))],
       Returns (response, if booked then "END" else "SCHEDULE")).
Proof.
  intros self u hist ts w response booked Hten Hsc Hsched. cbv zeta.
  unfold process_turn. rewrite Hten, validate_schedule, Hsc.
  cbn [String.eqb Ascii.eqb Bool.eqb app]. rewrite Hsched. reflexivity.
Qed.

Lemma scheduling_turn_sets_booked_witness :
  is_interview_booked
    (fst (fst (process_turn (run Scenario.new_bot Scenario.booked_conversation)
                 "Which other times do you have?" Scenario.greeting None
                 (with_main_llm Scenario.screening_down_world (Returns "SCHEDULE")))))
  = false.
Proof.
  rewrite (scheduling_turn_sets_booked
             (run Scenario.new_bot Scenario.booked_conversation)
             "Which other times do you have?" Scenario.greeting None
             (with_main_llm Scenario.screening_down_world (Returns "SCHEDULE"))
             (fst Scenario.slots_offer) false eq_refl eq_refl eq_refl).
  reflexivity.
Defined.

(** [decide_action] on a returned text is the containment cascade alone:
    CONTINUE when the upper-cased, stripped text holds CONTINUE, else SCHEDULE
    when it holds SCHEDULE, else END when it holds END, else CONTINUE.  The
    exact-match test never decides otherwise. *)
Theorem decide_action_cascade :
  forall response,
    MainAgent.decide_action (Returns response) =
      let action := upper (strip response) in
      if contains "CONTINUE" action then "CONTINUE"
      else if contains "SCHEDULE" action then "SCHEDULE"
      else if contains "END" action then "END"
      else "CONTINUE".
Proof.
  intros response. unfold MainAgent.decide_action. cbv zeta.
  destruct (in_list (upper (strip response)) ["CONTINUE"; "SCHEDULE"; "END"]) eqn:E;
    [|reflexivity].
  unfold in_list in E. apply existsb_exists in E as (x & Hx & Heq).
  apply String.eqb_eq in Heq. subst x.
  destruct Hx as [<- | [<- | [<- | []]]]; reflexivity.
Qed.

(** ** Disengagement *)

Lemma disengaged_word_found word user_lower :
  In word disengaged -> contains word user_lower = true ->
  any_in disengaged user_lower = true.
Proof.
  intros Hin Hc. unfold any_in. apply existsb_exists. exists word. auto.
Qed.

(** A message that starts with "nope", in any case, is disengaged in the
    turn that brings it, whatever was said before: the history the check
    reads already holds the message, and its line counts for both phrases
    counted.  So when the main agent says CONTINUE and the exit advisor
    agrees to end, the validated action is END. *)
Theorem nope_is_disengaged_at_once :
  forall self history user_input w,
    prefix "nope" (lower user_input) = true ->
    let h := (history ++ nl ++ "Candidate: " ++ user_input)%string in
    _is_disengaged user_input h = true
    /\ (MainAgent.decide_action (main_llm w) = "CONTINUE" ->
        ExitAdvisor.should_exit (exit_llm_disengaged w) = true ->
        fst (validate self user_input h w (MainAgent.decide_action (main_llm w)))
        = "END").
Proof.
  intros self history u w Hp. cbv zeta.
  assert (Hdis : _is_disengaged u (history ++ nl ++ "Candidate: " ++ u)%string = true).
  { unfold _is_disengaged.
    assert (Hword : any_in disengaged (strip (lower u)) = true).
    { apply (disengaged_word_found "nope"); [cbn; auto|].
      apply prefix_contains. apply strip_keeps_prefix; [reflexivity | discriminate | exact Hp]. }
    rewrite Hword. cbn [andb].
    destruct (prefix_split _ _ Hp) as [rest Hrest].
    assert (Hline : forall needle,
               prefix needle "candidate: nope" = true -> needle <> EmptyString ->
               1 <= count needle (lower (history ++ nl ++ "Candidate: " ++ u))).
    { intros needle Hneedle Hne. apply count_contains; [|exact Hne].
      rewrite !lower_app, Hrest. apply contains_app_r, contains_app_r.
      apply prefix_contains.
      change (lower "Candidate: " ++ "nope" ++ rest)%string
        with ("candidate: nope" ++ rest)%string.
      now apply prefix_app. }
    pose proof (Hline "candidate: no" eq_refl ltac:(discriminate)) as H1.
    pose proof (Hline "candidate: nope" eq_refl ltac:(discriminate)) as H2.
    destruct (Z.geb_spec (count "candidate: no" (lower (history ++ nl ++ "Candidate: " ++ u))
                          + count "candidate: nope"
                              (lower (history ++ nl ++ "Candidate: " ++ u))) 2);
      [reflexivity | lia]. }
  split; [exact Hdis|].
  intros Hten Hexit. rewrite validate_action. cbv zeta.
  rewrite Hten, Hdis, Hexit. reflexivity.
Qed.

Lemma nope_is_disengaged_at_once_witness :
  _is_disengaged "Nope, sorry"
    (Scenario.greeting ++ nl ++ "Candidate: " ++ "Nope, sorry")%string = true.
Proof.
  exact (proj1 (nope_is_disengaged_at_once Scenario.new_bot Scenario.greeting
                  "Nope, sorry" (Scenario.world (Returns "CONTINUE") "END") eq_refl)).
Defined.

(** ** The callers *)

Lemma process_turn_first_call self u hist ts w :
  exists rest,
    snd (fst (process_turn self u hist ts w))
    = decide_action_call (hist ++ nl ++ "Candidate: " ++ u)%string :: rest.
Proof.
  unfold process_turn. destruct (validate _ _ _ _ _) as [a vcalls].
  case_eqb a "CONTINUE";
    [ destruct (InfoAdvisor.needs_info_retrieval u)
    | case_eqb a "SCHEDULE";
      [ destruct (SchedulingAdvisor.handle_scheduling (scheduling w)) as [[? ?]|?]
      | case_eqb a "END" ] ];
    cbn [fst snd app]; eexists; reflexivity.
Qed.

Lemma process_turn_raise_keeps_update self u hist ts w e :
  snd (process_turn self u hist ts w) = Raises e ->
  fst (fst (process_turn self u hist ts w)) = _update_screening_progress self u.
Proof.
  unfold process_turn. destruct (validate _ _ _ _ _) as [a vcalls].
  case_eqb a "CONTINUE";
    [ destruct (InfoAdvisor.needs_info_retrieval u)
    | case_eqb a "SCHEDULE";
      [ destruct (SchedulingAdvisor.handle_scheduling (scheduling w)) as [[? ?]|?]
      | case_eqb a "END" ] ];
    cbn [fst snd]; intros H; (reflexivity || discriminate H).
Qed.

Lemma format_history_last (messages : list StreamlitApp.Message) m :
  exists pre,
    StreamlitApp.format_history (messages ++ [m])
    = (pre ++ StreamlitApp.speaker_line m)%string.
Proof.
  unfold StreamlitApp.format_history.
  induction messages as [|x messages (pre & IH)]; cbn [app map].
  - exists EmptyString. reflexivity.
  - destruct (messages ++ [m])%list as [|y rest] eqn:Hrest.
    + destruct messages; discriminate.
    + cbn [map String.concat] in IH |- *.
      exists (StreamlitApp.speaker_line x ++ nl ++ pre)%string.
      rewrite IH. now rewrite !append_assoc.
Qed.

(** In the Streamlit chat the prompt is appended to the messages before the
    history is built, and the bot appends it again: the history the advisors
    read ends with the candidate's line twice.  So a prompt that starts with
    "no", in any case, is disengaged the first time it is said. *)
Theorem streamlit_prompt_counts_twice :
  forall (s : StreamlitApp.Session) prompt w,
    prompt <> EmptyString ->
    exists pre rest,
      snd (StreamlitApp.submit s prompt w)
      = decide_action_call
          (pre ++ "Candidate: " ++ prompt ++ nl ++ "Candidate: " ++ prompt)%string
        :: rest
      /\ (prefix "no" (lower prompt) = true ->
          _is_disengaged prompt
            (pre ++ "Candidate: " ++ prompt ++ nl ++ "Candidate: " ++ prompt)%string
          = true).
Proof.
  intros s prompt w Hne.
  destruct (format_history_last (StreamlitApp.messages s)
              (StreamlitApp.mkMessage "user" prompt)) as [pre Hpre].
  destruct (process_turn_first_call (StreamlitApp.bot s) prompt
              (StreamlitApp.format_history
                 (StreamlitApp.messages s ++ [StreamlitApp.mkMessage "user" prompt]))
              None w) as [rest Hcall].
  exists pre, rest. split.
  - unfold StreamlitApp.submit. apply String.eqb_neq in Hne. rewrite Hne.
    destruct (process_turn _ _ _ _ _) as [[bot' calls] [[response action]|e]];
      cbn [fst snd] in Hcall |- *; rewrite Hcall, Hpre;
      unfold StreamlitApp.speaker_line; cbn [StreamlitApp.role StreamlitApp.content];
      cbn [String.eqb Ascii.eqb Bool.eqb]; now rewrite !append_assoc.
  - intros Hp. unfold _is_disengaged.
    assert (Hword : any_in disengaged (strip (lower prompt)) = true).
    { apply (disengaged_word_found "no"); [cbn; auto|].
      apply prefix_contains.
      apply strip_keeps_prefix; [reflexivity | discriminate | exact Hp]. }
    rewrite Hword. cbn [andb].
    destruct (prefix_split _ _ Hp) as [tail Htail].
    assert (Hline : forall lead,
               contains "candidate: no" (lower (lead ++ "Candidate: " ++ prompt)) = true).
    { intros lead. rewrite !lower_app, Htail. apply contains_app_r.
      apply prefix_contains.
      change (lower "Candidate: " ++ "no" ++ tail)%string
        with ("candidate: no" ++ tail)%string.
      apply prefix_refl_app. }
    assert (Htwo : 2 <= count "candidate: no"
                          (lower (pre ++ "Candidate: " ++ prompt ++ nl
                                  ++ "Candidate: " ++ prompt))).
    { replace (pre ++ "Candidate: " ++ prompt ++ nl ++ "Candidate: " ++ prompt)%string
        with ((pre ++ "Candidate: " ++ prompt) ++ (nl ++ "Candidate: " ++ prompt))%string
        by (now rewrite !append_assoc).
      rewrite lower_app. apply count_two; [apply Hline | apply Hline | discriminate]. }
    pose proof (count_from_nonneg "candidate: nope"
                  (lower (pre ++ "Candidate: " ++ prompt ++ nl ++ "Candidate: " ++ prompt))
                  O) as Hnope.
    fold (count "candidate: nope"
            (lower (pre ++ "Candidate: " ++ prompt ++ nl ++ "Candidate: " ++ prompt)))
      in Hnope.
    destruct (Z.geb_spec (count "candidate: no"
                            (lower (pre ++ "Candidate: " ++ prompt ++ nl
                                    ++ "Candidate: " ++ prompt))
                          + count "candidate: nope"
                              (lower (pre ++ "Candidate: " ++ prompt ++ nl
                                      ++ "Candidate: " ++ prompt))) 2);
      [reflexivity | lia].
Qed.

Lemma streamlit_prompt_counts_twice_witness :
  exists pre rest,
    snd (StreamlitApp.submit (StreamlitApp.start "2024-06-10T09:00:00") "No"
           (Scenario.world (Returns "CONTINUE") "END"))
    = decide_action_call (pre ++ "Candidate: No" ++ nl ++ "Candidate: No")%string :: rest.
Proof.
  destruct (streamlit_prompt_counts_twice (StreamlitApp.start "2024-06-10T09:00:00")
              "No" (Scenario.world (Returns "CONTINUE") "END") ltac:(discriminate))
    as (pre & rest & Hcall & _).
  exists pre, rest. exact Hcall.
Defined.

(** In the console chat the same first "No" is not disengaged: the history
    holds the line once. *)
Remark console_first_no_is_engaged :
  _is_disengaged "No"
    (ConsoleChat.history (ConsoleChat.start "2024-06-10T09:00:00")
     ++ nl ++ "Candidate: " ++ "No")%string = false
  /\ _is_disengaged "No"
       (StreamlitApp.format_history
          (StreamlitApp.messages (StreamlitApp.start "2024-06-10T09:00:00")
           ++ [StreamlitApp.mkMessage "user" "No"])
        ++ nl ++ "Candidate: " ++ "No")%string = true.
Proof. split; vm_compute; reflexivity. Qed.

Lemma render_app ex1 ex2 :
  ConsoleChat.render (ex1 ++ ex2) = (ConsoleChat.render ex1 ++ ConsoleChat.render ex2)%string.
Proof.
  induction ex1 as [|[u r] ex1 IH]; cbn [app ConsoleChat.render]; [reflexivity|].
  rewrite IH. now rewrite !append_assoc.
Qed.

Lemma append_nil_r (s : string) : (s ++ "")%string = s.
Proof. induction s as [|c s IH]; cbn; [reflexivity|]. now rewrite IH. Qed.

Lemma console_step_keeps_invariant s line now w :
  console_invariant s -> console_invariant (ConsoleChat.step s line now w).
Proof.
  intros [Hreach (exchanges & Hhist)]. unfold ConsoleChat.step.
  destruct (strip line =? "")%string; [split; eauto|].
  destruct (in_list (lower (strip line)) ["quit"; "exit"]); [split; eauto|].
  destruct (lower (strip line) =? "reset")%string.
  - split.
    + exact (reachable_step _ (Reset now) Hreach).
    + exists []. cbn [ConsoleChat.history ConsoleChat.render]. now rewrite append_nil_r.
  - pose proof (reachable_step _ (Turn (strip line) (ConsoleChat.history s) None w) Hreach)
      as Hstep. cbn [step] in Hstep.
    destruct (process_turn _ _ _ _ _) as [[bot' calls] [[response action]|e]];
      cbn [fst] in Hstep; split; cbn [ConsoleChat.bot ConsoleChat.history];
      try exact Hstep; [|eauto].
    exists (exchanges ++ [(strip line, response)])%list.
    rewrite Hhist, render_app. cbn [ConsoleChat.render].
    rewrite (append_nil_r response). now rewrite !append_assoc.
Qed.

(** A console session, whatever is typed and whatever the advisors answer:
    the bot it holds is always in a reachable state, and its history is the
    greeting line followed by candidate/recruiter exchanges, appended in
    order and never altered except that [reset] empties them. *)
Theorem console_session_well_formed :
  forall now lines,
    let s := ConsoleChat.run (ConsoleChat.start now) lines in
    reachable (ConsoleChat.bot s)
    /\ exists exchanges,
         ConsoleChat.history s
         = ("Recruiter: " ++ ConsoleChat.greeting ++ ConsoleChat.render exchanges)%string.
Proof.
  intros now lines. cbv zeta.
  assert (Hstart : console_invariant (ConsoleChat.start now)).
  { split; [apply reachable_init|]. exists []. reflexivity. }
  revert Hstart. generalize (ConsoleChat.start now).
  induction lines as [|[[line now'] w] lines IH]; intros s Hs; cbn [ConsoleChat.run].
  - exact Hs.
  - destruct (ConsoleChat.running s); [|exact Hs].
    apply IH. now apply console_step_keeps_invariant.
Qed.

(** When a turn raises in the console chat, the message is not added to the
    history, but the bot keeps the screening signals it counted in it: the
    same message, typed again, is counted again. *)
Theorem console_failed_turn_keeps_progress :
  forall (s : ConsoleChat.Session) line now w e,
    strip line <> EmptyString ->
    in_list (lower (strip line)) ["quit"; "exit"; "reset"] = false ->
    snd (process_turn (ConsoleChat.bot s) (strip line) (ConsoleChat.history s) None w)
    = Raises e ->
    ConsoleChat.step s line now w
    = ConsoleChat.mkSession
        (_update_screening_progress (ConsoleChat.bot s) (strip line))
        (ConsoleChat.history s) true.
Proof.
  intros s line now w e Hne Hcmd Hraise. unfold ConsoleChat.step.
  apply String.eqb_neq in Hne. rewrite Hne.
  unfold in_list in Hcmd |- *. cbn [existsb] in Hcmd |- *.
  apply orb_false_elim in Hcmd as [Hquit Hcmd].
  apply orb_false_elim in Hcmd as [Hexit Hcmd].
  apply orb_false_elim in Hcmd as [Hreset _].
  rewrite Hquit, Hexit, Hreset. cbn [orb].
  pose proof (process_turn_raise_keeps_update (ConsoleChat.bot s) (strip line)
                (ConsoleChat.history s) None w e Hraise) as Hbot.
  destruct (process_turn _ _ _ _ _) as [[bot' calls] [[response action]|e']];
    cbn [fst snd] in Hraise, Hbot; [discriminate|]. now subst bot'.
Qed.

Lemma console_failed_turn_keeps_progress_witness :
  let line := "I have 5 years of experience. What is the salary?" in
  let s1 := ConsoleChat.step (ConsoleChat.start "2024-06-10T09:00:00") line
              "2024-06-10T09:00:00" Scenario.retrieval_down_world in
  ConsoleChat.history s1 = ("Recruiter: " ++ ConsoleChat.greeting)%string
  /\ screening_details_collected (ConsoleChat.bot s1) = 1.
Proof.
  cbv zeta.
  rewrite (console_failed_turn_keeps_progress
             (ConsoleChat.start "2024-06-10T09:00:00")
             "I have 5 years of experience. What is the salary?"
             "2024-06-10T09:00:00" Scenario.retrieval_down_world "Connection error."
             ltac:(discriminate) eq_refl eq_refl).
  split; reflexivity.
Defined.

(** Typed twice while the retrieval is down, one message with one signal
    completes the screening. *)
Remark console_retry_counts_twice :
  let line := "I have 5 years of experience. What is the salary?" in
  let s1 := ConsoleChat.step (ConsoleChat.start "2024-06-10T09:00:00") line
              "2024-06-10T09:00:00" Scenario.retrieval_down_world in
  let s2 := ConsoleChat.step s1 line "2024-06-10T09:00:00" Scenario.retrieval_down_world in
  screening_details_collected (ConsoleChat.bot s2) = 2
  /\ screening_complete (ConsoleChat.bot s2) = true
  /\ ConsoleChat.history s2 = ("Recruiter: " ++ ConsoleChat.greeting)%string.
Proof. cbv zeta. repeat split. Qed.

(** ** The slot a confirmation books *)

Lemma length_app (s t : string) :
  String.length (s ++ t) = (String.length s + String.length t)%nat.
Proof. induction s as [|c s IH]; cbn; [reflexivity|]. now rewrite IH. Qed.

Lemma pattern_char_digit b :
  SchedulingAdvisor.is_pattern_char b = false -> is_digit b = false.
Proof.
  unfold SchedulingAdvisor.is_pattern_char. intros H.
  repeat (apply orb_false_elim in H as [H _]). exact H.
Qed.

Lemma pattern_char_space b :
  SchedulingAdvisor.is_pattern_char b = false -> is_space b = false.
Proof.
  unfold SchedulingAdvisor.is_pattern_char. intros H.
  repeat (apply orb_false_elim in H as [H ?]). assumption.
Qed.

Lemma pattern_char_literal b x :
  SchedulingAdvisor.is_pattern_char b = false ->
  In x ["-"; "a"; "t"; ":"]%char -> Ascii.eqb b x = false.
Proof.
  unfold SchedulingAdvisor.is_pattern_char. intros H Hin.
  repeat (apply orb_false_elim in H as [H ?]).
  cbn [In] in Hin. intuition (subst; assumption).
Qed.

(** *** Each part of the pattern, on a text that goes on *)

Lemma take_digits_ext n x y ds r :
  SchedulingAdvisor.take_digits n x = Some (ds, r) ->
  SchedulingAdvisor.take_digits n (x ++ y) = Some (ds, (r ++ y)%string).
Proof.
  revert x ds r. induction n as [|n IH]; intros x ds r H; cbn in H |- *.
  - now inversion H.
  - destruct x as [|c x]; [discriminate|]. cbn [append].
    destruct (is_digit c); [|discriminate].
    destruct (SchedulingAdvisor.take_digits n x) as [[ds' r']|] eqn:E; [|discriminate].
    rewrite (IH _ _ _ E). cbn in H |- *. now inversion H.
Qed.

Lemma take_digits_barrier n x b rest ds r :
  is_digit b = false ->
  SchedulingAdvisor.take_digits n (x ++ String b rest) = Some (ds, r) ->
  exists r', SchedulingAdvisor.take_digits n x = Some (ds, r')
             /\ r = (r' ++ String b rest)%string.
Proof.
  intros Hb. revert x ds r. induction n as [|n IH]; intros x ds r H; cbn in H |- *.
  - inversion H. now exists x.
  - destruct x as [|c x]; cbn [append] in H.
    + now rewrite Hb in H.
    + destruct (is_digit c); [|discriminate].
      destruct (SchedulingAdvisor.take_digits n (x ++ String b rest))
        as [[ds' r0]|] eqn:E; [|discriminate].
      destruct (IH _ _ _ E) as (r' & E' & ->). rewrite E'.
      cbn in H |- *. inversion H. now exists r'.
Qed.

Lemma take_char_ext c x y r :
  SchedulingAdvisor.take_char c x = Some r ->
  SchedulingAdvisor.take_char c (x ++ y) = Some (r ++ y)%string.
Proof.
  destruct x as [|a x]; cbn; [discriminate|].
  destruct (Ascii.eqb a c); [|discriminate]. intros H. now inversion H.
Qed.

Lemma take_char_barrier c x b rest r :
  Ascii.eqb b c = false ->
  SchedulingAdvisor.take_char c (x ++ String b rest) = Some r ->
  exists r', SchedulingAdvisor.take_char c x = Some r'
             /\ r = (r' ++ String b rest)%string.
Proof.
  intros Hb. destruct x as [|a x]; cbn.
  - now rewrite Hb.
  - destruct (Ascii.eqb a c); [|discriminate]. intros H. inversion H. now exists x.
Qed.

Lemma lstrip_ext t y :
  lstrip t <> EmptyString -> lstrip (t ++ y) = (lstrip t ++ y)%string.
Proof.
  induction t as [|c t IH]; cbn; [congruence|].
  destruct (is_space c); [exact IH|reflexivity].
Qed.

Lemma lstrip_barrier t b rest :
  is_space b = false ->
  lstrip (t ++ String b rest) = (lstrip t ++ String b rest)%string.
Proof.
  intros Hb. induction t as [|c t IH]; cbn.
  - now rewrite Hb.
  - destruct (is_space c); [exact IH|reflexivity].
Qed.

Lemma take_spaces_ext x y r :
  SchedulingAdvisor.take_spaces x = Some r -> r <> EmptyString ->
  SchedulingAdvisor.take_spaces (x ++ y) = Some (r ++ y)%string.
Proof.
  destruct x as [|c x]; cbn; [discriminate|].
  destruct (is_space c); [|discriminate]. intros H Hr. inversion H; subst r.
  now rewrite lstrip_ext.
Qed.

Lemma take_spaces_barrier x b rest r :
  is_space b = false ->
  SchedulingAdvisor.take_spaces (x ++ String b rest) = Some r ->
  exists r', SchedulingAdvisor.take_spaces x = Some r'
             /\ r = (r' ++ String b rest)%string.
Proof.
  intros Hb. destruct x as [|c x]; cbn.
  - now rewrite Hb.
  - destruct (is_space c); [|discriminate]. intros H. inversion H.
    exists (lstrip x). now rewrite lstrip_barrier.
Qed.

(** *** A match, on a text that goes on *)

Ltac step_digits H :=
  match type of H with
  | SchedulingAdvisor.and_then (SchedulingAdvisor.take_digits ?n ?x) _ = Some _ =>
      let E := fresh "E" in
      destruct (SchedulingAdvisor.take_digits n x) as [[? ?]|] eqn:E;
      [cbn [SchedulingAdvisor.and_then] in H|discriminate H]
  | SchedulingAdvisor.and_then (SchedulingAdvisor.take_char ?c ?x) _ = Some _ =>
      let E := fresh "E" in
      destruct (SchedulingAdvisor.take_char c x) as [?|] eqn:E;
      [cbn [SchedulingAdvisor.and_then] in H|discriminate H]
  | SchedulingAdvisor.and_then (SchedulingAdvisor.take_spaces ?x) _ = Some _ =>
      let E := fresh "E" in
      destruct (SchedulingAdvisor.take_spaces x) as [?|] eqn:E;
      [cbn [SchedulingAdvisor.and_then] in H|discriminate H]
  end.

Lemma take_char_nonempty c r r' :
  SchedulingAdvisor.take_char c r = Some r' -> r <> EmptyString.
Proof. destruct r; cbn; [discriminate|congruence]. Qed.

Lemma take_digits_nonempty n r p :
  SchedulingAdvisor.take_digits (S n) r = Some p -> r <> EmptyString.
Proof. destruct r; cbn; [discriminate|congruence]. Qed.

Lemma match_slot_at_ext x y d t r :
  SchedulingAdvisor.match_slot_at x = Some (d, t, r) ->
  SchedulingAdvisor.match_slot_at (x ++ y) = Some (d, t, r ++ y).
Proof.
  unfold SchedulingAdvisor.match_slot_at. intros H.
  repeat step_digits H.
  repeat match goal with
  | E : SchedulingAdvisor.take_digits _ _ = Some _ |- _ =>
      rewrite (take_digits_ext _ _ y _ _ E); cbn [SchedulingAdvisor.and_then]; clear E
  | E : SchedulingAdvisor.take_char _ _ = Some _ |- _ =>
      rewrite (take_char_ext _ _ y _ E); cbn [SchedulingAdvisor.and_then]; clear E
  | E : SchedulingAdvisor.take_spaces ?a = Some ?b,
    E' : SchedulingAdvisor.take_char _ ?b = Some _ |- _ =>
      rewrite (take_spaces_ext _ y _ E (take_char_nonempty _ _ _ E'));
      cbn [SchedulingAdvisor.and_then]; clear E
  | E : SchedulingAdvisor.take_spaces ?a = Some ?b,
    E' : SchedulingAdvisor.take_digits (S _) ?b = Some _ |- _ =>
      rewrite (take_spaces_ext _ y _ E (take_digits_nonempty _ _ _ E'));
      cbn [SchedulingAdvisor.and_then]; clear E
  end.
  now inversion H.
Qed.

Ltac barrier_step Hb H :=
  match type of H with
  | SchedulingAdvisor.and_then
      (SchedulingAdvisor.take_digits ?n (?x ++ String ?b ?rest)) _ = Some _ =>
      let E := fresh "E" in let r' := fresh "r" in let E' := fresh "E" in
      destruct (SchedulingAdvisor.take_digits n (x ++ String b rest))
        as [[? ?]|] eqn:E; [cbn [SchedulingAdvisor.and_then] in H|discriminate H];
      destruct (take_digits_barrier _ _ _ _ _ _ (pattern_char_digit _ Hb) E)
        as (r' & E' & ->);
      rewrite E'; cbn [SchedulingAdvisor.and_then]; clear E E'
  | SchedulingAdvisor.and_then
      (SchedulingAdvisor.take_char ?c (?x ++ String ?b ?rest)) _ = Some _ =>
      let E := fresh "E" in let r' := fresh "r" in let E' := fresh "E" in
      destruct (SchedulingAdvisor.take_char c (x ++ String b rest))
        as [?|] eqn:E; [cbn [SchedulingAdvisor.and_then] in H|discriminate H];
      destruct (take_char_barrier _ _ _ _ _
                  (pattern_char_literal _ c Hb ltac:(cbn [In]; tauto)) E)
        as (r' & E' & ->);
      rewrite E'; cbn [SchedulingAdvisor.and_then]; clear E E'
  | SchedulingAdvisor.and_then
      (SchedulingAdvisor.take_spaces (?x ++ String ?b ?rest)) _ = Some _ =>
      let E := fresh "E" in let r' := fresh "r" in let E' := fresh "E" in
      destruct (SchedulingAdvisor.take_spaces (x ++ String b rest))
        as [?|] eqn:E; [cbn [SchedulingAdvisor.and_then] in H|discriminate H];
      destruct (take_spaces_barrier _ _ _ _ (pattern_char_space _ Hb) E)
        as (r' & E' & ->);
      rewrite E'; cbn [SchedulingAdvisor.and_then]; clear E E'
  end.

Lemma match_slot_at_barrier x b rest d t r :
  SchedulingAdvisor.is_pattern_char b = false ->
  SchedulingAdvisor.match_slot_at (x ++ String b rest) = Some (d, t, r) ->
  exists r', SchedulingAdvisor.match_slot_at x = Some (d, t, r')
             /\ r = r' ++ String b rest.
Proof.
  unfold SchedulingAdvisor.match_slot_at. intros Hb H.
  repeat barrier_step Hb H.
  inversion H. eexists. split; reflexivity.
Qed.

Lemma match_slot_at_none_barrier x b rest :
  SchedulingAdvisor.is_pattern_char b = false ->
  SchedulingAdvisor.match_slot_at x = None ->
  SchedulingAdvisor.match_slot_at (x ++ String b rest) = None.
Proof.
  intros Hb Hx.
  destruct (SchedulingAdvisor.match_slot_at (x ++ String b rest))
    as [[[d t] r]|] eqn:E; [|reflexivity].
  destruct (match_slot_at_barrier _ _ _ _ _ _ Hb E) as (r' & E' & _). congruence.
Qed.

Lemma match_slot_at_needs_digit s :
  head_is is_digit s = false -> SchedulingAdvisor.match_slot_at s = None.
Proof.
  unfold SchedulingAdvisor.match_slot_at. destruct s as [|c s]; cbn; [reflexivity|].
  now intros ->.
Qed.

Lemma find_slots_skip x tail :
  SchedulingAdvisor.find_slots (x ++ tail) (String.length x)
  = SchedulingAdvisor.find_slots tail O.
Proof. induction x as [|c x IH]; cbn; [reflexivity|exact IH]. Qed.

Lemma find_slots_barrier b rest x skip :
  SchedulingAdvisor.is_pattern_char b = false ->
  (skip <= String.length x)%nat ->
  SchedulingAdvisor.find_slots (x ++ String b rest) skip
  = (SchedulingAdvisor.find_slots x skip ++ SchedulingAdvisor.find_slots rest O)%list.
Proof.
  intros Hb. revert skip.
  induction x as [|c x IH]; intros skip Hskip.
  - cbn in Hskip. assert (skip = O) by lia. subst skip.
    cbn [append SchedulingAdvisor.find_slots app].
    rewrite match_slot_at_needs_digit; [reflexivity|].
    cbn. exact (pattern_char_digit _ Hb).
  - cbn [append SchedulingAdvisor.find_slots].
    destruct skip as [|k].
    + change (String c (x ++ String b rest)) with ((String c x) ++ String b rest).
      destruct (SchedulingAdvisor.match_slot_at (String c x)) as [[[d t] r]|] eqn:E.
      * rewrite (match_slot_at_ext _ (String b rest) _ _ _ E).
        rewrite !length_app, IH by lia.
        replace (String.length x + String.length (String b rest)
                 - (String.length r + String.length (String b rest)))%nat
          with (String.length x - String.length r)%nat by lia.
        reflexivity.
      * rewrite (match_slot_at_none_barrier _ _ _ Hb E). apply IH. lia.
    + apply IH. cbn in Hskip. lia.
Qed.

Lemma find_slots_quiet g s :
  has_digit g = false ->
  SchedulingAdvisor.find_slots (g ++ s) O = SchedulingAdvisor.find_slots s O.
Proof.
  induction g as [|c g IH]; cbn [append has_digit]; [reflexivity|].
  intros H. apply orb_false_elim in H as [Hc Hg].
  cbn [SchedulingAdvisor.find_slots].
  rewrite match_slot_at_needs_digit by (cbn; exact Hc). now apply IH.
Qed.

Lemma digit_not_space c : is_digit c = true -> is_space c = false.
Proof.
  unfold is_digit, is_space. intros H. apply andb_prop in H as [H1 H2].
  apply Z.leb_le in H1, H2.
  apply orb_false_intro; apply andb_false_iff.
  - right. apply Z.leb_gt. lia.
  - right. apply Z.leb_gt. lia.
Qed.

Lemma match_slot_at_offer d t tail :
  SchedulingAdvisor.date_text d = true -> SchedulingAdvisor.time_text t = true ->
  SchedulingAdvisor.match_slot_at (d ++ " at " ++ t ++ tail) = Some (d, t, tail).
Proof.
  intros Hd Ht.
  do 10 (destruct d as [|? d]; [discriminate Hd|]). destruct d; [|discriminate Hd].
  do 5 (destruct t as [|? t]; [discriminate Ht|]). destruct t; [|discriminate Ht].
  cbn in Hd, Ht.
  repeat match goal with
  | H : _ && _ = true |- _ => apply andb_prop in H as [? ?]
  | H : Ascii.eqb _ _ = true |- _ => apply Ascii.eqb_eq in H; subst
  end.
  repeat match goal with
  | H : is_digit ?c = true |- _ =>
      lazymatch goal with
      | _ : is_space c = false |- _ => fail
      | _ => pose proof (digit_not_space c H)
      end
  end.
  unfold SchedulingAdvisor.match_slot_at. cbn [append].
  repeat (progress (cbn [SchedulingAdvisor.take_digits SchedulingAdvisor.take_char
                         SchedulingAdvisor.take_spaces SchedulingAdvisor.and_then lstrip
                         Ascii.eqb Bool.eqb];
                    change (is_space " "%char) with true;
                    change (is_space "a"%char) with false;
                    repeat match goal with
                    | H : is_digit _ = true |- _ => rewrite H
                    | H : is_space _ = false |- _ => rewrite H
                    end)).
  reflexivity.
Qed.

